(** * Drawing dimension extractor: a shallow embedding of [app.py]

    The development follows the two functions of the program that carry
    logic, [parse_dimension] and [extract_dimensions_from_pdf], together
    with the fragment of Python's [str], [int], [float] and [re] that they
    call.  Python strings are sequences of Unicode code points, so a string
    is a list of code points here; literals are written as UTF-8 text and
    decoded once. *)

From Stdlib Require Import List Bool Arith NArith ZArith QArith Lia String Ascii DecimalString.
Import ListNotations.

Local Open Scope N_scope.
Local Open Scope list_scope.

(** ** Strings as code point sequences *)

Definition char := N.
Definition str := list char.

Fixpoint bytes_of (s : string) : list N :=
  match s with
  | EmptyString => []
  | String a s' => N_of_ascii a :: bytes_of s'
  end.

(** UTF-8 decoding of the bytes of a literal (well-formed input assumed:
    the literals of this file). *)
Fixpoint decode_utf8 (bs : list N) : str :=
  match bs with
  | [] => []
  | b0 :: r0 =>
    if b0 <? 128 then b0 :: decode_utf8 r0
    else if b0 <? 224 then
      match r0 with
      | b1 :: r1 => ((b0 - 192) * 64 + (b1 - 128)) :: decode_utf8 r1
      | _ => []
      end
    else if b0 <? 240 then
      match r0 with
      | b1 :: b2 :: r2 =>
        ((b0 - 224) * 4096 + (b1 - 128) * 64 + (b2 - 128)) :: decode_utf8 r2
      | _ => []
      end
    else
      match r0 with
      | b1 :: b2 :: b3 :: r3 =>
        ((b0 - 240) * 262144 + (b1 - 128) * 4096 + (b2 - 128) * 64 + (b3 - 128))
          :: decode_utf8 r3
      | _ => []
      end
  end.

Definition u (s : string) : str := decode_utf8 (bytes_of s).
Arguments u s%_string.

Definition between (lo hi c : char) : bool := (lo <=? c) && (c <=? hi).

(** [str.isspace] on one code point; the same set is what [\s] matches in a
    [str] pattern. *)
Definition is_space (c : char) : bool :=
  between 9 13 c || between 28 32 c || (c =? 133) || (c =? 160) ||
  (c =? 5760) || between 8192 8202 c || (c =? 8232) || (c =? 8233) ||
  (c =? 8239) || (c =? 8287) || (c =? 12288).

(** The code points at which [str.splitlines] breaks a line. *)
Definition is_linebreak (c : char) : bool :=
  between 10 13 c || between 28 30 c || (c =? 133) || (c =? 8232) || (c =? 8233).

(** The Unicode character database above U+00FF is a table of the Python
    runtime, not of the program: it is taken as a parameter.  Below U+0100
    the three properties are written out.  Of the table only this much is
    assumed: a whitespace character is neither a decimal digit nor
    alphanumeric. *)
Record unicode_tables := {
  ucd_decimal : char -> option N;
  ucd_alnum : char -> bool;
  ucd_upper : char -> str;
  ucd_space_not_decimal : forall c, is_space c = true -> ucd_decimal c = None;
  ucd_space_not_alnum : forall c, is_space c = true -> ucd_alnum c = false
}.

(** The table that knows no decimal digit, letter or case pair above
    U+00FF. *)
Definition latin1_only : unicode_tables :=
  {| ucd_decimal := fun _ => None;
     ucd_alnum := fun _ => false;
     ucd_upper := fun c => [c];
     ucd_space_not_decimal := fun _ _ => eq_refl;
     ucd_space_not_alnum := fun _ _ => eq_refl |}.

Section Strings.

Variable U : unicode_tables.

(** Decimal value of a code point of category Nd. *)
Definition decimal (c : char) : option N :=
  if c <? 256 then (if between 48 57 c then Some (c - 48) else None)
  else ucd_decimal U c.

Definition is_digit (c : char) : bool :=
  match decimal c with Some _ => true | None => false end.

(** [\w]: alphanumeric in the sense of [str.isalnum], or the underscore. *)
Definition is_word (c : char) : bool :=
  if c <? 256 then
    between 48 57 c || between 65 90 c || (c =? 95) || between 97 122 c ||
    (c =? 170) || (c =? 178) || (c =? 179) || (c =? 181) || (c =? 185) ||
    (c =? 186) || between 188 190 c || between 192 214 c ||
    between 216 246 c || between 248 255 c
  else ucd_alnum U c.

Definition upper_char (c : char) : str :=
  if c <? 256 then
    if between 97 122 c then [c - 32]
    else if c =? 181 then [924]
    else if c =? 223 then [83; 83]
    else if between 224 254 c && negb (c =? 247) then [c - 32]
    else if c =? 255 then [376]
    else [c]
  else ucd_upper U c.

Definition upper (s : str) : str := flat_map upper_char s.

End Strings.

Fixpoint lstrip (s : str) : str :=
  match s with
  | [] => []
  | c :: s' => if is_space c then lstrip s' else s
  end.

Fixpoint rstrip (s : str) : str :=
  match s with
  | [] => []
  | c :: s' =>
    match rstrip s' with
    | [] => if is_space c then [] else [c]
    | r => c :: r
    end
  end.

Definition strip (s : str) : str := rstrip (lstrip s).

Fixpoint str_eqb (a b : str) : bool :=
  match a, b with
  | [], [] => true
  | x :: a', y :: b' => (x =? y) && str_eqb a' b'
  | _, _ => false
  end.

Fixpoint startswith (s p : str) {struct p} : bool :=
  match p, s with
  | [], _ => true
  | x :: p', y :: s' => (x =? y) && startswith s' p'
  | _ :: _, [] => false
  end.

(** [x in s] for strings. *)
Fixpoint contains (x s : str) : bool :=
  startswith s x || match s with [] => false | _ :: s' => contains x s' end.

Definition has_char (c : char) (s : str) : bool := existsb (N.eqb c) s.

(** [s.replace(c, '')] for a one-character [c]. *)
Definition remove_char (c : char) (s : str) : str :=
  filter (fun x => negb (x =? c)) s.

(** [s.split(sep)] for a one-character separator. *)
Fixpoint split_all (sep : char) (s : str) : list str :=
  match s with
  | [] => [[]]
  | c :: s' =>
    if c =? sep then [] :: split_all sep s'
    else match split_all sep s' with
         | [] => [[c]]
         | w :: ws => (c :: w) :: ws
         end
  end.

(** [s.split(sep, 1)]. *)
Fixpoint split_once (sep : char) (s : str) : list str :=
  match s with
  | [] => [[]]
  | c :: s' =>
    if c =? sep then [[]; s']
    else match split_once sep s' with
         | w :: ws => (c :: w) :: ws
         | [] => [[c]]
         end
  end.

Fixpoint splitlines_from (cur : str) (s : str) : list str :=
  match s with
  | [] => match cur with [] => [] | _ => [rev cur] end
  | c :: s' =>
    if is_linebreak c then
      rev cur ::
        match s' with
        | c' :: s'' =>
          if (c =? 13) && (c' =? 10) then splitlines_from [] s''
          else splitlines_from [] s'
        | [] => []
        end
    else splitlines_from (c :: cur) s'
  end.

Definition splitlines (s : str) : list str := splitlines_from [] s.

(** Decimal rendering of a number, as in an f-string. *)
Definition str_of_nat (n : nat) : str :=
  bytes_of (NilEmpty.string_of_uint (Nat.to_uint n)).

(** ** Exceptions *)

Inductive exn := ValueError | ZeroDivisionError | IndexError.

Inductive res (A : Type) : Type :=
| Ok (a : A)
| Raise (e : exn).
Arguments Ok {A} a.
Arguments Raise {A} e.

Definition bind {A B : Type} (x : res A) (f : A -> res B) : res B :=
  match x with
  | Ok a => f a
  | Raise e => Raise e
  end.

Notation "' p <- x ;; k" := (bind x (fun p => k))
  (at level 61, p pattern, x at next level, right associativity).
Notation "v <- x ;; k" := (bind x (fun v => k))
  (at level 61, x at next level, right associativity).

(** ** Numeric conversions

    [int(s)] and [float(s)] on the text the patterns of the program can
    capture: surrounding blanks, an optional sign, decimal digits of any
    script and, for [float], one decimal point.  Underscore grouping,
    exponents and the spellings of infinity and NaN cannot occur in a
    capture and are read as [ValueError].  [int] refuses a literal of more
    than [int_max_str_digits] digits with [ValueError]; [float] has no such
    limit.  A float is kept as the exact rational its literal denotes;
    rounding to binary64 is not modelled. *)

(** The whitespace [int] and [float] skip around a literal: they test
    ASCII characters with the C locale's [isspace], so the separators
    U+001C to U+001F, which [str.strip] removes, are not skipped. *)
Definition is_num_space (c : char) : bool :=
  if c <? 128 then between 9 13 c || (c =? 32) else is_space c.

Fixpoint lstrip_num (s : str) : str :=
  match s with
  | [] => []
  | c :: s' => if is_num_space c then lstrip_num s' else s
  end.

Fixpoint rstrip_num (s : str) : str :=
  match s with
  | [] => []
  | c :: s' =>
    match rstrip_num s' with
    | [] => if is_num_space c then [] else [c]
    | r => c :: r
    end
  end.

Definition strip_num (s : str) : str := rstrip_num (lstrip_num s).

Section Numbers.

Variable U : unicode_tables.

Fixpoint digits_value (acc : N) (s : str) : option N :=
  match s with
  | [] => Some acc
  | c :: s' =>
    match decimal U c with
    | Some d => digits_value (acc * 10 + d) s'
    | None => None
    end
  end.

Definition split_sign (s : str) : bool * str :=
  match s with
  | c :: b => if c =? 43 then (false, b) else if c =? 45 then (true, b) else (false, s)
  | [] => (false, s)
  end.

(** The interpreter's default limit on the digits of a literal given to
    [int]; the program does not change it.  Sign and blanks do not count,
    leading zeros do. *)
Definition int_max_str_digits : nat := 4300.

Definition py_int (s : str) : res Z :=
  let '(neg, body) := split_sign (strip_num s) in
  match body with
  | [] => Raise ValueError
  | _ =>
    match digits_value 0 body with
    | Some n =>
      if (List.length body <=? int_max_str_digits)%nat
      then Ok (if neg then (- Z.of_N n)%Z else Z.of_N n)
      else Raise ValueError
    | None => Raise ValueError
    end
  end.

Definition decimal_fraction (i f : str) : res Q :=
  match i, f with
  | [], [] => Raise ValueError
  | _, _ =>
    match digits_value 0 (i ++ f) with
    | Some n => Ok (Qred (Z.of_N n # Z.to_pos (10 ^ Z.of_nat (List.length f))))
    | None => Raise ValueError
    end
  end.

Definition py_float (s : str) : res Q :=
  let '(neg, body) := split_sign (strip_num s) in
  v <- match split_all 46 body with
       | [i] => decimal_fraction i []
       | [i; f] => decimal_fraction i f
       | _ => Raise ValueError
       end ;;
  Ok (if neg then Qred (- v) else v).

Definition py_div (a b : Q) : res Q :=
  if Qeq_bool b 0 then Raise ZeroDivisionError else Ok (Qred (a / b)).

Definition py_add (a b : Q) : Q := Qred (a + b).

End Numbers.

(** ** Regular expressions

    The fragment of [re] the program uses: a pattern is a sequence of
    single-character classes, greedy repetitions of such a class, the
    anchors [^] and [\b], and capture groups.  Matching is by backtracking,
    longest repetition first, as in [re]. *)

Inductive item :=
| Chr (cls : char -> bool)
| Rep (cls : char -> bool) (min : nat)
| Bol
| Wordb
| Open (n : nat)
| Close (n : nat).

Definition regex := list item.

Definition caps := list (nat * (nat * nat)).

Fixpoint lookup (n : nat) (c : caps) : option (nat * nat) :=
  match c with
  | [] => None
  | (k, v) :: c' => if Nat.eqb k n then Some v else lookup n c'
  end.

Definition set_start (n pos : nat) (c : caps) : caps := (n, (pos, pos)) :: c.

Definition set_end (n pos : nat) (c : caps) : caps :=
  match lookup n c with
  | Some (st, _) => (n, (st, pos)) :: c
  | None => (n, (pos, pos)) :: c
  end.

(** Greedy repetition of a class, at least [min] times, then [k]. *)
Fixpoint rep (cls : char -> bool) (k : option char -> nat -> str -> option (nat * caps))
    (min : nat) (prev : option char) (pos : nat) (s : str) : option (nat * caps) :=
  let more :=
    match s with
    | x :: s' => if cls x then rep cls k (pred min) (Some x) (S pos) s' else None
    | [] => None
    end in
  match more with
  | Some r => Some r
  | None => match min with O => k prev pos s | S _ => None end
  end.

Section Matcher.

Variable U : unicode_tables.

Definition word_before (prev : option char) : bool :=
  match prev with Some x => is_word U x | None => false end.

Definition word_at (s : str) : bool :=
  match s with x :: _ => is_word U x | [] => false end.

(** [m r prev pos s c]: match [r] against [s], which starts at offset [pos]
    of the subject and is preceded by [prev]; the result is the end offset
    and the captures. *)
Fixpoint m (r : regex) (prev : option char) (pos : nat) (s : str) (c : caps)
    {struct r} : option (nat * caps) :=
  match r with
  | [] => Some (pos, c)
  | Chr cls :: r' =>
    match s with
    | x :: s' => if cls x then m r' (Some x) (S pos) s' c else None
    | [] => None
    end
  | Rep cls min :: r' =>
    rep cls (fun prev' pos' s' => m r' prev' pos' s' c) min prev pos s
  | Bol :: r' =>
    match pos with
    | O => m r' prev pos s c
    | S _ => None
    end
  | Wordb :: r' =>
    if xorb (word_before prev) (word_at s) then m r' prev pos s c else None
  | Open n :: r' => m r' prev pos s (set_start n pos c)
  | Close n :: r' => m r' prev pos s (set_end n pos c)
  end.

(** A match object: the subject, the span of the whole match, the groups. *)
Record match_obj := {
  mo_string : str;
  mo_start : nat;
  mo_end : nat;
  mo_caps : caps
}.

Definition substring (s : str) (b e : nat) : str := firstn (e - b) (skipn b s).

(** [mo.group(n)]. *)
Definition group (mo : match_obj) (n : nat) : res str :=
  match n with
  | O => Ok (substring (mo_string mo) (mo_start mo) (mo_end mo))
  | _ =>
    match lookup n (mo_caps mo) with
    | Some (b, e) => Ok (substring (mo_string mo) b e)
    | None => Raise IndexError
    end
  end.

(** [re.match(r, s)]. *)
Definition re_match (r : regex) (s : str) : option match_obj :=
  match m r None 0 s [] with
  | Some (e, c) => Some {| mo_string := s; mo_start := 0; mo_end := e; mo_caps := c |}
  | None => None
  end.

Fixpoint search_from (r : regex) (whole : str) (prev : option char) (pos : nat)
    (s : str) : option match_obj :=
  match m r prev pos s [] with
  | Some (e, c) =>
    Some {| mo_string := whole; mo_start := pos; mo_end := e; mo_caps := c |}
  | None =>
    match s with
    | x :: s' => search_from r whole (Some x) (S pos) s'
    | [] => None
    end
  end.

(** [re.search(r, s)]. *)
Definition re_search (r : regex) (s : str) : option match_obj :=
  search_from r s None 0 s.

End Matcher.
Arguments group : simpl never.

(** ** Pattern syntax

    [re_compile] reads the pattern text the program passes to [re]:
    literals, the escapes [\d], [\s], [\w], [\b] and escaped punctuation,
    [.], bracketed sets (without ranges) and their negation, the
    quantifiers [+] and [*] on a single-character atom, [^] and groups. *)

Section Compile.

Variable U : unicode_tables.

Definition any_char : char -> bool := fun c => negb (c =? 10).

Definition cls_escape (x : char) : char -> bool :=
  match x with
  | 100 => is_digit U
  | 115 => is_space
  | 119 => is_word U
  | _ => N.eqb x
  end.

(** The members of a bracketed set, up to the closing bracket. *)
Fixpoint parse_set (p : str) : option ((char -> bool) * str) :=
  match p with
  | [] => None
  | 93 :: rest => Some (fun _ => false, rest)
  | 92 :: x :: rest =>
    match parse_set rest with
    | Some (f, r) => Some (fun c => cls_escape x c || f c, r)
    | None => None
    end
  | x :: rest =>
    match parse_set rest with
    | Some (f, r) => Some (fun c => (x =? c) || f c, r)
    | None => None
    end
  end.

Definition cons_item (i : item) (r : option regex) : option regex :=
  match r with Some l => Some (i :: l) | None => None end.

Fixpoint compile (fuel : nat) (p : str) (next : nat) (open : list nat)
    : option regex :=
  match fuel with
  | O => None
  | S fuel' =>
    let quantified (cls : char -> bool) (rest : str) :=
      match rest with
      | 43 :: rest' => cons_item (Rep cls 1) (compile fuel' rest' next open)
      | 42 :: rest' => cons_item (Rep cls 0) (compile fuel' rest' next open)
      | _ => cons_item (Chr cls) (compile fuel' rest next open)
      end in
    match p with
    | [] => match open with [] => Some [] | _ => None end
    | 94 :: rest => cons_item Bol (compile fuel' rest next open)
    | 40 :: rest => cons_item (Open next) (compile fuel' rest (S next) (next :: open))
    | 41 :: rest =>
      match open with
      | n :: open' => cons_item (Close n) (compile fuel' rest next open')
      | [] => None
      end
    | 92 :: 98 :: rest => cons_item Wordb (compile fuel' rest next open)
    | 92 :: x :: rest => quantified (cls_escape x) rest
    | 91 :: 94 :: rest =>
      match parse_set rest with
      | Some (f, r) => quantified (fun c => negb (f c)) r
      | None => None
      end
    | 91 :: rest =>
      match parse_set rest with
      | Some (f, r) => quantified f r
      | None => None
      end
    | 46 :: rest => quantified any_char rest
    | x :: rest => quantified (N.eqb x) rest
    end
  end.

Definition re_compile (p : str) : option regex :=
  compile (S (List.length p)) p 1 [].

(** A pattern literal of the program. *)
Definition pat (p : string) : regex :=
  match re_compile (u p) with
  | Some r => r
  | None => []
  end.

End Compile.
Arguments pat U p%_string.

(** ** The program *)

Section App.

Variable U : unicode_tables.

Definition is_some {A : Type} (o : option A) : bool :=
  match o with Some _ => true | None => false end.

(** [a, b = l]: unpacking a list of the wrong length is a [ValueError]. *)
Definition unpack2 (l : list str) : res (str * str) :=
  match l with
  | [a; b] => Ok (a, b)
  | _ => Raise ValueError
  end.

Definition nominal_patterns : list regex :=
  [ pat U "(\d+\.\d+)";
    pat U "(\d+)";
    pat U "(\d+/\d+)";
    pat U "(\d+\s\d+/\d+)" ].

(** The body of the [try] of the nominal loop, from the captured text. *)
Definition nominal_of_capture (val_str : str) : res Q :=
  if has_char 47 val_str then
    if has_char 32 val_str then
      '(whole, frac) <- unpack2 (split_once 32 val_str) ;;
      '(num, den) <- unpack2 (split_all 47 frac) ;;
      w <- py_float U whole ;;
      n <- py_float U num ;;
      d <- py_float U den ;;
      q <- py_div n d ;;
      Ok (py_add w q)
    else
      '(num, den) <- unpack2 (split_all 47 val_str) ;;
      n <- py_float U num ;;
      d <- py_float U den ;;
      py_div n d
  else py_float U val_str.

(** [for pattern in nominal_patterns]: [break] on a value, [continue] on
    [ValueError] and [ZeroDivisionError]; anything else propagates. *)
Fixpoint nominal_loop (patterns : list regex) (line : str) : res (option Q) :=
  match patterns with
  | [] => Ok None
  | pattern :: rest =>
    match re_search U pattern line with
    | Some m_val =>
      match (val_str <- group m_val 1 ;; nominal_of_capture val_str) with
      | Ok nominal => Ok (Some nominal)
      | Raise ValueError => nominal_loop rest line
      | Raise ZeroDivisionError => nominal_loop rest line
      | Raise e => Raise e
      end
    | None => nominal_loop rest line
    end
  end.

Definition tol_patterns : list regex :=
  [ pat U "(±\s*\d+\.\d+)";
    pat U "(±\s*\d+)";
    pat U "([+]\d+\.\d+/-\d+\.\d+)";
    pat U "([+]\d+/-\d+)";
    pat U "([+\-]\d+\.\d+)";
    pat U "([+\-]\d+)" ].

(** [for pattern in tol_patterns], starting from the default [tol]. *)
Fixpoint tol_loop (patterns : list regex) (line : str) (tol : str) : res str :=
  match patterns with
  | [] => Ok tol
  | pattern :: rest =>
    match re_search U pattern line with
    | Some m_tol => g <- group m_tol 1 ;; Ok (remove_char 32 g)
    | None => tol_loop rest line tol
    end
  end.

Definition any_in (symbols : list str) (s : str) : bool :=
  existsb (fun symbol => contains symbol s) symbols.

(** The conditions of the [if]/[elif] chain, in order. *)
Definition diameter_rule (line line_upper : str) : bool :=
  any_in [u "Ø"; u "DIA"; u "DIAM"] line || contains (u "DIAMETER") line_upper.

Definition radius_rule (line line_upper : str) : bool :=
  startswith line (u "R") || contains (u "RADIUS") line_upper || contains (u " R ") line.

Definition thread_rule (line line_upper : str) : bool :=
  is_some (re_search U (pat U "M\d+") line) || contains (u "THREAD") line_upper.

Definition chamfer_rule (line line_upper : str) : bool :=
  (contains (u "°") line && any_in [u "X"; u "CHAM"; u "CHAMFER"] line_upper)
  || is_some (re_search U (pat U "\d+\s*[Xx]\s*\d+°") line).

Definition angle_rule (line line_upper : str) : bool :=
  contains (u "°") line || contains (u "ANGLE") line_upper || contains (u "DEG") line_upper.

Definition roughness_rule (line line_upper : str) : bool :=
  any_in [u "Ra"; u "Rz"; u "Rt"] line || contains (u "SURFACE") line_upper.

Definition runout_rule (line line_upper : str) : bool :=
  any_in [u "⌖"; u "↗"] line || contains (u "CONC") line_upper
  || contains (u "RUNOUT") line_upper.

(** The chain that sets [desc] and [inst]. *)
Definition classify (line line_upper : str) : str * str :=
  if diameter_rule line line_upper then (u "Diameter", u "DVC")
  else if radius_rule line line_upper then (u "Radius", u "VMS/IMM")
  else if thread_rule line line_upper then (u "Thread", u "Thread Gauge")
  else if chamfer_rule line line_upper then (u "Chamfer", u "VMS/IMM")
  else if angle_rule line line_upper then (u "Angle", u "VMS/IMM")
  else if roughness_rule line line_upper then (u "Surface Roughness", u "Surface Tester")
  else if runout_rule line line_upper then (u "Concentricity/Runout", u "CMM")
  else (u "Length", u "DVC").

Definition critical_rule (line_upper : str) : bool :=
  is_some (re_search U (pat U "\bC\b") line_upper) || contains (u "CRITICAL") line_upper.

Definition spec_rule (line_upper : str) : bool :=
  is_some (re_search U (pat U "\bS\b") line_upper) || contains (u "SPEC") line_upper.

Definition key_rule (line_upper : str) : bool :=
  contains (u "KEY") line_upper || contains (u "MAJOR") line_upper.

(** The chain that sets [typ]. *)
Definition inspection_type (line_upper : str) : str :=
  if critical_rule line_upper then u "C"
  else if spec_rule line_upper then u "S"
  else if key_rule line_upper then u "K"
  else u "".

(** [parse_dimension(line)] returns [(desc, nominal, tol, typ, inst)]. *)
Definition parse_dimension (line : str)
    : res (str * option Q * str * str * str) :=
  let line := strip line in
  nominal <- nominal_loop nominal_patterns line ;;
  tol <- tol_loop tol_patterns line (u "±0.10") ;;
  let line_upper := upper U line in
  let '(desc, inst) := classify line line_upper in
  let typ := inspection_type line_upper in
  Ok (desc, nominal, tol, typ, inst).

(** One row of [data]:
    [[sr_no, desc, nominal, tol, typ, inst, f"Page {page_num}"]]. *)
Record row := {
  sr_no : Z;
  desc : str;
  nominal : option Q;
  tol : str;
  typ : str;
  inst : str;
  page_ref : str
}.

Definition balloon_patterns : list regex :=
  [ pat U "^(\d+)\s+(.+)";
    pat U "^\((\d+)\)\s*(.+)";
    pat U "^(\d+)[\.\-\:]\s*(.+)";
    pat U "(\d+)\s*[^\d\w]*(.+)" ].

(** The body of the [try] of the balloon loop: the row to append, if the
    captured text is long enough. *)
Definition balloon_try (mt : match_obj) (page_num : nat) : res (option row) :=
  g1 <- group mt 1 ;;
  n <- py_int U g1 ;;
  g2 <- group mt 2 ;;
  let dim_text := strip g2 in
  if negb (str_eqb dim_text []) && (1 <? List.length dim_text)%nat then
    '(d, v, t, ty, i) <- parse_dimension dim_text ;;
    Ok (Some {| sr_no := n; desc := d; nominal := v; tol := t; typ := ty;
                inst := i; page_ref := u "Page " ++ str_of_nat page_num |})
  else Ok None.

(** [for pattern in balloon_patterns]: [break] after an append; a capture
    that is too short falls out of the [if] into the next pattern;
    [ValueError] and [IndexError] [continue]. *)
Fixpoint balloon_loop (patterns : list regex) (line : str) (page_num : nat)
    : res (option row) :=
  match patterns with
  | [] => Ok None
  | pattern :: rest =>
    match re_match U pattern line with
    | Some mt =>
      match balloon_try mt page_num with
      | Ok (Some r) => Ok (Some r)
      | Ok None => balloon_loop rest line page_num
      | Raise ValueError => balloon_loop rest line page_num
      | Raise IndexError => balloon_loop rest line page_num
      | Raise e => Raise e
      end
    | None => balloon_loop rest line page_num
    end
  end.

(** The body of [for line in lines]; [data] is the list appended to. *)
Definition process_line (data : list row) (page_num : nat) (line : str)
    : res (list row) :=
  let line := strip line in
  match line with
  | [] => Ok data
  | _ =>
    r <- balloon_loop balloon_patterns line page_num ;;
    match r with
    | Some x => Ok (data ++ [x])
    | None => Ok data
    end
  end.

Fixpoint process_lines (data : list row) (page_num : nat) (lines : list str)
    : res (list row) :=
  match lines with
  | [] => Ok data
  | line :: rest =>
    data' <- process_line data page_num line ;;
    process_lines data' page_num rest
  end.

(** What [page.get_text] returns in its three modes.  In ["dict"] mode the
    keys the program reads with a default or a test are optional.  In
    ["blocks"] mode a block is a tuple whose fifth entry is its text; the
    entry is absent when the tuple is shorter. *)
Record dict_line := { spans : option (list (option str)) }.
Record dict_block := { lines : option (list dict_line) }.

Record page := {
  get_text_text : str;
  get_text_dict : option (list dict_block);
  get_text_blocks : list (option str)
}.

Inductive method := text | dict | blocks.

Definition or_empty {A : Type} (o : option (list A)) : list A :=
  match o with Some l => l | None => [] end.

Definition span_lines (sp : option str) : list str :=
  match sp with
  | Some t => match strip t with [] => [] | t' => [t'] end
  | None => []
  end.

Definition lines_of (method_name : method) (p : page) : list str :=
  match method_name with
  | text => splitlines (get_text_text p)
  | dict =>
    flat_map (fun block =>
      match lines block with
      | Some ls => flat_map (fun line => flat_map span_lines (or_empty (spans line))) ls
      | None => []
      end) (or_empty (get_text_dict p))
  | blocks =>
    flat_map (fun block => match block with Some t => [t] | None => [] end)
      (get_text_blocks p)
  end.

(** [for method_name, text_content in text_methods]: stop as soon as [data]
    is not empty. *)
Fixpoint methods_loop (methods : list method) (p : page) (page_num : nat)
    (data : list row) : res (list row) :=
  match methods with
  | [] => Ok data
  | method_name :: rest =>
    data' <- process_lines data page_num (lines_of method_name p) ;;
    match data' with
    | _ :: _ => Ok data'
    | [] => methods_loop rest p page_num data'
    end
  end.

Definition text_methods : list method := [text; dict; blocks].

(** [for page_num, page in enumerate(doc, 1)]. *)
Fixpoint pages_loop (doc : list page) (page_num : nat) (data : list row)
    : res (list row) :=
  match doc with
  | [] => Ok data
  | p :: rest =>
    data' <- methods_loop text_methods p page_num data ;;
    pages_loop rest (S page_num) data'
  end.

Definition extract_dimensions_from_pdf (doc : list page) : res (list row) :=
  pages_loop doc 1%nat [].

(** The sidebar of the script and the call it makes: the three settings are
    read, and the document is handed to the extractor. *)
Record config := {
  show_preview : bool;
  default_tolerance : str;
  include_page_ref : bool
}.

Definition run (cfg : config) (uploaded_file : list page) : res (list row) :=
  extract_dimensions_from_pdf uploaded_file.

End App.

(** ** Reference procedures for the extraction policy *)

Section Policy.

Variable U : unicode_tables.

(** The rows one strategy yields on one page. *)
Definition records (method_name : method) (page_num : nat) (p : page) : list row :=
  match process_lines U [] page_num (lines_of method_name p) with
  | Ok data => data
  | Raise _ => []
  end.

(** The rows one strategy yields over the whole document. *)
Fixpoint strategy_records (method_name : method) (doc : list page) (page_num : nat)
    : list row :=
  match doc with
  | [] => []
  | p :: rest =>
    records method_name page_num p ++ strategy_records method_name rest (S page_num)
  end.

(** Commit per document, in the words of the specification: run a strategy
    over all pages, keep its rows if there are any, else try the next. *)
Fixpoint commit_per_document (methods : list method) (doc : list page) : list row :=
  match methods with
  | [] => []
  | method_name :: rest =>
    match strategy_records method_name doc 1%nat with
    | [] => commit_per_document rest doc
    | data => data
    end
  end.

(** The rows of the first strategy, in order, that yields any on a page. *)
Fixpoint first_productive (methods : list method) (page_num : nat) (p : page)
    : list row :=
  match methods with
  | [] => []
  | method_name :: rest =>
    match records method_name page_num p with
    | [] => first_productive rest page_num p
    | data => data
    end
  end.

(** The loop over the pages in closed form.  [found] is the test [if data]
    of the program: it looks at the whole list gathered so far, not at the
    rows of the page at hand, so once it holds a page is tried with the
    plain text only. *)
Fixpoint commit_per_page (doc : list page) (page_num : nat) (found : bool)
    : list row :=
  match doc with
  | [] => []
  | p :: rest =>
    let data := if found then records text page_num p
                else first_productive text_methods page_num p in
    data ++ commit_per_page rest (S page_num)
              (found || match data with [] => false | _ => true end)
  end.

End Policy.

(** Sample inputs. *)

Definition text_page (t : string) : page :=
  {| get_text_text := u t; get_text_dict := None; get_text_blocks := [] |}.

Definition span_page (t : string) : page :=
  {| get_text_text := [];
     get_text_dict := Some [ {| lines := Some [ {| spans := Some [Some (u t)] |} ] |} ];
     get_text_blocks := [] |}.

Definition mk_row (n : Z) (d : string) (v : option Q) (t ty i pg : string) : row :=
  {| sr_no := n; desc := u d; nominal := v; tol := u t; typ := u ty;
     inst := u i; page_ref := u pg |}.

(** ** Notions used in the statements and proofs *)

(** The character before the position reached after reading [a]. *)
Definition prev_after (a : str) (prev : option char) : option char :=
  last (map Some a) prev.

(** The text [b] does not start with a character of the class. *)
Definition head_outside (cls : char -> bool) (b : str) : Prop :=
  match b with x :: _ => cls x = false | [] => True end.

(** The longest prefix in a class, and the rest. *)
Fixpoint span (cls : char -> bool) (s : str) : str * str :=
  match s with
  | [] => ([], [])
  | x :: s' =>
    if cls x then let '(a, b) := span cls s' in (x :: a, b) else ([], s)
  end.

(** The classes of the bracketed sets of the program. *)
Definition one_of (l : list char) : char -> bool :=
  fun c => existsb (fun x => x =? c) l.

Definition outside (U : unicode_tables) : char -> bool :=
  fun c => negb (is_digit U c || (is_word U c || false)).

(** The exceptions the nominal loop catches. *)
Definition caught (e : exn) : Prop := e = ValueError \/ e = ZeroDivisionError.

(** A pattern mentions group [n]. *)
Definition touches (n : nat) (r : regex) : Prop :=
  In (Open n) r \/ In (Close n) r.

(** The group 1 of every match of [p] starts with a digit. *)
Definition digit_headed (U : unicode_tables) (p : regex) : Prop :=
  forall line mt, re_match U p line = Some mt ->
  exists x g, group mt 1 = Ok (x :: g) /\ is_digit U x = true.

Definition nonempty {A : Type} (l : list A) : bool :=
  match l with [] => false | _ => true end.

(** The four item-number patterns, as item sequences. *)
Definition ws_pattern (U : unicode_tables) : regex :=
  [Bol; Open 1; Rep (is_digit U) 1; Close 1; Rep is_space 1; Open 2; Rep any_char 1; Close 2].

Definition paren_pattern (U : unicode_tables) : regex :=
  [Bol; Chr (N.eqb 40); Open 1; Rep (is_digit U) 1; Close 1; Chr (N.eqb 41);
   Rep is_space 0; Open 2; Rep any_char 1; Close 2].

Definition sep_pattern (U : unicode_tables) : regex :=
  [Bol; Open 1; Rep (is_digit U) 1; Close 1; Chr (one_of [46; 45; 58]); Rep is_space 0;
   Open 2; Rep any_char 1; Close 2].

Definition loose_pattern (U : unicode_tables) : regex :=
  [Open 1; Rep (is_digit U) 1; Close 1; Rep is_space 0; Rep (outside U) 0;
   Open 2; Rep any_char 1; Close 2].

(** A pattern either does not match or leaves a capture too short for a
    row. *)
Definition short_or_fail (U : unicode_tables) (p : regex) (L : str) : Prop :=
  re_match U p L = None \/
  exists mt g2, re_match U p L = Some mt /\ group mt 2 = Ok g2 /\
                (List.length (strip g2) <= 1)%nat.

(** A document whose first page has its row in a span and whose second
    page has its row in the plain text. *)
Definition mixed_doc : list page := [span_page "1 ab"; text_page "2 cd"].

(** A block text of two lines. *)
Definition two_line_block : str := u "1 -" ++ [10] ++ u "bcd".

(** ** Further notions: the results of the chains, the name of the export *)

(** The pairs of parameter name and instrument the type chain can give. *)
Definition type_table : list (str * str) :=
  [ (u "Diameter", u "DVC");
    (u "Radius", u "VMS/IMM");
    (u "Thread", u "Thread Gauge");
    (u "Chamfer", u "VMS/IMM");
    (u "Angle", u "VMS/IMM");
    (u "Surface Roughness", u "Surface Tester");
    (u "Concentricity/Runout", u "CMM");
    (u "Length", u "DVC") ].

(** The values the flag chain can give. *)
Definition flag_values : list str := [u "C"; u "S"; u "K"; u ""].

(** [f"extracted_dimensions_{uploaded_file.name.split('.')[0]}.xlsx"]. *)
Definition download_file_name (name : str) : str :=
  u "extracted_dimensions_" ++ hd [] (split_all 46 name) ++ u ".xlsx".

(** The row appended for item number [n] and a result of
    [parse_dimension]. *)
Definition row_of (n : Z) (res5 : str * option Q * str * str * str) (page_num : nat)
    : row :=
  let '(d, v, t, ty, i) := res5 in
  {| sr_no := n; desc := d; nominal := v; tol := t; typ := ty; inst := i;
     page_ref := u "Page " ++ str_of_nat page_num |}.

(** A tolerance pattern: a capture that opens with one character of a
    class without the space. *)
Definition sign_led (p : regex) : Prop :=
  exists f body, p = Open 1 :: Chr f :: body ++ [Close 1] /\
                 ~ touches 1 body /\ f 32 = false.

(** * Properties *)

(** ** Evaluation on the literal lines of the specification *)

(** C9: the line "1 25.4 ±0.1 C" yields exactly one row, with item number
    1, type Length, nominal value 25.4, tolerance "±0.1", inspection type
    "C" and instrument "DVC". *)
Theorem literal_line_record : forall U data,
  process_line U data 1 (u "1 25.4 ±0.1 C") =
  Ok (data ++ [mk_row 1 "Length" (Some (Qred (254 # 10))) "±0.1" "C" "DVC" "Page 1"]).
Proof.
  intros U data. vm_compute. reflexivity.
Qed.

(** C10: for the descriptive text "±0.05", whose only digits are those of
    the tolerance, the nominal value is not absent: it is 0.05, read from
    inside the tolerance text, which is also reported as the tolerance. *)
Theorem nominal_read_from_tolerance : forall U,
  parse_dimension U (u "±0.05") =
  Ok (u "Length", Some (Qred (5 # 100)), u "±0.05", u "", u "DVC").
Proof.
  intros U. vm_compute. reflexivity.
Qed.

(** ** Strings *)

Lemma startswith_app : forall x post, startswith (x ++ post) x = true.
Proof.
  induction x as [|c x IH]; intros post; simpl.
  - reflexivity.
  - rewrite N.eqb_refl. apply IH.
Qed.

Lemma startswith_inv : forall x s,
  startswith s x = true -> exists post, s = x ++ post.
Proof.
  induction x as [|c x IH]; intros s H; simpl in H.
  - exists s. reflexivity.
  - destruct s as [|y s]; [discriminate|].
    apply andb_true_iff in H. destruct H as [Hc Hs].
    apply N.eqb_eq in Hc. subst y.
    destruct (IH _ Hs) as [post ->]. exists post. reflexivity.
Qed.

Lemma contains_app : forall pre x post, contains x (pre ++ x ++ post) = true.
Proof.
  induction pre as [|c pre IH]; intros x post.
  - simpl. destruct (x ++ post) eqn:E.
    + destruct x; [reflexivity | discriminate].
    + simpl. rewrite <- E. rewrite startswith_app. reflexivity.
  - change ((c :: pre) ++ x ++ post) with (c :: (pre ++ x ++ post)).
    simpl. rewrite IH. apply orb_true_r.
Qed.

Lemma contains_inv : forall x s,
  contains x s = true -> exists pre post, s = pre ++ x ++ post.
Proof.
  intros x s. induction s as [|c s IH]; intros H.
  - simpl in H. rewrite orb_false_r in H.
    apply startswith_inv in H. destruct H as [post H].
    exists [], post. exact H.
  - simpl in H. apply orb_true_iff in H. destruct H as [H|H].
    + apply (startswith_inv x (c :: s)) in H. destruct H as [post H].
      exists [], post. exact H.
    + destruct (IH H) as (pre & post & ->). exists (c :: pre), post. reflexivity.
Qed.

Lemma contains_prefix : forall x y s,
  contains (x ++ y) s = true -> contains x s = true.
Proof.
  intros x y s H. apply contains_inv in H. destruct H as (pre & post & ->).
  rewrite <- app_assoc. apply contains_app.
Qed.

Lemma lstrip_app : forall pre c s,
  is_space c = false -> lstrip (pre ++ c :: s) = lstrip pre ++ c :: s.
Proof.
  induction pre as [|x pre IH]; intros c s Hc; simpl.
  - rewrite Hc. reflexivity.
  - destruct (is_space x); [apply IH; exact Hc | reflexivity].
Qed.

Lemma rstrip_app : forall a b,
  rstrip (a ++ b) = match rstrip b with [] => rstrip a | _ => a ++ rstrip b end.
Proof.
  induction a as [|x a IH]; intros b; simpl.
  - destruct (rstrip b); reflexivity.
  - rewrite IH. destruct (rstrip b) eqn:Eb.
    + reflexivity.
    + destruct a; reflexivity.
Qed.

Lemma rstrip_last : forall a c, is_space c = false -> rstrip (a ++ [c]) = a ++ [c].
Proof.
  intros a c Hc. rewrite rstrip_app. simpl. rewrite Hc. reflexivity.
Qed.

(** Stripping leaves alone a middle part that begins and ends with
    non-blank characters. *)
Lemma strip_middle : forall pre c mid d post,
  is_space c = false -> is_space d = false ->
  strip (pre ++ (c :: mid ++ [d]) ++ post) = lstrip pre ++ (c :: mid ++ [d]) ++ rstrip post.
Proof.
  intros pre c mid d post Hc Hd. unfold strip.
  change (pre ++ (c :: mid ++ [d]) ++ post) with (pre ++ c :: ((mid ++ [d]) ++ post)).
  rewrite lstrip_app by exact Hc.
  change (lstrip pre ++ c :: (mid ++ [d]) ++ post)
    with (lstrip pre ++ (c :: mid ++ [d]) ++ post).
  rewrite rstrip_app. rewrite rstrip_app.
  change (c :: mid ++ [d]) with ((c :: mid) ++ [d]).
  rewrite (rstrip_last (c :: mid) d Hd).
  destruct (rstrip post) eqn:Ep.
  - rewrite app_nil_r. destruct mid; reflexivity.
  - reflexivity.
Qed.

Lemma strip_one : forall pre c post,
  is_space c = false ->
  strip (pre ++ [c] ++ post) = lstrip pre ++ [c] ++ rstrip post.
Proof.
  intros pre c post Hc. unfold strip.
  change (pre ++ [c] ++ post) with (pre ++ c :: post).
  rewrite lstrip_app by exact Hc.
  change (lstrip pre ++ c :: post) with (lstrip pre ++ [c] ++ post).
  rewrite rstrip_app. rewrite rstrip_app. simpl (rstrip [c]). rewrite Hc.
  destruct (rstrip post); reflexivity.
Qed.

(** ** The matcher *)

Section RepFacts.

Variable cls : char -> bool.
Variable k : option char -> nat -> str -> option (nat * caps).

Lemma last_cons_default : forall (A : Type) (l : list A) (y d : A),
  last (y :: l) d = last l y.
Proof.
  induction l as [|z l IH]; intros y d.
  - reflexivity.
  - change (last (y :: z :: l) d) with (last (z :: l) d).
    rewrite (IH z d), (IH z y). reflexivity.
Qed.

Lemma prev_after_cons : forall x a prev,
  prev_after a (Some x) = prev_after (x :: a) prev.
Proof.
  intros x a prev. unfold prev_after. simpl map.
  symmetry. apply last_cons_default.
Qed.

(** A repetition that succeeds hands some state over to its continuation. *)
Lemma rep_inv : forall s min prev pos r,
  rep cls k min prev pos s = Some r ->
  exists a b, s = a ++ b /\ forallb cls a = true /\ (min <= List.length a)%nat /\
              k (prev_after a prev) (pos + List.length a)%nat b = Some r.
Proof.
  induction s as [|x s IH]; intros min prev pos r H; simpl in H.
  - destruct min; [|discriminate]. exists [], []. simpl.
    rewrite Nat.add_0_r. auto.
  - destruct (cls x) eqn:Hx.
    + destruct (rep cls k (pred min) (Some x) (S pos) s) as [r'|] eqn:Hr.
      * inversion H; subst r'. destruct (IH _ _ _ _ Hr) as (a & b & -> & Ha & Hm & Hk).
        exists (x :: a), b. simpl. rewrite Hx, Ha.
        rewrite <- prev_after_cons, Nat.add_succ_r. repeat split; auto. lia.
      * destruct min; [|discriminate]. exists [], (x :: s). simpl.
        rewrite Nat.add_0_r. auto.
    + destruct min; [|discriminate]. exists [], (x :: s). simpl.
      rewrite Nat.add_0_r. auto.
Qed.

(** The longest run is tried first. *)
Lemma rep_greedy : forall a b min prev pos r,
  forallb cls a = true -> head_outside cls b -> (min <= List.length a)%nat ->
  k (prev_after a prev) (pos + List.length a)%nat b = Some r ->
  rep cls k min prev pos (a ++ b) = Some r.
Proof.
  induction a as [|x a IH]; intros b min prev pos r Ha Hb Hm Hk.
  - simpl in *. rewrite Nat.add_0_r in Hk. destruct min; [|lia].
    destruct b as [|y b]; simpl.
    + exact Hk.
    + simpl in Hb. rewrite Hb. exact Hk.
  - simpl in Ha. apply andb_true_iff in Ha. destruct Ha as [Hx Ha].
    simpl. rewrite Hx.
    rewrite (IH b (pred min) (Some x) (S pos) r); auto.
    + simpl in Hm. lia.
    + rewrite prev_after_cons with (prev := prev).
      simpl in Hk. rewrite Nat.add_succ_r in Hk. exact Hk.
Qed.

(** A repetition fails when the continuation fails after every admissible
    run. *)
Lemma rep_none : forall s min prev pos,
  (forall a b, s = a ++ b -> forallb cls a = true -> (min <= List.length a)%nat ->
               k (prev_after a prev) (pos + List.length a)%nat b = None) ->
  rep cls k min prev pos s = None.
Proof.
  induction s as [|x s IH]; intros min prev pos H.
  - simpl. destruct min; [|reflexivity].
    specialize (H [] [] eq_refl eq_refl (Nat.le_refl _)). simpl in H.
    rewrite Nat.add_0_r in H. exact H.
  - simpl.
    assert (Hstop : match min with O => k prev pos (x :: s) | S _ => None end = None).
    { destruct min; [|reflexivity].
      specialize (H [] (x :: s) eq_refl eq_refl (Nat.le_refl _)). simpl in H.
      rewrite Nat.add_0_r in H. exact H. }
    destruct (cls x) eqn:Hx; [|exact Hstop].
    rewrite IH; [exact Hstop|].
    intros a b Hs Ha Hm.
    specialize (H (x :: a) b). simpl in H. rewrite Hx, Ha in H.
    rewrite <- prev_after_cons, Nat.add_succ_r in H.
    apply H; [congruence | reflexivity | lia].
Qed.

(** After the longest run fails, the run one shorter is tried. *)
Lemma rep_backoff : forall a x min prev pos r,
  forallb cls a = true -> cls x = true -> (min <= List.length a)%nat ->
  k (prev_after (a ++ [x]) prev) (pos + S (List.length a))%nat [] = None ->
  k (prev_after a prev) (pos + List.length a)%nat [x] = Some r ->
  rep cls k min prev pos (a ++ [x]) = Some r.
Proof.
  induction a as [|y a IH]; intros x min prev pos r Ha Hx Hm Hfail Hk.
  - simpl in Hm. destruct min; [|lia].
    unfold prev_after in Hfail, Hk. simpl in Hfail, Hk.
    rewrite Nat.add_0_r in Hk.
    replace (pos + 1)%nat with (S pos) in Hfail by lia.
    simpl. rewrite Hx, Hfail. exact Hk.
  - simpl in Ha. apply andb_true_iff in Ha. destruct Ha as [Hy Ha].
    simpl. rewrite Hy.
    rewrite (IH x (pred min) (Some y) (S pos) r); auto.
    + simpl in Hm. lia.
    + rewrite prev_after_cons with (prev := prev).
      simpl in Hfail. rewrite Nat.add_succ_r in Hfail. simpl. exact Hfail.
    + rewrite prev_after_cons with (prev := prev).
      simpl in Hk. rewrite Nat.add_succ_r in Hk. exact Hk.
Qed.

End RepFacts.

Section MatcherFacts.

Variable U : unicode_tables.

Lemma lookup_set_start : forall n k pos c,
  lookup n c <> None -> lookup n (set_start k pos c) <> None.
Proof.
  intros n k pos c H. unfold set_start. simpl.
  destruct (Nat.eqb k n); [discriminate | exact H].
Qed.

Lemma lookup_set_end : forall n k pos c,
  k = n \/ lookup n c <> None -> lookup n (set_end k pos c) <> None.
Proof.
  intros n k pos c H. unfold set_end.
  destruct (lookup k c) as [[st e]|] eqn:E; simpl;
    destruct (Nat.eqb k n) eqn:Ek; try discriminate;
    destruct H as [H|H]; try exact H; subst k; rewrite Nat.eqb_refl in Ek; discriminate.
Qed.

(** A group whose closing parenthesis lies in the pattern is set by every
    successful match. *)
Lemma m_close_sets : forall r n prev pos s c e c',
  In (Close n) r \/ lookup n c <> None ->
  m U r prev pos s c = Some (e, c') -> lookup n c' <> None.
Proof.
  induction r as [|i r IH]; intros n prev pos s c e c' Hn H.
  - simpl in H. inversion H; subst. destruct Hn as [[]|Hn]. exact Hn.
  - assert (Hrest : i <> Close n -> In (Close n) r \/ lookup n c <> None).
    { intros Hi. destruct Hn as [[Hn|Hn]|Hn]; auto; congruence. }
    destruct i as [cls|cls min| | |k|k]; simpl in H.
    + destruct s as [|x s]; [discriminate|]. destruct (cls x); [|discriminate].
      eapply IH; [|exact H]. apply Hrest. discriminate.
    + apply rep_inv in H. destruct H as (a & b & _ & _ & _ & H).
      eapply IH; [|exact H]. apply Hrest. discriminate.
    + destruct pos; [|discriminate].
      eapply IH; [|exact H]. apply Hrest. discriminate.
    + destruct (xorb _ _); [|discriminate].
      eapply IH; [|exact H]. apply Hrest. discriminate.
    + eapply IH; [|exact H].
      destruct Hrest as [Hr|Hr]; [discriminate | left; exact Hr |].
      right. apply lookup_set_start. exact Hr.
    + eapply IH; [|exact H].
      destruct Hn as [[Hn|Hn]|Hn].
      * inversion Hn; subst. right. apply lookup_set_end. left. reflexivity.
      * left. exact Hn.
      * right. apply lookup_set_end. right. exact Hn.
Qed.

Lemma search_from_close_sets : forall r n whole s prev pos mo,
  In (Close n) r ->
  search_from U r whole prev pos s = Some mo -> lookup n (mo_caps mo) <> None.
Proof.
  intros r n whole s. induction s as [|x s IH]; intros prev pos mo Hn H; simpl in H.
  - destruct (m U r prev pos [] []) as [[e c]|] eqn:E; [|discriminate].
    inversion H; subst. simpl. eapply m_close_sets; [left; exact Hn | exact E].
  - destruct (m U r prev pos (x :: s) []) as [[e c]|] eqn:E.
    + inversion H; subst. simpl. eapply m_close_sets; [left; exact Hn | exact E].
    + eapply IH; eauto.
Qed.

Lemma search_group_1 : forall r s mo,
  In (Close 1) r -> re_search U r s = Some mo -> exists g, group mo 1 = Ok g.
Proof.
  intros r s mo Hn H. unfold re_search in H.
  pose proof (search_from_close_sets _ _ _ _ _ _ _ Hn H) as Hl.
  unfold group. destruct (lookup 1 (mo_caps mo)) as [[b e]|]; [|congruence].
  eexists. reflexivity.
Qed.

End MatcherFacts.

(** ** The patterns of the program, as item sequences *)

Section PatternForms.

Variable U : unicode_tables.

Lemma nominal_patterns_eq :
  nominal_patterns U =
  [ [Open 1; Rep (is_digit U) 1; Chr (N.eqb 46); Rep (is_digit U) 1; Close 1];
    [Open 1; Rep (is_digit U) 1; Close 1];
    [Open 1; Rep (is_digit U) 1; Chr (N.eqb 47); Rep (is_digit U) 1; Close 1];
    [Open 1; Rep (is_digit U) 1; Chr is_space; Rep (is_digit U) 1; Chr (N.eqb 47); Rep (is_digit U) 1; Close 1] ].
Proof. reflexivity. Qed.

Lemma tol_patterns_eq :
  tol_patterns U =
  [ [Open 1; Chr (N.eqb 177); Rep is_space 0; Rep (is_digit U) 1; Chr (N.eqb 46); Rep (is_digit U) 1; Close 1];
    [Open 1; Chr (N.eqb 177); Rep is_space 0; Rep (is_digit U) 1; Close 1];
    [Open 1; Chr (one_of [43]); Rep (is_digit U) 1; Chr (N.eqb 46); Rep (is_digit U) 1; Chr (N.eqb 47);
     Chr (N.eqb 45); Rep (is_digit U) 1; Chr (N.eqb 46); Rep (is_digit U) 1; Close 1];
    [Open 1; Chr (one_of [43]); Rep (is_digit U) 1; Chr (N.eqb 47); Chr (N.eqb 45); Rep (is_digit U) 1; Close 1];
    [Open 1; Chr (one_of [43; 45]); Rep (is_digit U) 1; Chr (N.eqb 46); Rep (is_digit U) 1; Close 1];
    [Open 1; Chr (one_of [43; 45]); Rep (is_digit U) 1; Close 1] ].
Proof. reflexivity. Qed.

Lemma balloon_patterns_eq :
  balloon_patterns U =
  [ [Bol; Open 1; Rep (is_digit U) 1; Close 1; Rep is_space 1; Open 2; Rep any_char 1; Close 2];
    [Bol; Chr (N.eqb 40); Open 1; Rep (is_digit U) 1; Close 1; Chr (N.eqb 41); Rep is_space 0;
     Open 2; Rep any_char 1; Close 2];
    [Bol; Open 1; Rep (is_digit U) 1; Close 1; Chr (one_of [46; 45; 58]); Rep is_space 0;
     Open 2; Rep any_char 1; Close 2];
    [Open 1; Rep (is_digit U) 1; Close 1; Rep is_space 0; Rep (outside U) 0;
     Open 2; Rep any_char 1; Close 2] ].
Proof. reflexivity. Qed.

End PatternForms.

(** ** The classifier never raises *)

Section Totality.

Variable U : unicode_tables.

Lemma decimal_fraction_raises : forall i f e,
  decimal_fraction U i f = Raise e -> e = ValueError.
Proof.
  intros i f e. unfold decimal_fraction.
  destruct i, f; try congruence;
    match goal with |- context [digits_value U 0 ?x] => destruct (digits_value U 0 x) end;
    congruence.
Qed.

Lemma py_float_raises : forall s e, py_float U s = Raise e -> e = ValueError.
Proof.
  intros s e. unfold py_float. destruct (split_sign (strip_num s)) as [neg body].
  destruct (split_all 46 body) as [|i [|f [|g l]]]; simpl; try congruence.
  - destruct (decimal_fraction U i []) eqn:E; simpl; [discriminate|].
    intros H. inversion H; subst. eapply decimal_fraction_raises; eauto.
  - destruct (decimal_fraction U i f) eqn:E; simpl; [discriminate|].
    intros H. inversion H; subst. eapply decimal_fraction_raises; eauto.
Qed.

Lemma unpack2_raises : forall l e, unpack2 l = Raise e -> e = ValueError.
Proof.
  intros l e. unfold unpack2. destruct l as [|a [|b [|c l]]]; congruence.
Qed.

Lemma py_div_raises : forall a b e, py_div a b = Raise e -> e = ZeroDivisionError.
Proof.
  intros a b e. unfold py_div. destruct (Qeq_bool b 0); congruence.
Qed.

Ltac bind_step H :=
  match type of H with
  | bind ?x _ = Raise _ =>
    let E := fresh "E" in
    destruct x eqn:E; simpl in H;
    [ | inversion H; subst;
        first [ left; eapply py_float_raises; eassumption
              | left; eapply unpack2_raises; eassumption
              | right; eapply py_div_raises; eassumption ] ]
  end.

Lemma nominal_of_capture_raises : forall v e,
  nominal_of_capture U v = Raise e -> caught e.
Proof.
  intros v e H. unfold nominal_of_capture, caught in *.
  destruct (has_char 47 v).
  - destruct (has_char 32 v).
    + bind_step H. destruct a as [whole frac]. bind_step H. destruct a as [num den].
      do 4 bind_step H. discriminate.
    + bind_step H. destruct a as [num den]. do 2 bind_step H.
      right. eapply py_div_raises; eassumption.
  - left. eapply py_float_raises; eassumption.
Qed.

Lemma nominal_loop_total : forall patterns line,
  Forall (fun p => In (Close 1) p) patterns ->
  exists v, nominal_loop U patterns line = Ok v.
Proof.
  induction patterns as [|p rest IH]; intros line Hp; simpl.
  - eexists. reflexivity.
  - inversion Hp as [|? ? H1 Hrest]; subst.
    destruct (re_search U p line) as [mv|] eqn:Es; [|apply IH; exact Hrest].
    destruct (search_group_1 U _ _ _ H1 Es) as [g Hg]. rewrite Hg. simpl.
    destruct (nominal_of_capture U g) as [q|e] eqn:En.
    + eexists. reflexivity.
    + destruct (nominal_of_capture_raises _ _ En) as [-> | ->]; apply IH; exact Hrest.
Qed.

Lemma nominal_loop_miss : forall patterns line,
  (forall p, In p patterns -> re_search U p line = None) ->
  nominal_loop U patterns line = Ok None.
Proof.
  induction patterns as [|p rest IH]; intros line H; simpl.
  - reflexivity.
  - rewrite (H p) by (left; reflexivity). apply IH.
    intros q Hq. apply H. right. exact Hq.
Qed.

Lemma nominal_loop_continue : forall p rest line m_val val_str e,
  re_search U p line = Some m_val -> group m_val 1 = Ok val_str ->
  nominal_of_capture U val_str = Raise e ->
  nominal_loop U (p :: rest) line = nominal_loop U rest line.
Proof.
  intros p rest line m_val val_str e Hs Hg He. simpl. rewrite Hs, Hg. simpl.
  rewrite He. destruct (nominal_of_capture_raises _ _ He) as [-> | ->]; reflexivity.
Qed.

Lemma tol_loop_total : forall patterns line tol0,
  Forall (fun p => In (Close 1) p) patterns ->
  exists t, tol_loop U patterns line tol0 = Ok t.
Proof.
  induction patterns as [|p rest IH]; intros line tol0 Hp; simpl.
  - eexists. reflexivity.
  - inversion Hp as [|? ? H1 Hrest]; subst.
    destruct (re_search U p line) as [mv|] eqn:Es; [|apply IH; exact Hrest].
    destruct (search_group_1 U _ _ _ H1 Es) as [g Hg]. rewrite Hg. simpl.
    eexists. reflexivity.
Qed.

Lemma tol_loop_miss : forall patterns line tol0,
  (forall p, In p patterns -> re_search U p line = None) ->
  tol_loop U patterns line tol0 = Ok tol0.
Proof.
  induction patterns as [|p rest IH]; intros line tol0 H; simpl.
  - reflexivity.
  - rewrite (H p) by (left; reflexivity). apply IH.
    intros q Hq. apply H. right. exact Hq.
Qed.

Lemma nominal_patterns_closed : Forall (fun p => In (Close 1) p) (nominal_patterns U).
Proof.
  rewrite nominal_patterns_eq.
  repeat (apply Forall_cons; [simpl; repeat (first [left; reflexivity | right])|]).
  apply Forall_nil.
Qed.

Lemma tol_patterns_closed : Forall (fun p => In (Close 1) p) (tol_patterns U).
Proof.
  rewrite tol_patterns_eq.
  repeat (apply Forall_cons; [simpl; repeat (first [left; reflexivity | right])|]).
  apply Forall_nil.
Qed.

(** The shape of every result of [parse_dimension]. *)
Lemma parse_dimension_shape : forall line,
  exists v t,
    nominal_loop U (nominal_patterns U) (strip line) = Ok v /\
    tol_loop U (tol_patterns U) (strip line) (u "±0.10") = Ok t /\
    parse_dimension U line =
    Ok (fst (classify U (strip line) (upper U (strip line))), v, t,
        inspection_type U (upper U (strip line)),
        snd (classify U (strip line) (upper U (strip line)))).
Proof.
  intros line.
  destruct (nominal_loop_total _ (strip line) nominal_patterns_closed) as [v Hv].
  destruct (tol_loop_total _ (strip line) (u "±0.10") tol_patterns_closed) as [t Ht].
  exists v, t. repeat split; auto.
  unfold parse_dimension, bind. rewrite Hv, Ht.
  destruct (classify U (strip line) (upper U (strip line))). reflexivity.
Qed.

End Totality.

(** C8: [parse_dimension] returns a tuple for every input.  When no nominal
    pattern is found the value is absent; when no tolerance pattern is found
    the tolerance is the default; when no rule of the type chain fires the
    type is Length with instrument "DVC"; when no rule of the flag chain
    fires the flag is empty.  Inside the nominal loop a [ValueError] or
    [ZeroDivisionError] of the conversion makes the loop go on with the
    next pattern. *)
Theorem parse_dimension_total : forall U line,
  (exists d v t ty i,
     parse_dimension U line = Ok (d, v, t, ty, i) /\
     ((forall p, In p (nominal_patterns U) -> re_search U p (strip line) = None) ->
      v = None) /\
     ((forall p, In p (tol_patterns U) -> re_search U p (strip line) = None) ->
      t = u "±0.10") /\
     (diameter_rule (strip line) (upper U (strip line)) = false ->
      radius_rule (strip line) (upper U (strip line)) = false ->
      thread_rule U (strip line) (upper U (strip line)) = false ->
      chamfer_rule U (strip line) (upper U (strip line)) = false ->
      angle_rule (strip line) (upper U (strip line)) = false ->
      roughness_rule (strip line) (upper U (strip line)) = false ->
      runout_rule (strip line) (upper U (strip line)) = false ->
      d = u "Length" /\ i = u "DVC") /\
     (critical_rule U (upper U (strip line)) = false ->
      spec_rule U (upper U (strip line)) = false ->
      key_rule (upper U (strip line)) = false ->
      ty = u "")) /\
  (forall p rest m_val val_str e,
     re_search U p (strip line) = Some m_val ->
     group m_val 1 = Ok val_str ->
     nominal_of_capture U val_str = Raise e ->
     nominal_loop U (p :: rest) (strip line) = nominal_loop U rest (strip line)).
Proof.
  intros U line. split.
  - destruct (parse_dimension_shape U line) as (v & t & Hv & Ht & Hp).
    do 5 eexists. split; [exact Hp|].
    split; [|split; [|split]].
    + intros H. rewrite nominal_loop_miss in Hv by exact H. congruence.
    + intros H. rewrite tol_loop_miss in Ht by exact H. congruence.
    + intros H1 H2 H3 H4 H5 H6 H7. unfold classify.
      rewrite H1, H2, H3, H4, H5, H6, H7. split; reflexivity.
    + intros H1 H2 H3. unfold inspection_type. rewrite H1, H2, H3. reflexivity.
  - intros p rest m_val val_str e. apply nominal_loop_continue.
Qed.

(** ** Character classes *)

Lemma between_false_below : forall lo hi c, c < lo -> between lo hi c = false.
Proof.
  intros lo hi c H. unfold between. apply andb_false_iff. left.
  apply N.leb_gt. exact H.
Qed.

Lemma between_false_above : forall lo hi c, hi < c -> between lo hi c = false.
Proof.
  intros lo hi c H. unfold between. apply andb_false_iff. right.
  apply N.leb_gt. exact H.
Qed.

Lemma between_true : forall lo hi c, between lo hi c = true -> lo <= c <= hi.
Proof.
  intros lo hi c H. unfold between in H. apply andb_true_iff in H.
  destruct H as [H1 H2]. apply N.leb_le in H1. apply N.leb_le in H2. lia.
Qed.

Ltac not_in_class :=
  repeat (apply orb_false_intro);
  first [ apply between_false_below; lia
        | apply between_false_above; lia
        | apply N.eqb_neq; lia ].

Section ClassFacts.

Variable U : unicode_tables.

Lemma latin1_digit : forall c,
  c < 256 -> is_digit U c = true -> 48 <= c <= 57.
Proof.
  intros c Hc H. unfold is_digit, decimal in H.
  apply N.ltb_lt in Hc. rewrite Hc in H.
  destruct (between 48 57 c) eqn:E; [|discriminate].
  apply between_true. exact E.
Qed.

Lemma digit_not_space : forall c, is_digit U c = true -> is_space c = false.
Proof.
  intros c H. destruct (N.ltb_spec c 256) as [Hc|Hc].
  - pose proof (latin1_digit c Hc H) as Hr. unfold is_space. not_in_class.
  - destruct (is_space c) eqn:E; [|reflexivity].
    unfold is_digit, decimal in H.
    apply N.ltb_ge in Hc. rewrite Hc in H.
    rewrite (ucd_space_not_decimal U c E) in H. discriminate.
Qed.

Lemma digit_ge_48 : forall c, is_digit U c = true -> 48 <= c.
Proof.
  intros c H. destruct (N.ltb_spec c 256) as [Hc|Hc].
  - pose proof (latin1_digit c Hc H). lia.
  - lia.
Qed.

Lemma num_space_is_space : forall c, is_num_space c = true -> is_space c = true.
Proof.
  intros c H. unfold is_num_space in H. destruct (c <? 128); [|exact H].
  unfold is_space. apply orb_true_iff in H. destruct H as [H|H].
  - rewrite H. reflexivity.
  - apply N.eqb_eq in H. subst c. reflexivity.
Qed.

Lemma digit_not_num_space : forall c, is_digit U c = true -> is_num_space c = false.
Proof.
  intros c H. destruct (is_num_space c) eqn:E; [|reflexivity].
  apply num_space_is_space in E. rewrite (digit_not_space c H) in E. discriminate.
Qed.

Lemma space_not_digit : forall c, is_space c = true -> is_digit U c = false.
Proof.
  intros c H. destruct (is_digit U c) eqn:E; [|reflexivity].
  rewrite (digit_not_space c E) in H. discriminate.
Qed.

End ClassFacts.

(** ** The item number *)

Section ItemNumber.

Variable U : unicode_tables.

Lemma lookup_set_start_other : forall n k pos c,
  k <> n -> lookup n (set_start k pos c) = lookup n c.
Proof.
  intros n k pos c H. unfold set_start. simpl.
  apply Nat.eqb_neq in H. rewrite H. reflexivity.
Qed.

Lemma lookup_set_end_other : forall n k pos c,
  k <> n -> lookup n (set_end k pos c) = lookup n c.
Proof.
  intros n k pos c H. unfold set_end. apply Nat.eqb_neq in H.
  destruct (lookup k c) as [[st e]|]; simpl; rewrite H; reflexivity.
Qed.

(** Matching the rest of a pattern leaves alone the groups it does not
    mention. *)
Lemma m_frame : forall r n prev pos s c e c',
  ~ touches n r -> m U r prev pos s c = Some (e, c') -> lookup n c' = lookup n c.
Proof.
  induction r as [|i r IH]; intros n prev pos s c e c' Hn H.
  - simpl in H. inversion H; subst. reflexivity.
  - assert (Hr : ~ touches n r).
    { intros [Ht|Ht]; apply Hn; [left | right]; right; exact Ht. }
    destruct i as [cls|cls min| | |k|k]; simpl in H.
    + destruct s as [|x s]; [discriminate|]. destruct (cls x); [|discriminate].
      eapply IH; eauto.
    + apply rep_inv in H. destruct H as (a & b & _ & _ & _ & H). eapply IH; eauto.
    + destruct pos; [|discriminate]. eapply IH; eauto.
    + destruct (xorb _ _); [|discriminate]. eapply IH; eauto.
    + rewrite (IH _ _ _ _ _ _ _ Hr H). apply lookup_set_start_other.
      intros ->. apply Hn. left. left. reflexivity.
    + rewrite (IH _ _ _ _ _ _ _ Hr H). apply lookup_set_end_other.
      intros ->. apply Hn. right. left. reflexivity.
Qed.

(** The group [(\d+)] spans a non-empty run that starts with a digit. *)
Lemma m_digits_group : forall r prev pos s c e c',
  ~ touches 1 r ->
  m U (Open 1 :: Rep (is_digit U) 1 :: Close 1 :: r) prev pos s c = Some (e, c') ->
  exists x s' i, s = x :: s' /\ is_digit U x = true /\
                 lookup 1 c' = Some (pos, (pos + S i)%nat).
Proof.
  intros r prev pos s c e c' Hr H. simpl in H.
  apply rep_inv in H. destruct H as (a & b & -> & Ha & Hm & H).
  simpl in H. rewrite (m_frame _ _ _ _ _ _ _ _ Hr H).
  destruct a as [|x a]; [simpl in Hm; lia|].
  simpl in Ha. apply andb_true_iff in Ha. destruct Ha as [Hx _].
  exists x, (a ++ b), (List.length a). repeat split; auto.
Qed.

Lemma substring_head : forall (x : char) s i, substring (x :: s) 0 (S i) = x :: firstn i s.
Proof. reflexivity. Qed.

Lemma py_int_raises : forall s e, py_int U s = Raise e -> e = ValueError.
Proof.
  intros s e. unfold py_int. destruct (split_sign (strip_num s)) as [neg body].
  destruct body; [congruence|]. destruct (digits_value U 0 _); [|congruence].
  destruct (_ <=? _)%nat; congruence.
Qed.

Lemma rstrip_head : forall x s,
  is_space x = false -> exists s', rstrip (x :: s) = x :: s'.
Proof.
  intros x s Hx. simpl. destruct (rstrip s).
  - rewrite Hx. eexists. reflexivity.
  - eexists. reflexivity.
Qed.

Lemma rstrip_num_head : forall x s,
  is_num_space x = false -> exists s', rstrip_num (x :: s) = x :: s'.
Proof.
  intros x s Hx. simpl. destruct (rstrip_num s).
  - rewrite Hx. eexists. reflexivity.
  - eexists. reflexivity.
Qed.

(** [int] of a text that starts with a digit is not negative. *)
Lemma py_int_digit_head : forall x s z,
  is_digit U x = true -> py_int U (x :: s) = Ok z -> (0 <= z)%Z.
Proof.
  intros x s z Hx H. unfold py_int, strip_num in H.
  pose proof (digit_not_num_space U x Hx) as Hs.
  pose proof (digit_ge_48 U x Hx) as Hge.
  assert (Hl : lstrip_num (x :: s) = x :: s) by (simpl; rewrite Hs; reflexivity).
  rewrite Hl in H.
  destruct (rstrip_num_head x s Hs) as [s' Hr]. rewrite Hr in H. unfold split_sign in H.
  replace (x =? 43) with false in H by (symmetry; apply N.eqb_neq; lia).
  replace (x =? 45) with false in H by (symmetry; apply N.eqb_neq; lia).
  destruct (digits_value U 0 (x :: s')); [|discriminate].
  destruct (_ <=? _)%nat; [|discriminate].
  inversion H. lia.
Qed.

Lemma group_raises : forall mo n e, group mo n = Raise e -> e = IndexError.
Proof.
  intros mo n e. unfold group. destruct n; [discriminate|].
  destruct (lookup (S n) (mo_caps mo)) as [[b e']|]; congruence.
Qed.

End ItemNumber.

(** ** The loops over patterns, lines, strategies and pages *)

Section Loops.

Variable U : unicode_tables.

Lemma balloon_try_raises : forall mt n e,
  balloon_try U mt n = Raise e -> e = ValueError \/ e = IndexError.
Proof.
  intros mt n e H. unfold balloon_try, bind in H.
  destruct (group mt 1) as [g1|e1] eqn:E1;
    [|inversion H; subst; right; eapply group_raises; eauto].
  destruct (py_int U g1) as [z|e2] eqn:E2;
    [|inversion H; subst; left; eapply py_int_raises; eauto].
  destruct (group mt 2) as [g2|e3] eqn:E3;
    [|inversion H; subst; right; eapply group_raises; eauto].
  destruct (_ && _); [|discriminate].
  destruct (parse_dimension_shape U (strip g2)) as (v & t & _ & _ & Hp).
  rewrite Hp in H. discriminate.
Qed.

Lemma balloon_try_row : forall mt n r,
  balloon_try U mt n = Ok (Some r) ->
  exists g1, group mt 1 = Ok g1 /\ py_int U g1 = Ok (sr_no r).
Proof.
  intros mt n r H. unfold balloon_try, bind in H.
  destruct (group mt 1) as [g1|e1]; [|discriminate].
  destruct (py_int U g1) as [z|e2] eqn:Ez; [|discriminate].
  destruct (group mt 2) as [g2|e3]; [|discriminate].
  destruct (_ && _); [|discriminate].
  destruct (parse_dimension U (strip g2)) as [[[[[d v] t] ty] i]|]; [|discriminate].
  inversion H; subst. simpl. exists g1. split; [reflexivity | exact Ez].
Qed.

Lemma balloon_loop_total : forall patterns line n,
  exists r, balloon_loop U patterns line n = Ok r.
Proof.
  induction patterns as [|p rest IH]; intros line n; simpl.
  - eexists. reflexivity.
  - destruct (re_match U p line) as [mt|]; [|apply IH].
    destruct (balloon_try U mt n) as [[r|]|e] eqn:E.
    + eexists. reflexivity.
    + apply IH.
    + destruct (balloon_try_raises _ _ _ E) as [-> | ->]; apply IH.
Qed.

Lemma balloon_loop_nonneg : forall patterns line n r,
  Forall (digit_headed U) patterns ->
  balloon_loop U patterns line n = Ok (Some r) -> (0 <= sr_no r)%Z.
Proof.
  induction patterns as [|p rest IH]; intros line n r Hp H; simpl in H.
  - discriminate.
  - inversion Hp as [|? ? H1 Hrest]; subst.
    destruct (re_match U p line) as [mt|] eqn:Em; [|eapply IH; eauto].
    destruct (balloon_try U mt n) as [[r'|]|e] eqn:E.
    + inversion H; subst r'.
      destruct (balloon_try_row _ _ _ E) as (g1 & Hg & Hi).
      destruct (H1 _ _ Em) as (x & g & Hg' & Hx).
      rewrite Hg in Hg'. inversion Hg'; subst g1.
      eapply py_int_digit_head; eauto.
    + eapply IH; eauto.
    + destruct (balloon_try_raises _ _ _ E) as [-> | ->]; eapply IH; eauto.
Qed.

Ltac untouched :=
  let H := fresh in
  intros [H|H]; simpl in H;
  repeat (destruct H as [H|H]; [discriminate|]); exact H.

Lemma balloon_patterns_digit_headed : Forall (digit_headed U) (balloon_patterns U).
Proof.
  rewrite balloon_patterns_eq. repeat constructor; intros line mt H; unfold re_match in H.
  - change (m U (Bol :: ?r) None 0 line []) with (m U r None 0 line []) in H.
    destruct (m U _ None 0 line []) as [[e c]|] eqn:E; [|discriminate].
    apply m_digits_group in E; [|untouched].
    destruct E as (x & s' & i & -> & Hx & Hl). inversion H; subst.
    exists x, (firstn i s'). split; [|exact Hx].
    unfold group. simpl mo_caps. rewrite Hl. reflexivity.
  - destruct line as [|y s]; [discriminate|].
    change (m U (Bol :: Chr ?f :: ?r) None 0 (y :: s) [])
      with (if f y then m U r (Some y) 1 s [] else None) in H.
    destruct (40 =? y); [|discriminate].
    destruct (m U _ (Some y) 1 s []) as [[e c]|] eqn:E; [|discriminate].
    apply m_digits_group in E; [|untouched].
    destruct E as (x & s' & i & -> & Hx & Hl). inversion H; subst.
    exists x, (firstn i s'). split; [|exact Hx].
    unfold group. simpl mo_caps. rewrite Hl.
    unfold substring. simpl mo_string.
    replace (1 + S i - 1)%nat with (S i) by lia. reflexivity.
  - change (m U (Bol :: ?r) None 0 line []) with (m U r None 0 line []) in H.
    destruct (m U _ None 0 line []) as [[e c]|] eqn:E; [|discriminate].
    apply m_digits_group in E; [|untouched].
    destruct E as (x & s' & i & -> & Hx & Hl). inversion H; subst.
    exists x, (firstn i s'). split; [|exact Hx].
    unfold group. simpl mo_caps. rewrite Hl. reflexivity.
  - destruct (m U _ None 0 line []) as [[e c]|] eqn:E; [|discriminate].
    apply m_digits_group in E; [|untouched].
    destruct E as (x & s' & i & -> & Hx & Hl). inversion H; subst.
    exists x, (firstn i s'). split; [|exact Hx].
    unfold group. simpl mo_caps. rewrite Hl. reflexivity.
Qed.

(** One line appends at most one row, and the rows do not depend on what
    [data] already holds. *)
Lemma process_line_app : forall data n line,
  exists rs, process_line U [] n line = Ok rs /\
             process_line U data n line = Ok (data ++ rs) /\
             (forall r, In r rs -> (0 <= sr_no r)%Z).
Proof.
  intros data n line. unfold process_line.
  destruct (strip line) as [|c l] eqn:El.
  - exists []. rewrite app_nil_r. repeat split; auto. intros r [].
  - destruct (balloon_loop_total (balloon_patterns U) (c :: l) n) as [r Hr].
    rewrite Hr. simpl. destruct r as [x|].
    + exists [x]. repeat split; auto. intros r [<-|[]].
      eapply balloon_loop_nonneg; [apply balloon_patterns_digit_headed | exact Hr].
    + exists []. rewrite app_nil_r. repeat split; auto. intros r [].
Qed.

Lemma process_lines_app : forall ls data n,
  exists rs, process_lines U [] n ls = Ok rs /\
             process_lines U data n ls = Ok (data ++ rs) /\
             (forall r, In r rs -> (0 <= sr_no r)%Z).
Proof.
  induction ls as [|line ls IH]; intros data n; simpl.
  - exists []. rewrite app_nil_r. repeat split; auto. intros r [].
  - destruct (process_line_app data n line) as (r1 & H1 & H1' & Hn1).
    rewrite H1, H1'. simpl.
    destruct (IH r1 n) as (r2 & H2 & H2' & Hn2).
    destruct (IH (data ++ r1) n) as (r3 & H3 & H3' & _).
    rewrite H2 in H3. inversion H3; subst r3.
    exists (r1 ++ r2). rewrite H2', H3', app_assoc. repeat split; auto.
    intros r Hr. apply in_app_or in Hr. destruct Hr; auto.
Qed.

Lemma process_lines_records : forall method_name p data n,
  process_lines U data n (lines_of method_name p) =
  Ok (data ++ records U method_name n p).
Proof.
  intros method_name p data n. unfold records.
  destruct (process_lines_app (lines_of method_name p) data n) as (rs & H0 & H & _).
  rewrite H0, H. reflexivity.
Qed.

Lemma records_nonneg : forall method_name p n r,
  In r (records U method_name n p) -> (0 <= sr_no r)%Z.
Proof.
  intros method_name p n r. unfold records.
  destruct (process_lines_app (lines_of method_name p) [] n) as (rs & H0 & _ & Hn).
  rewrite H0. apply Hn.
Qed.

Lemma methods_loop_fresh : forall methods p n,
  methods_loop U methods p n [] = Ok (first_productive U methods n p).
Proof.
  induction methods as [|mth rest IH]; intros p n; cbn [methods_loop first_productive].
  - reflexivity.
  - rewrite process_lines_records. cbn [bind app].
    destruct (records U mth n p); [apply IH | reflexivity].
Qed.

Lemma methods_loop_found : forall p n x data,
  methods_loop U text_methods p n (x :: data) =
  Ok ((x :: data) ++ records U text n p).
Proof.
  intros. unfold text_methods. cbn [methods_loop].
  rewrite process_lines_records. reflexivity.
Qed.

Lemma pages_loop_commit : forall doc n data,
  pages_loop U doc n data = Ok (data ++ commit_per_page U doc n (nonempty data)).
Proof.
  induction doc as [|p rest IH]; intros n data.
  - simpl. rewrite app_nil_r. reflexivity.
  - change (pages_loop U (p :: rest) n data)
      with (bind (methods_loop U text_methods p n data)
                 (fun data' => pages_loop U rest (S n) data')).
    destruct data as [|x data].
    + rewrite methods_loop_fresh. unfold bind. rewrite IH.
      cbn [commit_per_page nonempty orb app].
      destruct (first_productive U text_methods n p); reflexivity.
    + rewrite methods_loop_found. unfold bind. rewrite IH.
      cbn [commit_per_page nonempty orb].
      rewrite <- app_assoc. reflexivity.
Qed.

Lemma extract_is_commit_per_page : forall doc,
  extract_dimensions_from_pdf U doc = Ok (commit_per_page U doc 1 false).
Proof.
  intros doc. unfold extract_dimensions_from_pdf.
  rewrite pages_loop_commit. reflexivity.
Qed.

Lemma first_productive_nonneg : forall methods p n r,
  In r (first_productive U methods n p) -> (0 <= sr_no r)%Z.
Proof.
  induction methods as [|mth rest IH]; intros p n r H; cbn [first_productive] in H.
  - destruct H.
  - destruct (records U mth n p) eqn:E.
    + eapply IH; eauto.
    + rewrite <- E in H. eapply records_nonneg; eauto.
Qed.

Lemma commit_per_page_nonneg : forall doc n found r,
  In r (commit_per_page U doc n found) -> (0 <= sr_no r)%Z.
Proof.
  induction doc as [|p rest IH]; intros n found r H; cbn [commit_per_page] in H.
  - destruct H.
  - cbv zeta in H. apply in_app_or in H. destruct H as [H|H].
    + destruct found.
      * eapply records_nonneg; eauto.
      * eapply first_productive_nonneg; eauto.
    + eapply IH; eauto.
Qed.

End Loops.

(** ** The default tolerance *)

(** C1: with the default tolerance set to "±0.20" in the sidebar, a line
    without a tolerance still gets the tolerance "±0.10": the setting does
    not reach the classifier, and no setting changes the rows. *)
Theorem default_tolerance_ignored : forall U,
  run U {| show_preview := true; default_tolerance := u "±0.20";
           include_page_ref := true |}
        [text_page "1 Overall length"] =
    Ok [mk_row 1 "Length" None "±0.10" "" "DVC" "Page 1"] /\
  (forall cfg cfg' doc, run U cfg doc = run U cfg' doc).
Proof.
  intros U. split.
  - vm_compute. reflexivity.
  - intros cfg cfg' doc. reflexivity.
Qed.

(** ** Diameter markers *)

Lemma contains_strip : forall c mid d s,
  is_space c = false -> is_space d = false ->
  contains (c :: mid ++ [d]) s = true -> contains (c :: mid ++ [d]) (strip s) = true.
Proof.
  intros c mid d s Hc Hd H. apply contains_inv in H. destruct H as (pre & post & ->).
  rewrite strip_middle by assumption. apply contains_app.
Qed.

Lemma contains_strip_one : forall c s,
  is_space c = false -> contains [c] s = true -> contains [c] (strip s) = true.
Proof.
  intros c s Hc H. apply contains_inv in H. destruct H as (pre & post & ->).
  rewrite strip_one by assumption. apply contains_app.
Qed.

(** C5: a text that contains "Ø", "DIA", "DIAM" or "DIAMETER" (the last one
    in any letter case) is classified as Diameter with instrument "DVC",
    whatever else it contains, a degree sign included. *)
Theorem diameter_marker_priority : forall U text,
  contains (u "Ø") text || contains (u "DIA") text || contains (u "DIAM") text
  || contains (u "DIAMETER") text
  || contains (u "DIAMETER") (upper U (strip text)) = true ->
  exists v t ty, parse_dimension U text = Ok (u "Diameter", v, t, ty, u "DVC").
Proof.
  intros U text H.
  destruct (parse_dimension_shape U text) as (v & t & _ & _ & Hp).
  assert (Hr : diameter_rule (strip text) (upper U (strip text)) = true).
  { unfold diameter_rule, any_in. cbn [existsb].
    assert (Hdia : contains (u "DIA") text = true ->
                   contains (u "DIA") (strip text) = true).
    { apply (contains_strip 68 [73] 65); reflexivity. }
    apply orb_true_iff in H. destruct H as [H|H];
      [apply orb_true_iff in H; destruct H as [H|H];
       [apply orb_true_iff in H; destruct H as [H|H];
        [apply orb_true_iff in H; destruct H as [H|H]|]|]|].
    - apply (contains_strip_one 216) in H; [|reflexivity].
      apply orb_true_iff. left. apply orb_true_iff. left. exact H.
    - rewrite (Hdia H). rewrite orb_true_r. reflexivity.
    - apply (contains_prefix (u "DIA") (u "M")) in H.
      rewrite (Hdia H). rewrite orb_true_r. reflexivity.
    - apply (contains_prefix (u "DIA") (u "METER")) in H.
      rewrite (Hdia H). rewrite orb_true_r. reflexivity.
    - rewrite H. apply orb_true_r. }
  exists v, t, (inspection_type U (upper U (strip text))).
  rewrite Hp. unfold classify. rewrite Hr. reflexivity.
Qed.

Lemma diameter_marker_priority_witness :
  exists v t ty,
    parse_dimension latin1_only (u "Ø12.0 x 45°") = Ok (u "Diameter", v, t, ty, u "DVC").
Proof.
  apply (diameter_marker_priority latin1_only (u "Ø12.0 x 45°")).
  vm_compute. reflexivity.
Defined.

(** ** The extraction policy *)

Section PerPage.

Variable U : unicode_tables.

Lemma first_productive_cases : forall methods n p,
  first_productive U methods n p = [] \/
  exists mth, first_productive U methods n p = records U mth n p.
Proof.
  induction methods as [|mth rest IH]; intros n p; cbn [first_productive].
  - left. reflexivity.
  - destruct (records U mth n p) eqn:E; [apply IH|].
    right. exists mth. symmetry. exact E.
Qed.

Lemma first_productive_text : forall n p,
  records U text n p <> [] ->
  first_productive U text_methods n p = records U text n p.
Proof.
  intros n p H. unfold text_methods. cbn [first_productive].
  destruct (records U text n p); [congruence | reflexivity].
Qed.

Lemma commit_per_page_pages : forall doc n found,
  exists parts,
    commit_per_page U doc n found = List.concat parts /\
    List.length parts = List.length doc /\
    forall k p part, nth_error doc k = Some p -> nth_error parts k = Some part ->
      (part = [] \/ exists mth, part = records U mth (n + k) p) /\
      (records U text (n + k) p <> [] -> part = records U text (n + k) p) /\
      (found = false ->
       (forall j part', (j < k)%nat -> nth_error parts j = Some part' -> part' = []) ->
       part = first_productive U text_methods (n + k) p).
Proof.
  induction doc as [|p rest IH]; intros n found; cbn [commit_per_page].
  - exists []. repeat split; auto; destruct k; discriminate.
  - cbv zeta.
    remember (if found then records U text n p
              else first_productive U text_methods n p) as data eqn:Ed.
    destruct (IH (S n) (found || match data with [] => false | _ => true end))
      as (parts & Hc & Hlen & Hp).
    exists (data :: parts). split; [cbn [List.concat]; rewrite Hc; reflexivity|].
    split; [simpl; lia|].
    intros k q part Hq Hk. destruct k as [|k].
    + simpl in Hq, Hk. inversion Hq; subst q. inversion Hk; subst part.
      rewrite Nat.add_0_r. split; [|split].
      * destruct found; [right; exists text; exact Ed|].
        rewrite Ed. apply first_productive_cases.
      * intros Ht. destruct found; [exact Ed|].
        rewrite Ed. apply first_productive_text. exact Ht.
      * intros Hf _. rewrite Ed, Hf. reflexivity.
    + simpl in Hq, Hk. rewrite Nat.add_succ_r.
      destruct (Hp k q part Hq Hk) as (H1 & H2 & H3).
      split; [exact H1|]. split; [exact H2|].
      intros Hf Hbefore.
      assert (H0 : data = []) by (apply (Hbefore 0%nat); [lia | reflexivity]).
      apply H3.
      * rewrite Hf, H0. reflexivity.
      * intros j part' Hj Hn. apply (Hbefore (S j)); [lia | exact Hn].
Qed.

End PerPage.

(** C2, as the program does it by design: the strategy is chosen page by
    page, not once for the document.  The result is the rows of the pages in
    page order; the rows of one page come from one strategy; a page whose
    plain text yields rows contributes those; and as long as no earlier
    page has contributed a row, a page contributes the rows of the first of
    plain text, dict/span, blocks that yields any on it. *)
Theorem extraction_commits_per_page : forall U doc,
  exists parts,
    extract_dimensions_from_pdf U doc = Ok (List.concat parts) /\
    List.length parts = List.length doc /\
    forall k p part, nth_error doc k = Some p -> nth_error parts k = Some part ->
      (part = [] \/ exists mth, part = records U mth (S k) p) /\
      (records U text (S k) p <> [] -> part = records U text (S k) p) /\
      ((forall j part', (j < k)%nat -> nth_error parts j = Some part' -> part' = []) ->
       part = first_productive U text_methods (S k) p).
Proof.
  intros U doc.
  destruct (commit_per_page_pages U doc 1 false) as (parts & Hc & Hlen & Hp).
  exists parts. split; [rewrite extract_is_commit_per_page, Hc; reflexivity|].
  split; [exact Hlen|].
  intros k p part Hk Hpart. destruct (Hp k p part Hk Hpart) as (H1 & H2 & H3).
  split; [exact H1|]. split; [exact H2|]. intros Hb. apply H3; [reflexivity | exact Hb].
Qed.

(** C2 fails as stated: on a document whose first page yields a row only
    through its spans and whose second page yields a row through its plain
    text, the result holds both rows, while running plain text over all
    pages first gives the second row alone. *)
Lemma extraction_mixes_strategies :
  extract_dimensions_from_pdf latin1_only mixed_doc =
    Ok (records latin1_only dict 1 (span_page "1 ab") ++
        records latin1_only text 2 (text_page "2 cd")) /\
  records latin1_only dict 1 (span_page "1 ab") =
    [mk_row 1 "Length" None "±0.10" "" "DVC" "Page 1"] /\
  records latin1_only text 1 (span_page "1 ab") = [] /\
  records latin1_only text 2 (text_page "2 cd") =
    [mk_row 2 "Length" None "±0.10" "" "DVC" "Page 2"] /\
  commit_per_document latin1_only text_methods mixed_doc =
    [mk_row 2 "Length" None "±0.10" "" "DVC" "Page 2"] /\
  extract_dimensions_from_pdf latin1_only mixed_doc <>
    Ok (commit_per_document latin1_only text_methods mixed_doc).
Proof.
  repeat split; try (vm_compute; reflexivity).
  vm_compute. discriminate.
Qed.

(** ** Item numbers *)

(** C7, as the program does it: the item number of every row is a
    non-negative integer. *)
Theorem item_number_nonnegative : forall U doc data r,
  extract_dimensions_from_pdf U doc = Ok data -> In r data -> (0 <= sr_no r)%Z.
Proof.
  intros U doc data r H Hr. rewrite extract_is_commit_per_page in H.
  inversion H; subst. eapply commit_per_page_nonneg; eauto.
Qed.

Lemma item_number_nonnegative_witness :
  (0 <= sr_no (mk_row 7 "Length" None "±0.10" "" "DVC" "Page 1"))%Z.
Proof.
  apply (item_number_nonnegative latin1_only [text_page "7 ab"]
           [mk_row 7 "Length" None "±0.10" "" "DVC" "Page 1"]).
  - vm_compute. reflexivity.
  - left. reflexivity.
Defined.

(** C7 fails as stated: the line "0 ab" yields a row with item number 0. *)
Lemma item_number_zero :
  extract_dimensions_from_pdf latin1_only [text_page "0 ab"] =
    Ok [mk_row 0 "Length" None "±0.10" "" "DVC" "Page 1"] /\
  ~ (0 < sr_no (mk_row 0 "Length" None "±0.10" "" "DVC" "Page 1"))%Z.
Proof.
  split.
  - vm_compute. reflexivity.
  - simpl. lia.
Qed.

(** ** Tolerances *)

Section Search.

Variable U : unicode_tables.

(** A search passes over the positions at which the first character of the
    pattern cannot match. *)
Lemma search_skip : forall f r n whole pre rest prev pos,
  forallb (fun c => negb (f c)) pre = true ->
  search_from U (Open n :: Chr f :: r) whole prev pos (pre ++ rest) =
  search_from U (Open n :: Chr f :: r) whole (prev_after pre prev)
    (pos + List.length pre)%nat (rest).
Proof.
  intros f r n whole pre. induction pre as [|c pre IH]; intros rest prev pos H.
  - simpl. rewrite Nat.add_0_r. reflexivity.
  - simpl in H. apply andb_true_iff in H. destruct H as [Hc H].
    apply negb_true_iff in Hc.
    change ((c :: pre) ++ rest) with (c :: (pre ++ rest)).
    cbn [search_from m]. rewrite Hc.
    rewrite IH by exact H. rewrite <- prev_after_cons with (prev := prev).
    simpl List.length. rewrite Nat.add_succ_r. reflexivity.
Qed.

End Search.

Section Tolerance.

Variable U : unicode_tables.

Lemma substring_app : forall (a b c : str),
  substring (a ++ b ++ c) (List.length a) (List.length b + List.length a) = b.
Proof.
  intros a b c. unfold substring.
  rewrite skipn_app, skipn_all, Nat.sub_diag. simpl.
  replace (List.length b + List.length a - List.length a)%nat with (List.length b) by lia.
  rewrite firstn_app, firstn_all, Nat.sub_diag. simpl. apply app_nil_r.
Qed.

Lemma has_char_lstrip : forall c s, has_char c s = false -> has_char c (lstrip s) = false.
Proof.
  intros c s. induction s as [|x s IH]; intros H; simpl.
  - reflexivity.
  - destruct (is_space x); [|exact H].
    simpl in H. apply orb_false_iff in H. apply IH. tauto.
Qed.

Lemma head_outside_rstrip : forall cls s, head_outside cls s -> head_outside cls (rstrip s).
Proof.
  intros cls s H. destruct s as [|x s]; simpl.
  - exact I.
  - destruct (rstrip s).
    + destruct (is_space x); simpl; auto.
    + exact H.
Qed.

(** The first tolerance pattern on "±0.05" followed by something that is
    not a digit. *)
Lemma m_plus_minus_decimal : forall prev pos post,
  head_outside (is_digit U) post ->
  m U [Open 1; Chr (N.eqb 177); Rep is_space 0; Rep (is_digit U) 1; Chr (N.eqb 46);
       Rep (is_digit U) 1; Close 1] prev pos (u "±0.05" ++ post) [] =
  Some ((5 + pos)%nat, [(1%nat, (pos, (5 + pos)%nat)); (1%nat, (pos, pos))]).
Proof.
  intros prev pos post H.
  destruct post as [|y post]; simpl in H |- *.
  - reflexivity.
  - rewrite H. reflexivity.
Qed.

Lemma existsb_false_forallb : forall (f : char -> bool) s,
  existsb f s = false -> forallb (fun c => negb (f c)) s = true.
Proof.
  intros f s. induction s as [|x s IH]; simpl; intros H.
  - reflexivity.
  - apply orb_false_iff in H. destruct H as [Hx H].
    rewrite Hx, IH by exact H. reflexivity.
Qed.

Lemma search_plus_minus : forall pre post,
  has_char 177 pre = false -> head_outside (is_digit U) post ->
  exists mo,
    re_search U [Open 1; Chr (N.eqb 177); Rep is_space 0; Rep (is_digit U) 1;
                 Chr (N.eqb 46); Rep (is_digit U) 1; Close 1]
              (pre ++ u "±0.05" ++ post) = Some mo /\
    group mo 1 = Ok (u "±0.05").
Proof.
  intros pre post Hpre Hpost. unfold re_search.
  rewrite search_skip by (apply existsb_false_forallb; exact Hpre).
  remember (pre ++ u "±0.05" ++ post) as whole eqn:Hw.
  change (u "±0.05" ++ post) with (177 :: ([48; 46; 48; 53] ++ post)).
  cbn [search_from].
  change (177 :: ([48; 46; 48; 53] ++ post)) with (u "±0.05" ++ post).
  rewrite m_plus_minus_decimal by exact Hpost.
  eexists. split; [reflexivity|].
  unfold group. cbn [mo_caps lookup Nat.eqb mo_string]. subst whole.
  simpl plus.
  replace (S (S (S (S (S (List.length pre))))))
    with (List.length (u "±0.05") + List.length pre)%nat by reflexivity.
  rewrite substring_app. reflexivity.
Qed.

End Tolerance.

(** C6, as the program does it: when the text contains "±0.05" with no "±"
    before it and no digit right after it, the tolerance is "±0.05". *)
Theorem tolerance_plus_minus_005 : forall U pre post,
  has_char 177 pre = false ->
  head_outside (is_digit U) post ->
  exists d v ty i,
    parse_dimension U (pre ++ u "±0.05" ++ post) = Ok (d, v, u "±0.05", ty, i).
Proof.
  intros U pre post Hpre Hpost.
  destruct (parse_dimension_shape U (pre ++ u "±0.05" ++ post)) as (v & t & _ & Ht & Hp).
  assert (Hs : strip (pre ++ u "±0.05" ++ post) = lstrip pre ++ u "±0.05" ++ rstrip post).
  { apply (strip_middle pre 177 [48; 46; 48] 53 post); reflexivity. }
  rewrite Hs in Ht.
  destruct (search_plus_minus U (lstrip pre) (rstrip post)) as (mo & Hmo & Hg).
  { apply has_char_lstrip. exact Hpre. }
  { apply head_outside_rstrip. exact Hpost. }
  rewrite tol_patterns_eq in Ht. cbn [tol_loop] in Ht.
  rewrite Hmo, Hg in Ht. simpl in Ht. inversion Ht; subst t.
  do 4 eexists. exact Hp.
Qed.

Lemma tolerance_plus_minus_005_witness :
  exists d v ty i,
    parse_dimension latin1_only (u "Ø12.0 ±0.05 S") = Ok (d, v, u "±0.05", ty, i).
Proof.
  apply (tolerance_plus_minus_005 latin1_only (u "Ø12.0 ") (u " S")).
  - reflexivity.
  - reflexivity.
Defined.

(** C6 fails as stated: an earlier "±" tolerance wins, and digits after
    "±0.05" belong to the tolerance. *)
Lemma tolerance_not_always_005 :
  contains (u "±0.05") (u "±0.1 ±0.05") = true /\
  parse_dimension latin1_only (u "±0.1 ±0.05") =
    Ok (u "Length", Some (1 # 10), u "±0.1", u "", u "DVC") /\
  contains (u "±0.05") (u "±0.055") = true /\
  parse_dimension latin1_only (u "±0.055") =
    Ok (u "Length", Some (11 # 200), u "±0.055", u "", u "DVC") /\
  u "±0.1" <> u "±0.05" /\ u "±0.055" <> u "±0.05".
Proof.
  repeat split; try (vm_compute; reflexivity); vm_compute; discriminate.
Qed.

(** ** Short captures *)

Lemma span_spec : forall cls s a b,
  span cls s = (a, b) -> s = a ++ b /\ forallb cls a = true /\ head_outside cls b.
Proof.
  intros cls s. induction s as [|x s IH]; intros a b H; simpl in H.
  - inversion H; subst. simpl. auto.
  - destruct (cls x) eqn:Hx.
    + destruct (span cls s) as [a' b'] eqn:E. inversion H; subst.
      destruct (IH a' b eq_refl) as (-> & Ha & Hb). simpl. rewrite Hx, Ha. auto.
    + inversion H; subst. simpl. auto.
Qed.

Lemma rstrip_length : forall s, (List.length (rstrip s) <= List.length s)%nat.
Proof.
  induction s as [|x s IH]; simpl.
  - lia.
  - destruct (rstrip s) eqn:E.
    + destruct (is_space x); simpl; lia.
    + simpl in *. lia.
Qed.

Lemma rstrip_spaces : forall s, forallb is_space s = true -> rstrip s = [].
Proof.
  induction s as [|x s IH]; simpl; intros H.
  - reflexivity.
  - apply andb_true_iff in H. destruct H as [Hx H]. rewrite IH by exact H.
    rewrite Hx. reflexivity.
Qed.

(** A suffix of a right-stripped text is right-stripped. *)
Lemma rstrip_suffix : forall a b, rstrip (a ++ b) = a ++ b -> b <> [] -> rstrip b = b.
Proof.
  intros a b H Hb. rewrite rstrip_app in H. destruct (rstrip b) eqn:E.
  - exfalso. pose proof (rstrip_length a) as Hl. rewrite H in Hl.
    rewrite length_app in Hl. destruct b; [congruence | simpl in Hl; lia].
  - apply app_inv_head in H. exact H.
Qed.

Lemma rstrip_fixed_not_spaces : forall s,
  rstrip s = s -> s <> [] -> forallb is_space s = false.
Proof.
  intros s H Hs. destruct (forallb is_space s) eqn:E; [|reflexivity].
  rewrite rstrip_spaces in H by exact E. congruence.
Qed.

Lemma lstrip_strip : forall s, lstrip (strip s) = strip s.
Proof.
  intros s. unfold strip. destruct (lstrip s) as [|c r] eqn:E.
  - reflexivity.
  - assert (Hc : is_space c = false).
    { clear -E. induction s as [|x s IH]; simpl in E; [discriminate|].
      destruct (is_space x) eqn:Hx; [auto|]. inversion E; subst. exact Hx. }
    destruct (rstrip_head c r Hc) as [s' ->]. simpl. rewrite Hc. reflexivity.
Qed.

Lemma rstrip_idempotent : forall s, rstrip (rstrip s) = rstrip s.
Proof.
  induction s as [|x s IH]; simpl.
  - reflexivity.
  - destruct (rstrip s) as [|y r] eqn:E.
    + destruct (is_space x) eqn:Hx; simpl; [reflexivity | rewrite Hx; reflexivity].
    + change (rstrip (x :: y :: r)) with
        (match rstrip (y :: r) with [] => if is_space x then [] else [x] | l => x :: l end).
      rewrite IH. reflexivity.
Qed.

Lemma rstrip_strip : forall s, rstrip (strip s) = strip s.
Proof.
  intros s. unfold strip. apply rstrip_idempotent.
Qed.

(** A text that starts with a non-blank and is right-stripped is its own
    [strip]. *)
Lemma strip_fixed : forall s,
  head_outside is_space s -> rstrip s = s -> strip s = s.
Proof.
  intros s Hh Hr. unfold strip. destruct s as [|c r].
  - reflexivity.
  - simpl in Hh. simpl lstrip. rewrite Hh. exact Hr.
Qed.

Lemma no_newline_any : forall s, has_char 10 s = false -> forallb any_char s = true.
Proof.
  intros s. unfold has_char. induction s as [|x s IH]; cbn [existsb forallb]; intros H.
  - reflexivity.
  - apply orb_false_iff in H. destruct H as [Hx H].
    rewrite IH by exact H. unfold any_char. rewrite N.eqb_sym, Hx. reflexivity.
Qed.

Lemma substring_at : forall (a b c : str) p e,
  p = List.length a -> e = (List.length b + List.length a)%nat ->
  substring (a ++ b ++ c) p e = b.
Proof.
  intros a b c p e -> ->. apply substring_app.
Qed.

Section RepMore.

Variable cls : char -> bool.
Variable k : option char -> nat -> str -> option (nat * caps).

Lemma rep_head_fail : forall s min prev pos,
  (1 <= min)%nat -> head_outside cls s -> rep cls k min prev pos s = None.
Proof.
  intros s min prev pos Hm Hs. destruct min; [lia|].
  destruct s as [|x s]; simpl.
  - reflexivity.
  - simpl in Hs. rewrite Hs. reflexivity.
Qed.

Lemma rep_greedy_all : forall a min prev pos r,
  forallb cls a = true -> (min <= List.length a)%nat ->
  k (prev_after a prev) (pos + List.length a)%nat [] = Some r ->
  rep cls k min prev pos a = Some r.
Proof.
  intros a min prev pos r Ha Hm Hk.
  rewrite <- (app_nil_r a) at 1. apply rep_greedy; simpl; auto.
Qed.

Lemma split_run : forall D r a b,
  D ++ r = a ++ b -> forallb cls D = true -> forallb cls a = true ->
  head_outside cls r -> exists D2, D = a ++ D2 /\ b = D2 ++ r.
Proof.
  intros D r a. revert D. induction a as [|c a IH]; intros D b H HD Ha Hr.
  - exists D. simpl in *. auto.
  - simpl in Ha. apply andb_true_iff in Ha. destruct Ha as [Hc Ha].
    destruct D as [|c' D].
    + simpl in H. subst r. simpl in Hr. congruence.
    + simpl in H. inversion H; subst c'. simpl in HD.
      apply andb_true_iff in HD. destruct HD as [_ HD].
      destruct (IH D b H2 HD Ha Hr) as (D2 & -> & ->).
      exists D2. auto.
Qed.

(** After a maximal run, a repetition fails when its continuation fails
    wherever the run is cut. *)
Lemma rep_run_fail : forall D r min prev pos,
  forallb cls D = true -> head_outside cls r ->
  (forall D2 prev' pos', forallb cls D2 = true -> k prev' pos' (D2 ++ r) = None) ->
  rep cls k min prev pos (D ++ r) = None.
Proof.
  intros D r min prev pos HD Hr Hk. apply rep_none.
  intros a b Hs Ha _.
  destruct (split_run D r a b Hs HD Ha Hr) as (D2 & HD2 & ->).
  apply Hk. subst D. rewrite forallb_app in HD.
  apply andb_true_iff in HD. tauto.
Qed.

End RepMore.

Section ShortCaptures.

Variable U : unicode_tables.

Lemma balloon_patterns_named :
  balloon_patterns U = [ws_pattern U; paren_pattern U; sep_pattern U; loose_pattern U].
Proof. reflexivity. Qed.

Lemma is_space_cases : forall c,
  is_space c = true ->
  9 <= c <= 13 \/ 28 <= c <= 32 \/ c = 133 \/ c = 160 \/ 5760 <= c.
Proof.
  intros c H. unfold is_space in H.
  repeat (apply orb_true_iff in H; destruct H as [H|H]);
    try (apply between_true in H); try (apply N.eqb_eq in H); lia.
Qed.

Lemma space_not_word : forall c, is_space c = true -> is_word U c = false.
Proof.
  intros c H. unfold is_word. destruct (N.ltb_spec c 256) as [Hc|Hc].
  - pose proof (is_space_cases c H) as Hr.
    destruct Hr as [Hr|[Hr|[Hr|[Hr|Hr]]]]; not_in_class.
  - apply ucd_space_not_alnum. exact H.
Qed.

Lemma space_outside : forall c, is_space c = true -> outside U c = true.
Proof.
  intros c H. unfold outside.
  rewrite (space_not_digit U c H), (space_not_word c H). reflexivity.
Qed.

Lemma sep_cases : forall c, one_of [46; 45; 58] c = true -> c = 46 \/ c = 45 \/ c = 58.
Proof.
  intros c H. unfold one_of in H. cbn [existsb] in H.
  repeat (apply orb_true_iff in H; destruct H as [H|H]);
    try (apply N.eqb_eq in H); auto; discriminate.
Qed.

Lemma sep_facts : forall c,
  one_of [46; 45; 58] c = true ->
  is_digit U c = false /\ is_space c = false /\ outside U c = true.
Proof.
  intros c H. destruct (sep_cases c H) as [-> | [-> | ->]]; repeat split; reflexivity.
Qed.

Lemma digit_not_sep : forall c, is_digit U c = true -> one_of [46; 45; 58] c = false.
Proof.
  intros c H. destruct (one_of [46; 45; 58] c) eqn:E; [|reflexivity].
  destruct (sep_facts c E) as [Hd _]. congruence.
Qed.

Lemma space_not_sep : forall c, is_space c = true -> one_of [46; 45; 58] c = false.
Proof.
  intros c H. destruct (one_of [46; 45; 58] c) eqn:E; [|reflexivity].
  destruct (sep_facts c E) as (_ & Hs & _). congruence.
Qed.

(** What the four patterns do on the shapes a stripped line can have. *)

Lemma ws_pattern_match : forall D W R,
  D <> [] -> forallb (is_digit U) D = true ->
  W <> [] -> forallb is_space W = true ->
  head_outside (is_digit U) (W ++ R) -> head_outside is_space R ->
  R <> [] -> forallb any_char R = true ->
  exists mt, re_match U (ws_pattern U) (D ++ W ++ R) = Some mt /\
             group mt 2 = Ok R.
Proof.
  intros D W R HD0 HD HW0 HW HhW HhR HR0 HR.
  assert (Hm : exists e c,
             m U (ws_pattern U) None 0 (D ++ W ++ R) [] = Some (e, c) /\
             lookup 2 c = Some ((0 + List.length D + List.length W)%nat,
                                (0 + List.length D + List.length W + List.length R)%nat)).
  { unfold ws_pattern. cbn [m]. do 2 eexists. split.
    - apply rep_greedy; [exact HD | exact HhW | destruct D; [congruence | simpl; lia] |].
      cbn [m]. apply rep_greedy;
        [exact HW | exact HhR | destruct W; [congruence | simpl; lia] |].
      cbn [m]. apply rep_greedy_all;
        [exact HR | destruct R; [congruence | simpl; lia] |].
      cbn [m]. reflexivity.
    - reflexivity. }
  destruct Hm as (e & c & Hm & Hl).
  unfold re_match. rewrite Hm. eexists. split; [reflexivity|].
  unfold group. cbn [mo_caps mo_string]. rewrite Hl. f_equal.
  rewrite app_assoc. rewrite <- (app_nil_r R) at 1.
  apply substring_at; rewrite ?length_app; lia.
Qed.

Lemma sep_pattern_match : forall D x W R,
  D <> [] -> forallb (is_digit U) D = true ->
  one_of [46; 45; 58] x = true ->
  forallb is_space W = true -> head_outside is_space R ->
  R <> [] -> forallb any_char R = true ->
  exists mt, re_match U (sep_pattern U) (D ++ x :: W ++ R) = Some mt /\
             group mt 2 = Ok R.
Proof.
  intros D x W R HD0 HD Hx HW HhR HR0 HR.
  destruct (sep_facts x Hx) as (Hxd & _ & _).
  assert (Hm : exists e c,
             m U (sep_pattern U) None 0 (D ++ x :: W ++ R) [] = Some (e, c) /\
             lookup 2 c = Some ((S (0 + List.length D) + List.length W)%nat,
                                (S (0 + List.length D) + List.length W + List.length R)%nat)).
  { unfold sep_pattern. cbn [m]. do 2 eexists. split.
    - apply rep_greedy; [exact HD | exact Hxd | destruct D; [congruence | simpl; lia] |].
      cbn [m]. rewrite Hx. apply rep_greedy; [exact HW | exact HhR | lia |].
      cbn [m]. apply rep_greedy_all;
        [exact HR | destruct R; [congruence | simpl; lia] |].
      cbn [m]. reflexivity.
    - reflexivity. }
  destruct Hm as (e & c & Hm & Hl).
  unfold re_match. rewrite Hm. eexists. split; [reflexivity|].
  unfold group. cbn [mo_caps mo_string]. rewrite Hl. f_equal.
  replace (D ++ x :: W ++ R) with ((D ++ x :: W) ++ R ++ [])
    by (rewrite app_nil_r, <- app_assoc; reflexivity).
  apply substring_at; rewrite ?length_app; simpl; lia.
Qed.

Lemma loose_pattern_match : forall D W F y,
  D <> [] -> forallb (is_digit U) D = true ->
  forallb is_space W = true -> forallb (outside U) F = true ->
  head_outside (is_digit U) (W ++ F ++ [y]) -> head_outside is_space (F ++ [y]) ->
  any_char y = true ->
  exists mt, re_match U (loose_pattern U) (D ++ W ++ F ++ [y]) = Some mt /\
             group mt 2 = Ok [y].
Proof.
  intros D W F y HD0 HD HW HF HhW HhF Hy.
  assert (Hm : exists e c,
             m U (loose_pattern U) None 0 (D ++ W ++ F ++ [y]) [] = Some (e, c) /\
             lookup 2 c = Some ((0 + List.length D + List.length W + List.length F)%nat,
                                S (0 + List.length D + List.length W + List.length F)%nat)).
  { unfold loose_pattern. cbn [m]. do 2 eexists. split.
    - apply rep_greedy; [exact HD | exact HhW | destruct D; [congruence | simpl; lia] |].
      cbn [m]. apply rep_greedy; [exact HW | exact HhF | lia |].
      destruct (outside U y) eqn:Ho.
      + apply rep_backoff; [exact HF | exact Ho | lia | reflexivity |].
        cbn [m rep]. rewrite Hy. cbn [pred]. reflexivity.
      + apply rep_greedy; [exact HF | exact Ho | lia |].
        cbn [m rep]. rewrite Hy. cbn [pred]. reflexivity.
    - reflexivity. }
  destruct Hm as (e & c & Hm & Hl).
  unfold re_match. rewrite Hm. eexists. split; [reflexivity|].
  unfold group. cbn [mo_caps mo_string]. rewrite Hl. f_equal.
  replace (D ++ W ++ F ++ [y]) with ((D ++ W ++ F) ++ [y] ++ [])
    by (rewrite <- !app_assoc; reflexivity).
  apply substring_at; rewrite ?length_app; simpl; lia.
Qed.

Lemma ws_pattern_no_digit : forall L,
  head_outside (is_digit U) L -> re_match U (ws_pattern U) L = None.
Proof.
  intros L H. unfold re_match, ws_pattern. cbn [m].
  rewrite rep_head_fail; auto.
Qed.

Lemma sep_pattern_no_digit : forall L,
  head_outside (is_digit U) L -> re_match U (sep_pattern U) L = None.
Proof.
  intros L H. unfold re_match, sep_pattern. cbn [m].
  rewrite rep_head_fail; auto.
Qed.

Lemma loose_pattern_no_digit : forall L,
  head_outside (is_digit U) L -> re_match U (loose_pattern U) L = None.
Proof.
  intros L H. unfold re_match, loose_pattern. cbn [m].
  rewrite rep_head_fail; auto.
Qed.

Lemma paren_pattern_head : forall L mt,
  re_match U (paren_pattern U) L = Some mt -> head_outside (is_digit U) L.
Proof.
  intros L mt H. unfold re_match, paren_pattern in H. cbn [m] in H.
  destruct L as [|c L]; [exact I|]. simpl.
  destruct (40 =? c) eqn:E; [|discriminate].
  apply N.eqb_eq in E. subst c. reflexivity.
Qed.

Lemma head_outside_run : forall (cls cls' : char -> bool) D r,
  (forall c, cls c = true -> cls' c = false) ->
  forallb cls D = true -> head_outside cls' r -> head_outside cls' (D ++ r).
Proof.
  intros cls cls' D r Hc HD Hr. destruct D as [|c D]; [exact Hr|].
  simpl in *. apply andb_true_iff in HD. apply Hc. tauto.
Qed.

Lemma ws_pattern_no_space : forall D r,
  forallb (is_digit U) D = true -> head_outside (is_digit U) r ->
  head_outside is_space r -> re_match U (ws_pattern U) (D ++ r) = None.
Proof.
  intros D r HD Hr Hs. unfold re_match, ws_pattern. cbn [m].
  rewrite rep_run_fail; auto.
  intros D2 prev' pos' HD2. cbn [m]. apply rep_head_fail; [lia|].
  apply (head_outside_run (is_digit U)); auto. apply digit_not_space.
Qed.

Lemma sep_pattern_no_sep : forall D r,
  forallb (is_digit U) D = true -> head_outside (is_digit U) r ->
  head_outside (one_of [46; 45; 58]) r -> re_match U (sep_pattern U) (D ++ r) = None.
Proof.
  intros D r HD Hr Hs. unfold re_match, sep_pattern. cbn [m].
  rewrite rep_run_fail; auto.
  intros D2 prev' pos' HD2. cbn [m].
  pose proof (head_outside_run (is_digit U) _ D2 r digit_not_sep HD2 Hs) as Hh.
  destruct (D2 ++ r) as [|c l]; [reflexivity|].
  unfold head_outside in Hh. rewrite Hh. reflexivity.
Qed.

Lemma sep_pattern_nothing_after : forall D x,
  forallb (is_digit U) D = true -> is_digit U x = false ->
  re_match U (sep_pattern U) (D ++ [x]) = None.
Proof.
  intros D x HD Hx. unfold re_match, sep_pattern. cbn [m].
  rewrite rep_run_fail; auto.
  intros D2 prev' pos' HD2. cbn [m].
  destruct D2 as [|c D2].
  - cbn [app]. destruct (one_of [46; 45; 58] x); reflexivity.
  - cbn [forallb] in HD2. apply andb_true_iff in HD2. destruct HD2 as [Hc _].
    cbn [app]. rewrite (digit_not_sep c Hc). reflexivity.
Qed.

Lemma paren_pattern_digit : forall c l,
  is_digit U c = true -> re_match U (paren_pattern U) (c :: l) = None.
Proof.
  intros c l H. unfold re_match, paren_pattern. cbn [m].
  pose proof (digit_ge_48 U c H) as Hc.
  replace (40 =? c) with false by (symmetry; apply N.eqb_neq; lia). reflexivity.
Qed.

Lemma lstrip_length : forall s, (List.length (lstrip s) <= List.length s)%nat.
Proof.
  induction s as [|x s IH]; simpl.
  - lia.
  - destruct (is_space x); simpl; lia.
Qed.

Lemma strip_length : forall s, (List.length (strip s) <= List.length s)%nat.
Proof.
  intros s. unfold strip.
  pose proof (rstrip_length (lstrip s)). pose proof (lstrip_length s). lia.
Qed.

Lemma balloon_try_short : forall mt n g2,
  group mt 2 = Ok g2 -> (List.length (strip g2) <= 1)%nat ->
  balloon_try U mt n = Ok None \/ exists e, balloon_try U mt n = Raise e.
Proof.
  intros mt n g2 Hg Hl. unfold balloon_try, bind.
  destruct (group mt 1) as [g1|e1]; [|right; eexists; reflexivity].
  destruct (py_int U g1) as [z|e2]; [|right; eexists; reflexivity].
  rewrite Hg.
  replace (1 <? List.length (strip g2))%nat with false
    by (symmetry; apply Nat.ltb_ge; exact Hl).
  rewrite andb_false_r. left. reflexivity.
Qed.

Lemma balloon_loop_skip : forall patterns L n,
  Forall (fun p => short_or_fail U p L) patterns ->
  balloon_loop U patterns L n = Ok None.
Proof.
  induction patterns as [|p rest IH]; intros L n H; cbn [balloon_loop].
  - reflexivity.
  - inversion H as [|? ? Hp Hrest]; subst.
    destruct Hp as [Hp | (mt & g2 & Hp & Hg & Hl)]; rewrite Hp; [apply IH; exact Hrest|].
    destruct (balloon_try_short mt n g2 Hg Hl) as [Ht | [e Ht]]; rewrite Ht.
    + apply IH. exact Hrest.
    + destruct (balloon_try_raises U _ _ _ Ht) as [-> | ->]; apply IH; exact Hrest.
Qed.

Lemma trailing_not_spaces : forall a W,
  rstrip (a ++ W) = a ++ W -> forallb is_space W = true -> W = [].
Proof.
  intros a W Hr HW. destruct W as [|w W]; [reflexivity|].
  pose proof (rstrip_suffix a (w :: W) Hr) as Hs.
  rewrite rstrip_spaces in Hs by exact HW. symmetry. apply Hs. discriminate.
Qed.

Lemma forallb_space_outside : forall W,
  forallb is_space W = true -> forallb (outside U) W = true.
Proof.
  induction W as [|w W IH]; simpl; intros H.
  - reflexivity.
  - apply andb_true_iff in H. destruct H as [Hw H].
    rewrite (space_outside w Hw), IH by exact H. reflexivity.
Qed.

Lemma one_char : forall (R : str), R <> [] -> (List.length R <= 1)%nat -> exists y, R = [y].
Proof.
  intros R H0 H1. destruct R as [|y [|z R]]; [congruence | eauto | simpl in H1; lia].
Qed.

(** When the whitespace pattern leaves a short capture, no later pattern
    leaves a longer one. *)
Lemma ws_short : forall L mt g2,
  rstrip L = L -> has_char 10 L = false ->
  re_match U (ws_pattern U) L = Some mt -> group mt 2 = Ok g2 ->
  (List.length (strip g2) <= 1)%nat ->
  short_or_fail U (paren_pattern U) L /\ short_or_fail U (sep_pattern U) L /\
  short_or_fail U (loose_pattern U) L.
Proof.
  intros L mt g2 Hr Hn Hm Hg Hl.
  destruct (span (is_digit U) L) as [D r] eqn:ED.
  destruct (span_spec _ _ _ _ ED) as (-> & HD & Hhr).
  destruct D as [|c D].
  { rewrite ws_pattern_no_digit in Hm by exact Hhr. discriminate. }
  destruct (span is_space r) as [W R] eqn:EW.
  destruct (span_spec _ _ _ _ EW) as (-> & HW & HhR).
  destruct W as [|w W].
  { rewrite ws_pattern_no_space in Hm by assumption. discriminate. }
  assert (HR0 : R <> []).
  { intros ->. rewrite app_nil_r in Hr.
    pose proof (trailing_not_spaces _ _ Hr HW). discriminate. }
  assert (HRr : rstrip R = R).
  { apply (rstrip_suffix ((c :: D) ++ w :: W)); [|exact HR0].
    rewrite <- app_assoc. exact Hr. }
  assert (HRany : forallb any_char R = true).
  { apply no_newline_any in Hn. rewrite !forallb_app in Hn.
    apply andb_true_iff in Hn. destruct Hn as [_ Hn].
    apply andb_true_iff in Hn. tauto. }
  destruct (ws_pattern_match (c :: D) (w :: W) R) as (mt' & Hm' & Hg');
    try assumption; try discriminate.
  rewrite Hm' in Hm. inversion Hm; subst mt'. rewrite Hg' in Hg.
  inversion Hg; subst g2. rewrite (strip_fixed R HhR HRr) in Hl.
  destruct (one_char R HR0 Hl) as [y ->].
  assert (Hc : is_digit U c = true).
  { simpl in HD. apply andb_true_iff in HD. tauto. }
  assert (Hw : is_space w = true).
  { simpl in HW. apply andb_true_iff in HW. tauto. }
  repeat split.
  - left. apply paren_pattern_digit. exact Hc.
  - left. apply sep_pattern_no_sep; [exact HD | exact Hhr |].
    simpl. apply space_not_sep. exact Hw.
  - right. destruct (loose_pattern_match (c :: D) (w :: W) [] y) as (mt4 & Hm4 & Hg4);
      try assumption; try discriminate; try reflexivity.
    + simpl in HRany. apply andb_true_iff in HRany. tauto.
    + exists mt4, [y]. repeat split; [exact Hm4 | exact Hg4 |].
      pose proof (strip_length [y]). simpl in *. lia.
Qed.

Lemma paren_match : forall L mt,
  re_match U (paren_pattern U) L = Some mt ->
  short_or_fail U (sep_pattern U) L /\ short_or_fail U (loose_pattern U) L.
Proof.
  intros L mt H. apply paren_pattern_head in H. split; left.
  - apply sep_pattern_no_digit. exact H.
  - apply loose_pattern_no_digit. exact H.
Qed.

Lemma sep_short : forall L mt g2,
  rstrip L = L -> has_char 10 L = false ->
  re_match U (sep_pattern U) L = Some mt -> group mt 2 = Ok g2 ->
  (List.length (strip g2) <= 1)%nat ->
  short_or_fail U (loose_pattern U) L.
Proof.
  intros L mt g2 Hr Hn Hm Hg Hl.
  destruct (span (is_digit U) L) as [D r] eqn:ED.
  destruct (span_spec _ _ _ _ ED) as (-> & HD & Hhr).
  destruct D as [|c D].
  { rewrite sep_pattern_no_digit in Hm by exact Hhr. discriminate. }
  destruct r as [|x r].
  { rewrite sep_pattern_no_sep in Hm by (assumption || exact I). discriminate. }
  destruct (one_of [46; 45; 58] x) eqn:Ex.
  2:{ rewrite sep_pattern_no_sep in Hm by assumption. discriminate. }
  destruct (sep_facts x Ex) as (Hxd & Hxs & Hxo).
  destruct (span is_space r) as [W R] eqn:EW.
  destruct (span_spec _ _ _ _ EW) as (-> & HW & HhR).
  destruct R as [|y0 R0].
  { rewrite app_nil_r in Hr, Hm.
    assert (HW0 : W = []).
    { apply (trailing_not_spaces ((c :: D) ++ [x])); [|exact HW].
      rewrite <- app_assoc. exact Hr. }
    subst W. rewrite sep_pattern_nothing_after in Hm by assumption. discriminate. }
  assert (HR0 : y0 :: R0 <> []) by discriminate.
  remember (y0 :: R0) as R eqn:ER. clear ER y0 R0.
  assert (HRr : rstrip R = R).
  { apply (rstrip_suffix ((c :: D) ++ x :: W)); [|exact HR0].
    rewrite <- app_assoc. exact Hr. }
  assert (HRany : forallb any_char R = true).
  { apply no_newline_any in Hn.
    change ((c :: D) ++ x :: W ++ R) with ((c :: D) ++ [x] ++ W ++ R) in Hn.
    rewrite !forallb_app in Hn.
    do 3 (apply andb_true_iff in Hn; destruct Hn as [_ Hn]). exact Hn. }
  destruct (sep_pattern_match (c :: D) x W R) as (mt' & Hm' & Hg');
    try assumption; try discriminate.
  rewrite Hm' in Hm. inversion Hm; subst mt'. rewrite Hg' in Hg.
  inversion Hg; subst g2. rewrite (strip_fixed R HhR HRr) in Hl.
  destruct (one_char R HR0 Hl) as [y Hy]. rewrite Hy in *.
  right. destruct (loose_pattern_match (c :: D) [] (x :: W) y) as (mt4 & Hm4 & Hg4);
    try assumption; try discriminate; try reflexivity.
  - cbn [forallb]. rewrite Hxo. apply forallb_space_outside. exact HW.
  - simpl in HRany. apply andb_true_iff in HRany. tauto.
  - exists mt4, [y]. repeat split; [exact Hm4 | exact Hg4 |].
    pose proof (strip_length [y]). simpl in *. lia.
Qed.

End ShortCaptures.

Lemma Forall_four : forall (A : Type) (P : A -> Prop) a b c d,
  P a -> P b -> P c -> P d -> Forall P [a; b; c; d].
Proof.
  intros. repeat (apply Forall_cons; [assumption|]). apply Forall_nil.
Qed.

(** C3, as the program does it: on a line without a newline character, when
    the first pattern that matches leaves a capture whose trimmed length is
    at most 1, the line adds no row. *)
Theorem short_capture_discards_line : forall U data n line p before after mt g2,
  has_char 10 (strip line) = false ->
  balloon_patterns U = before ++ p :: after ->
  (forall q, In q before -> re_match U q (strip line) = None) ->
  re_match U p (strip line) = Some mt ->
  group mt 2 = Ok g2 ->
  (List.length (strip g2) <= 1)%nat ->
  process_line U data n line = Ok data.
Proof.
  intros U data n line p before after mt g2 Hn Hsplit Hbefore Hm Hg Hl.
  unfold process_line.
  pose proof (rstrip_strip line) as Hr.
  destruct (strip line) as [|c0 l0] eqn:EL; [reflexivity|].
  remember (c0 :: l0) as L eqn:HL.
  assert (Hall : Forall (fun q => short_or_fail U q L) (balloon_patterns U)).
  { assert (Hp : short_or_fail U p L).
    { right. exists mt, g2. auto. }
    rewrite balloon_patterns_named in Hsplit |- *.
    destruct before as [|q1 [|q2 [|q3 [|q4 before']]]];
      simpl in Hsplit; inversion Hsplit; subst.
    - destruct (ws_short U _ _ _ Hr Hn Hm Hg Hl) as (H2 & H3 & H4).
      apply Forall_four; assumption.
    - destruct (paren_match U _ _ Hm) as (H3 & H4).
      apply Forall_four; try assumption.
      left. apply Hbefore. left. reflexivity.
    - pose proof (sep_short U _ _ _ Hr Hn Hm Hg Hl) as H4.
      apply Forall_four; try assumption.
      + left. apply Hbefore. left. reflexivity.
      + left. apply Hbefore. right. left. reflexivity.
    - apply Forall_four; try assumption.
      + left. apply Hbefore. left. reflexivity.
      + left. apply Hbefore. right. left. reflexivity.
      + left. apply Hbefore. right. right. left. reflexivity.
    - destruct before'; discriminate. }
  rewrite (balloon_loop_skip U _ _ n Hall). subst L. reflexivity.
Qed.

Lemma short_capture_discards_line_witness :
  process_line latin1_only [] 1 (u "7 a") = Ok [].
Proof.
  eapply (short_capture_discards_line latin1_only [] 1 (u "7 a")
            (ws_pattern latin1_only) []
            [paren_pattern latin1_only; sep_pattern latin1_only; loose_pattern latin1_only]
            {| mo_string := u "7 a"; mo_start := 0; mo_end := 3;
               mo_caps := [(2%nat, (2%nat, 3%nat)); (2%nat, (2%nat, 2%nat));
                           (1%nat, (0%nat, 1%nat)); (1%nat, (0%nat, 0%nat))] |}
            (u "a")).
  - reflexivity.
  - reflexivity.
  - intros q [].
  - vm_compute. reflexivity.
  - vm_compute. reflexivity.
  - vm_compute. lia.
Defined.

(** C3 fails as stated: in the block text "1 -", newline, "bcd" the first
    pattern matches and captures "-", and the line still yields a row,
    through the last pattern. *)
Lemma short_capture_not_discarded :
  strip two_line_block = two_line_block /\
  (exists after, balloon_patterns latin1_only = ws_pattern latin1_only :: after) /\
  (exists mt, re_match latin1_only (ws_pattern latin1_only) two_line_block = Some mt /\
              group mt 2 = Ok (u "-")) /\
  (exists mt, re_match latin1_only (loose_pattern latin1_only) two_line_block = Some mt /\
              group mt 2 = Ok (u "bcd")) /\
  process_line latin1_only [] 1 two_line_block =
    Ok [mk_row 1 "Length" None "±0.10" "" "DVC" "Page 1"].
Proof.
  split; [reflexivity|]. split; [eexists; reflexivity|].
  split; [eexists; split; vm_compute; reflexivity|].
  split; [eexists; split; vm_compute; reflexivity|].
  vm_compute. reflexivity.
Qed.

(** ** Fractions *)

Section Fractions.

Variable U : unicode_tables.

Lemma search_from_inv : forall r whole s prev pos mo,
  search_from U r whole prev pos s = Some mo ->
  exists pre s' prev',
    s = pre ++ s' /\ mo_string mo = whole /\
    mo_start mo = (pos + List.length pre)%nat /\
    m U r prev' (pos + List.length pre)%nat s' [] = Some (mo_end mo, mo_caps mo).
Proof.
  intros r whole s. induction s as [|x s IH]; intros prev pos mo H; cbn [search_from] in H.
  - destruct (m U r prev pos [] []) as [[e c]|] eqn:E; [|discriminate].
    inversion H; subst. exists [], [], prev. simpl. rewrite Nat.add_0_r. auto.
  - destruct (m U r prev pos (x :: s) []) as [[e c]|] eqn:E.
    + inversion H; subst. exists [], (x :: s), prev. simpl. rewrite Nat.add_0_r. auto.
    + destruct (IH _ _ _ H) as (pre & s' & prev' & -> & Hw & Hs & Hm).
      exists (x :: pre), s', prev'. simpl. rewrite Nat.add_succ_r. auto.
Qed.

(** The capture of [(\d+)] is a non-empty run of digits. *)
Lemma integer_capture : forall line mo,
  re_search U [Open 1; Rep (is_digit U) 1; Close 1] line = Some mo ->
  exists D, D <> [] /\ forallb (is_digit U) D = true /\ group mo 1 = Ok D.
Proof.
  intros line mo H. unfold re_search in H.
  destruct (search_from_inv _ _ _ _ _ _ H) as (pre & s' & prev' & Hl & Hw & Hs & Hm).
  cbn [m] in Hm. apply rep_inv in Hm.
  destruct Hm as (a & b & -> & Ha & Hmin & Hk). cbn [m] in Hk.
  exists a. split; [destruct a; [simpl in Hmin; lia | discriminate]|].
  split; [exact Ha|].
  unfold group. inversion Hk as [[He Hc]].
  cbn [lookup set_end set_start Nat.eqb]. rewrite Hw, Hl. f_equal.
  apply substring_at; simpl; lia.
Qed.

Lemma digits_value_digits : forall s acc,
  forallb (is_digit U) s = true -> exists n, digits_value U acc s = Some n.
Proof.
  induction s as [|c s IH]; intros acc H; simpl.
  - eexists. reflexivity.
  - simpl in H. apply andb_true_iff in H. destruct H as [Hc H].
    unfold is_digit in Hc. destruct (decimal U c); [|discriminate]. apply IH. exact H.
Qed.

Lemma digits_no_char : forall c s,
  c < 48 -> forallb (is_digit U) s = true -> has_char c s = false.
Proof.
  intros c s Hc. unfold has_char. induction s as [|x s IH]; cbn [forallb existsb]; intros H.
  - reflexivity.
  - apply andb_true_iff in H. destruct H as [Hx H].
    pose proof (digit_ge_48 U x Hx). rewrite IH by exact H.
    replace (c =? x) with false by (symmetry; apply N.eqb_neq; lia). reflexivity.
Qed.

Lemma split_all_absent : forall sep s, has_char sep s = false -> split_all sep s = [s].
Proof.
  intros sep s. unfold has_char. induction s as [|x s IH]; cbn [existsb split_all]; intros H.
  - reflexivity.
  - apply orb_false_iff in H. destruct H as [Hx H].
    rewrite N.eqb_sym, Hx. rewrite IH by exact H. reflexivity.
Qed.

Lemma rstrip_num_digits : forall s, forallb (is_digit U) s = true -> rstrip_num s = s.
Proof.
  induction s as [|x s IH]; cbn [forallb rstrip_num]; intros H.
  - reflexivity.
  - apply andb_true_iff in H. destruct H as [Hx H]. rewrite IH by exact H.
    destruct s; [rewrite (digit_not_num_space U x Hx)|]; reflexivity.
Qed.

(** [float] reads every non-empty run of digits. *)
Lemma py_float_digits : forall D,
  D <> [] -> forallb (is_digit U) D = true -> exists q, py_float U D = Ok q.
Proof.
  intros D H0 HD. destruct D as [|c D]; [congruence|].
  assert (Hc : is_digit U c = true).
  { simpl in HD. apply andb_true_iff in HD. tauto. }
  pose proof (digit_ge_48 U c Hc) as Hge.
  unfold py_float.
  assert (Hs : strip_num (c :: D) = c :: D).
  { unfold strip_num. cbn [lstrip_num]. rewrite (digit_not_num_space U c Hc).
    apply rstrip_num_digits. exact HD. }
  rewrite Hs. unfold split_sign.
  replace (c =? 43) with false by (symmetry; apply N.eqb_neq; lia).
  replace (c =? 45) with false by (symmetry; apply N.eqb_neq; lia).
  rewrite split_all_absent by (apply digits_no_char; [lia | exact HD]).
  unfold decimal_fraction. rewrite app_nil_r.
  destruct (digits_value_digits (c :: D) 0 HD) as [n ->].
  eexists. reflexivity.
Qed.

Lemma integer_capture_converts : forall D,
  D <> [] -> forallb (is_digit U) D = true -> exists q, nominal_of_capture U D = Ok q.
Proof.
  intros D H0 HD. unfold nominal_of_capture.
  rewrite digits_no_char by (lia || exact HD). apply py_float_digits; assumption.
Qed.

(** Where the integer pattern finds nothing there is no digit. *)
Lemma integer_search_none : forall whole s prev pos,
  search_from U [Open 1; Rep (is_digit U) 1; Close 1] whole prev pos s = None ->
  forallb (fun c => negb (is_digit U c)) s = true.
Proof.
  intros whole s. induction s as [|x s IH]; intros prev pos H.
  - reflexivity.
  - cbn [search_from] in H.
    destruct (m U _ prev pos (x :: s) []) as [[e c]|] eqn:E; [discriminate|].
    cbn [forallb]. rewrite (IH _ _ H), andb_true_r.
    destruct (is_digit U x) eqn:Hx; [|reflexivity]. exfalso.
    cbn [m] in E.
    destruct (span (is_digit U) (x :: s)) as [a b] eqn:Es.
    destruct (span_spec _ _ _ _ Es) as (Hab & Ha & Hb).
    assert (Ha0 : (1 <= List.length a)%nat).
    { destruct a as [|y a]; [|simpl; lia].
      simpl in Hab. subst b. simpl in Hb. congruence. }
    rewrite Hab in E.
    erewrite rep_greedy in E; [discriminate | exact Ha | exact Hb | exact Ha0 |].
    cbn [m]. reflexivity.
Qed.

Lemma digit_led_search_none : forall r whole s prev pos,
  forallb (fun c => negb (is_digit U c)) s = true ->
  search_from U (Open 1 :: Rep (is_digit U) 1 :: r) whole prev pos s = None.
Proof.
  intros r whole s. induction s as [|x s IH]; intros prev pos H; cbn [search_from m].
  - reflexivity.
  - cbn [forallb] in H. apply andb_true_iff in H. destruct H as [Hx H].
    apply negb_true_iff in Hx.
    rewrite rep_head_fail by (simpl; auto). apply IH. exact H.
Qed.

(** The two fraction patterns are never consulted: the loop over the four
    nominal patterns gives what the loop over the first two gives. *)
Lemma fraction_patterns_unreachable : forall line,
  nominal_loop U (nominal_patterns U) line =
  nominal_loop U (firstn 2 (nominal_patterns U)) line.
Proof.
  intros line. rewrite nominal_patterns_eq. cbn [firstn].
  assert (Hint : forall rest,
            nominal_loop U ([Open 1; Rep (is_digit U) 1; Close 1] :: rest) line =
            nominal_loop U [[Open 1; Rep (is_digit U) 1; Close 1]] line \/
            (re_search U [Open 1; Rep (is_digit U) 1; Close 1] line = None /\
             nominal_loop U ([Open 1; Rep (is_digit U) 1; Close 1] :: rest) line =
             nominal_loop U rest line)).
  { intros rest. cbn [nominal_loop].
    destruct (re_search U [Open 1; Rep (is_digit U) 1; Close 1] line) as [mo|] eqn:Es.
    - left. destruct (integer_capture _ _ Es) as (D & HD0 & HD & Hg).
      rewrite Hg. cbn [bind].
      destruct (integer_capture_converts D HD0 HD) as [q ->]. reflexivity.
    - right. auto. }
  assert (Htail :
            nominal_loop U
              ([Open 1; Rep (is_digit U) 1; Close 1] ::
               [[Open 1; Rep (is_digit U) 1; Chr (N.eqb 47); Rep (is_digit U) 1; Close 1];
                [Open 1; Rep (is_digit U) 1; Chr is_space; Rep (is_digit U) 1;
                 Chr (N.eqb 47); Rep (is_digit U) 1; Close 1]]) line =
            nominal_loop U [[Open 1; Rep (is_digit U) 1; Close 1]] line).
  { destruct (Hint [[Open 1; Rep (is_digit U) 1; Chr (N.eqb 47); Rep (is_digit U) 1; Close 1];
                    [Open 1; Rep (is_digit U) 1; Chr is_space; Rep (is_digit U) 1;
                     Chr (N.eqb 47); Rep (is_digit U) 1; Close 1]])
      as [H | [Hnone H]]; [exact H|].
    rewrite H. cbn [nominal_loop]. rewrite Hnone.
    unfold re_search in *. apply integer_search_none in Hnone.
    rewrite !digit_led_search_none by exact Hnone. reflexivity. }
  cbn [nominal_loop] in Htail |- *.
  destruct (re_search U [Open 1; Rep (is_digit U) 1; Chr (N.eqb 46);
                         Rep (is_digit U) 1; Close 1] line) as [mo|].
  - destruct (bind (group mo 1) (fun val_str => nominal_of_capture U val_str))
      as [q|[| |]]; try reflexivity; exact Htail.
  - exact Htail.
Qed.

End Fractions.

(** C4: the texts "3/4" and "1 1/2" get the nominal values 3 and 1: the
    integer pattern comes before the fraction patterns and finds the first
    run of digits.  The conversion itself would turn the captures "3/4" and
    "1 1/2" into 3/4 and 3/2, but for no text are the fraction patterns
    reached. *)
Theorem fraction_read_as_integer : forall U,
  parse_dimension U (u "3/4") = Ok (u "Length", Some (3 # 1), u "±0.10", u "", u "DVC") /\
  parse_dimension U (u "1 1/2") = Ok (u "Length", Some (1 # 1), u "±0.10", u "", u "DVC") /\
  nominal_of_capture U (u "3/4") = Ok (3 # 4) /\
  nominal_of_capture U (u "1 1/2") = Ok (3 # 2) /\
  (forall line,
     nominal_loop U (nominal_patterns U) line =
     nominal_loop U (firstn 2 (nominal_patterns U)) line).
Proof.
  intros U.
  split; [vm_compute; reflexivity|]. split; [vm_compute; reflexivity|].
  split; [vm_compute; reflexivity|]. split; [vm_compute; reflexivity|].
  apply fraction_patterns_unreachable.
Qed.

Lemma parse_dimension_total_witness :
  parse_dimension latin1_only (u "Overall") =
    Ok (u "Length", None, u "±0.10", u "", u "DVC") /\
  nominal_loop latin1_only [pat latin1_only "(\d+/\d+)"] (u "3/0") = Ok None.
Proof.
  split.
  - destruct (parse_dimension_total latin1_only (u "Overall"))
      as [(d & v & t & ty & i & Hp & Hv & Ht & Hd & Hty) _].
    rewrite Hp.
    rewrite Hv by (intros p Hp'; simpl in Hp'; repeat (destruct Hp' as [<-|Hp']);
                   try contradiction; vm_compute; reflexivity).
    rewrite Ht by (intros p Hp'; simpl in Hp'; repeat (destruct Hp' as [<-|Hp']);
                   try contradiction; vm_compute; reflexivity).
    destruct Hd as [-> ->]; try (vm_compute; reflexivity).
    rewrite Hty by (vm_compute; reflexivity).
    reflexivity.
  - destruct (parse_dimension_total latin1_only (u "3/0")) as [_ Hc].
    apply (Hc (pat latin1_only "(\d+/\d+)") []
             {| mo_string := u "3/0"; mo_start := 0; mo_end := 3;
                mo_caps := [(1%nat, (0%nat, 3%nat)); (1%nat, (0%nat, 0%nat))] |}
             (u "3/0") ZeroDivisionError).
    + vm_compute. reflexivity.
    + vm_compute. reflexivity.
    + vm_compute. reflexivity.
Defined.

(** * Further properties of the program *)

(** ** Where rows come from *)

Section Rows.

Variable U : unicode_tables.

Lemma balloon_loop_source : forall patterns line n r,
  balloon_loop U patterns line n = Ok (Some r) ->
  exists mt, balloon_try U mt n = Ok (Some r).
Proof.
  induction patterns as [|p rest IH]; intros line n r H; cbn [balloon_loop] in H.
  - discriminate.
  - destruct (re_match U p line) as [mt|]; [|eapply IH; eauto].
    destruct (balloon_try U mt n) as [[r'|]|e] eqn:E.
    + inversion H; subst r'. exists mt. exact E.
    + eapply IH; eauto.
    + destruct (balloon_try_raises U _ _ _ E) as [-> | ->]; eapply IH; eauto.
Qed.

Lemma process_line_source : forall data n line,
  exists rs, process_line U [] n line = Ok rs /\
             process_line U data n line = Ok (data ++ rs) /\
             (List.length rs <= 1)%nat /\
             (forall r, In r rs -> exists mt, balloon_try U mt n = Ok (Some r)).
Proof.
  intros data n line. unfold process_line.
  destruct (strip line) as [|c l] eqn:El.
  - exists []. rewrite app_nil_r. repeat split; auto. intros r [].
  - destruct (balloon_loop_total U (balloon_patterns U) (c :: l) n) as [r Hr].
    rewrite Hr. cbn [bind]. destruct r as [x|].
    + exists [x]. repeat split; auto. intros r [<-|[]].
      eapply balloon_loop_source; eauto.
    + exists []. rewrite app_nil_r. repeat split; auto. intros r [].
Qed.

Lemma process_lines_source : forall ls data n,
  exists rs, process_lines U [] n ls = Ok rs /\
             process_lines U data n ls = Ok (data ++ rs) /\
             (List.length rs <= List.length ls)%nat /\
             (forall r, In r rs -> exists mt, balloon_try U mt n = Ok (Some r)).
Proof.
  induction ls as [|line ls IH]; intros data n; cbn [process_lines].
  - exists []. rewrite app_nil_r. repeat split; auto. intros r [].
  - destruct (process_line_source data n line) as (r1 & H1 & H1' & Hl1 & Hs1).
    rewrite H1, H1'. cbn [bind].
    destruct (IH r1 n) as (r2 & H2 & H2' & Hl2 & Hs2).
    destruct (IH (data ++ r1) n) as (r3 & H3 & H3' & _ & _).
    rewrite H2 in H3. inversion H3; subst r3.
    exists (r1 ++ r2). rewrite H2', H3', app_assoc.
    split; [reflexivity|]. split; [reflexivity|]. split.
    + rewrite length_app. simpl. lia.
    + intros r Hr. apply in_app_or in Hr. destruct Hr; auto.
Qed.

Lemma process_lines_app2 : forall l1 l2 data n r1 r2,
  process_lines U [] n l1 = Ok r1 -> process_lines U [] n l2 = Ok r2 ->
  process_lines U data n (l1 ++ l2) = Ok (data ++ r1 ++ r2).
Proof.
  induction l1 as [|line l1 IH]; intros l2 data n r1 r2 H1 H2.
  - cbn [process_lines] in H1. inversion H1; subst r1. cbn [app].
    destruct (process_lines_source l2 data n) as (rs & H0 & H & _).
    rewrite H2 in H0. inversion H0; subst rs. exact H.
  - cbn [process_lines app] in H1 |- *.
    destruct (process_line_source data n line) as (q & Hq & Hq' & _).
    rewrite Hq in H1. rewrite Hq'. cbn [bind] in H1 |- *.
    destruct (process_lines_source l1 q n) as (q' & Hq0 & Hq1 & _).
    rewrite Hq1 in H1. inversion H1; subst r1.
    rewrite (IH l2 (data ++ q) n q' r2 Hq0 H2).
    rewrite <- !app_assoc. reflexivity.
Qed.

Lemma records_source : forall mth n p r,
  In r (records U mth n p) -> exists mt, balloon_try U mt n = Ok (Some r).
Proof.
  intros mth n p r. unfold records.
  destruct (process_lines_source (lines_of mth p) [] n) as (rs & H0 & _ & _ & Hs).
  rewrite H0. apply Hs.
Qed.

Lemma first_productive_source : forall methods n p r,
  In r (first_productive U methods n p) ->
  exists mt, balloon_try U mt n = Ok (Some r).
Proof.
  induction methods as [|mth rest IH]; intros n p r H; cbn [first_productive] in H.
  - destruct H.
  - destruct (records U mth n p) eqn:E.
    + eapply IH; eauto.
    + rewrite <- E in H. eapply records_source; eauto.
Qed.

Lemma balloon_try_fields : forall mt n r,
  balloon_try U mt n = Ok (Some r) ->
  exists g z text,
    group mt 1 = Ok g /\ py_int U g = Ok z /\
    (2 <= List.length text)%nat /\ strip text = text /\
    parse_dimension U text = Ok (desc r, nominal r, tol r, typ r, inst r) /\
    r = row_of z (desc r, nominal r, tol r, typ r, inst r) n.
Proof.
  intros mt n r H. unfold balloon_try, bind in H.
  destruct (group mt 1) as [g1|e1]; [|discriminate].
  destruct (py_int U g1) as [z|e2] eqn:Ez; [|discriminate].
  destruct (group mt 2) as [g2|e3]; [|discriminate].
  destruct (negb (str_eqb (strip g2) [])); cbn [andb] in H; [|discriminate].
  destruct (1 <? List.length (strip g2))%nat eqn:El; [|discriminate].
  destruct (parse_dimension U (strip g2)) as [[[[[d v] t] ty] i]|] eqn:Ep; [|discriminate].
  inversion H; subst r. cbn [desc nominal tol typ inst].
  exists g1, z, (strip g2). repeat split; auto.
  - apply Nat.ltb_lt in El. lia.
  - unfold strip at 1. rewrite lstrip_strip. apply rstrip_strip.
Qed.

(** The same, step by step, keeping the line, the pattern and the match a
    row was made from. *)

Lemma balloon_try_origin : forall mt n r,
  balloon_try U mt n = Ok (Some r) ->
  exists g1 g2,
    group mt 1 = Ok g1 /\ py_int U g1 = Ok (sr_no r) /\
    group mt 2 = Ok g2 /\ (2 <= List.length (strip g2))%nat /\
    parse_dimension U (strip g2) = Ok (desc r, nominal r, tol r, typ r, inst r) /\
    page_ref r = u "Page " ++ str_of_nat n.
Proof.
  intros mt n r H. unfold balloon_try, bind in H.
  destruct (group mt 1) as [g1|e1]; [|discriminate].
  destruct (py_int U g1) as [z|e2] eqn:Ez; [|discriminate].
  destruct (group mt 2) as [g2|e3]; [|discriminate].
  destruct (negb (str_eqb (strip g2) [])); cbn [andb] in H; [|discriminate].
  destruct (1 <? List.length (strip g2))%nat eqn:El; [|discriminate].
  destruct (parse_dimension U (strip g2)) as [[[[[d v] t] ty] i]|] eqn:Ep; [|discriminate].
  inversion H; subst r. cbn [sr_no desc nominal tol typ inst page_ref].
  exists g1, g2. apply Nat.ltb_lt in El. repeat split; auto.
Qed.

Lemma balloon_loop_origin : forall patterns line n r,
  balloon_loop U patterns line n = Ok (Some r) ->
  exists pattern mt,
    In pattern patterns /\ re_match U pattern line = Some mt /\
    balloon_try U mt n = Ok (Some r).
Proof.
  induction patterns as [|p rest IH]; intros line n r H; cbn [balloon_loop] in H.
  - discriminate.
  - assert (Hrest : balloon_loop U rest line n = Ok (Some r) ->
                    exists pattern mt,
                      In pattern (p :: rest) /\ re_match U pattern line = Some mt /\
                      balloon_try U mt n = Ok (Some r)).
    { intros H'. destruct (IH _ _ _ H') as (q & mt & Hq & Hm & Ht).
      exists q, mt. split; [right; exact Hq | split; assumption]. }
    destruct (re_match U p line) as [mt|] eqn:Em; [|apply Hrest; exact H].
    destruct (balloon_try U mt n) as [[r'|]|e] eqn:E.
    + inversion H; subst r'. exists p, mt. split; [left; reflexivity | split; assumption].
    + apply Hrest; exact H.
    + destruct (balloon_try_raises U _ _ _ E) as [-> | ->]; apply Hrest; exact H.
Qed.

Lemma process_line_origin : forall n line rs r,
  process_line U [] n line = Ok rs -> In r rs ->
  exists pattern mt,
    In pattern (balloon_patterns U) /\ re_match U pattern (strip line) = Some mt /\
    balloon_try U mt n = Ok (Some r).
Proof.
  intros n line rs r H Hr. unfold process_line in H.
  destruct (strip line) as [|c l] eqn:El.
  - inversion H; subst rs. destruct Hr.
  - destruct (balloon_loop U (balloon_patterns U) (c :: l) n) as [[x|]|e] eqn:Eb;
      cbn [bind] in H; [| |discriminate].
    + inversion H; subst rs. destruct Hr as [<-|[]].
      apply balloon_loop_origin. exact Eb.
    + inversion H; subst rs. destruct Hr.
Qed.

Lemma process_lines_origin : forall ls n rs r,
  process_lines U [] n ls = Ok rs -> In r rs ->
  exists line pattern mt,
    In line ls /\ In pattern (balloon_patterns U) /\
    re_match U pattern (strip line) = Some mt /\
    balloon_try U mt n = Ok (Some r).
Proof.
  induction ls as [|line ls IH]; intros n rs r H Hr.
  - cbn [process_lines] in H. inversion H; subst rs. destruct Hr.
  - cbn [process_lines] in H.
    destruct (process_line_source [] n line) as (r1 & H1 & _ & _ & _).
    rewrite H1 in H. cbn [bind] in H.
    destruct (process_lines_source ls r1 n) as (r2 & H2 & H2' & _ & _).
    rewrite H2' in H. inversion H; subst rs.
    apply in_app_or in Hr. destruct Hr as [Hr|Hr].
    + destruct (process_line_origin n line r1 r H1 Hr) as (q & mt & Hq & Hm & Ht).
      exists line, q, mt. split; [left; reflexivity|]. repeat split; assumption.
    + destruct (IH n r2 r H2 Hr) as (l & q & mt & Hl & Hq & Hm & Ht).
      exists l, q, mt. split; [right; exact Hl|]. repeat split; assumption.
Qed.

Lemma records_origin : forall mth n p r,
  In r (records U mth n p) ->
  exists line pattern mt,
    In line (lines_of mth p) /\ In pattern (balloon_patterns U) /\
    re_match U pattern (strip line) = Some mt /\
    balloon_try U mt n = Ok (Some r).
Proof.
  intros mth n p r H. unfold records in H.
  destruct (process_lines U [] n (lines_of mth p)) as [rs|e] eqn:E; [|destruct H].
  eapply process_lines_origin; eauto.
Qed.

Lemma first_productive_origin : forall methods n p r,
  In r (first_productive U methods n p) ->
  exists mth, In mth methods /\ In r (records U mth n p).
Proof.
  induction methods as [|mth rest IH]; intros n p r H; cbn [first_productive] in H.
  - destruct H.
  - destruct (records U mth n p) eqn:E.
    + destruct (IH _ _ _ H) as (m' & Hm & Hr). exists m'. split; [right; exact Hm | exact Hr].
    + exists mth. split; [left; reflexivity|]. rewrite E. exact H.
Qed.

Lemma commit_per_page_origin : forall doc n found r,
  In r (commit_per_page U doc n found) ->
  exists k p mth, nth_error doc k = Some p /\ In r (records U mth (n + k) p).
Proof.
  induction doc as [|p rest IH]; intros n found r H; cbn [commit_per_page] in H.
  - destruct H.
  - cbv zeta in H. apply in_app_or in H. destruct H as [H|H].
    + exists 0%nat, p. rewrite Nat.add_0_r. destruct found.
      * exists text. split; [reflexivity | exact H].
      * destruct (first_productive_origin _ _ _ _ H) as (mth & _ & Hr).
        exists mth. split; [reflexivity | exact Hr].
    + destruct (IH _ _ _ H) as (k & q & mth & Hk & Hr).
      exists (S k), q, mth. rewrite Nat.add_succ_r. split; [exact Hk | exact Hr].
Qed.

End Rows.

(** X1: the rows of a list of lines are the rows of its parts, in order,
    and a list of lines gives at most as many rows as it has lines. *)
Theorem process_lines_append : forall U n l1 l2 data,
  exists r1 r2,
    process_lines U [] n l1 = Ok r1 /\ process_lines U [] n l2 = Ok r2 /\
    process_lines U data n (l1 ++ l2) = Ok (data ++ r1 ++ r2) /\
    (List.length r1 <= List.length l1)%nat /\ (List.length r2 <= List.length l2)%nat.
Proof.
  intros U n l1 l2 data.
  destruct (process_lines_source U l1 [] n) as (r1 & H1 & _ & Hl1 & _).
  destruct (process_lines_source U l2 [] n) as (r2 & H2 & _ & Hl2 & _).
  exists r1, r2. repeat split; auto. apply process_lines_app2; assumption.
Qed.

(** X2: every row of the result was made from a line of a page of the
    document: some strategy delivers, on the k-th page, a line that, once
    trimmed, one of the balloon patterns matches; the item number of the
    row is [int] of the first group of that match, its parameter, nominal
    value, tolerance, flag and instrument are what [parse_dimension] gives
    on the trimmed second group, which has two characters or more, and its
    page reference is "Page k". *)
Theorem rows_come_from_pages : forall U doc data r,
  extract_dimensions_from_pdf U doc = Ok data -> In r data ->
  exists k p mth line pattern mt g1 g2,
    nth_error doc k = Some p /\
    In line (lines_of mth p) /\
    In pattern (balloon_patterns U) /\
    re_match U pattern (strip line) = Some mt /\
    group mt 1 = Ok g1 /\ py_int U g1 = Ok (sr_no r) /\
    group mt 2 = Ok g2 /\ (2 <= List.length (strip g2))%nat /\
    parse_dimension U (strip g2) = Ok (desc r, nominal r, tol r, typ r, inst r) /\
    page_ref r = u "Page " ++ str_of_nat (S k).
Proof.
  intros U doc data r H Hr. rewrite extract_is_commit_per_page in H.
  inversion H; subst data.
  destruct (commit_per_page_origin U _ _ _ _ Hr) as (k & p & mth & Hk & Hrec).
  destruct (records_origin U _ _ _ _ Hrec) as (line & q & mt & Hl & Hq & Hm & Ht).
  destruct (balloon_try_origin U _ _ _ Ht)
    as (g1 & g2 & Hg1 & Hint & Hg2 & Hlen & Hp & Hpage).
  exists k, p, mth, line, q, mt, g1, g2.
  repeat (split; [assumption|]). exact Hpage.
Qed.

Lemma rows_come_from_pages_witness :
  exists k p mth line pattern mt g1 g2,
    nth_error [text_page " 7 ab "] k = Some p /\
    In line (lines_of mth p) /\
    In pattern (balloon_patterns latin1_only) /\
    re_match latin1_only pattern (strip line) = Some mt /\
    group mt 1 = Ok g1 /\ py_int latin1_only g1 = Ok 7%Z /\
    group mt 2 = Ok g2 /\ (2 <= List.length (strip g2))%nat /\
    parse_dimension latin1_only (strip g2) =
      Ok (u "Length", None, u "±0.10", u "", u "DVC") /\
    u "Page 1" = u "Page " ++ str_of_nat (S k).
Proof.
  apply (rows_come_from_pages latin1_only [text_page " 7 ab "]
           [mk_row 7 "Length" None "±0.10" "" "DVC" "Page 1"]
           (mk_row 7 "Length" None "±0.10" "" "DVC" "Page 1")).
  - vm_compute. reflexivity.
  - left. reflexivity.
Defined.

(** ** The extraction policy, case by case *)

Section PolicyCases.

Variable U : unicode_tables.

Lemma commit_per_page_found : forall doc n,
  commit_per_page U doc n true = strategy_records U text doc n.
Proof.
  induction doc as [|p rest IH]; intros n; cbn [commit_per_page strategy_records].
  - reflexivity.
  - cbv zeta. cbn [orb]. rewrite IH. reflexivity.
Qed.

Lemma first_productive_nil : forall methods n p,
  first_productive U methods n p = [] <->
  (forall mth, In mth methods -> records U mth n p = []).
Proof.
  induction methods as [|mth rest IH]; intros n p; cbn [first_productive].
  - split; [intros _ mth [] | reflexivity].
  - destruct (records U mth n p) eqn:E.
    + rewrite IH. split.
      * intros H m' [<-|Hm]; [exact E | apply H; exact Hm].
      * intros H m' Hm. apply H. right. exact Hm.
    + split; [discriminate|]. intros H.
      rewrite (H mth) in E by (left; reflexivity). discriminate.
Qed.

Lemma all_methods : forall mth, In mth text_methods.
Proof. intros []; simpl; auto. Qed.

Lemma commit_per_page_nil : forall doc n,
  commit_per_page U doc n false = [] <->
  (forall k p mth, nth_error doc k = Some p -> records U mth (n + k) p = []).
Proof.
  induction doc as [|p rest IH]; intros n; cbn [commit_per_page].
  - split; [|reflexivity]. intros _ k q mth H. destruct k; discriminate.
  - cbv zeta. cbn [orb]. split.
    + intros H. apply app_eq_nil in H. destruct H as [H1 H2].
      rewrite H1 in H2. pose proof (proj1 (IH (S n)) H2) as H3. clear H2.
      rename H3 into H2.
      intros k q mth Hk. destruct k as [|k].
      * simpl in Hk. inversion Hk; subst q. rewrite Nat.add_0_r.
        apply (proj1 (first_productive_nil _ _ _) H1). apply all_methods.
      * simpl in Hk. rewrite Nat.add_succ_r. apply (H2 k q mth Hk).
    + intros H.
      assert (H1 : first_productive U text_methods n p = []).
      { apply first_productive_nil. intros mth _.
        specialize (H 0%nat p mth eq_refl). rewrite Nat.add_0_r in H. exact H. }
      rewrite H1. cbn [app]. apply IH. intros k q mth Hk.
      specialize (H (S k) q mth Hk). rewrite Nat.add_succ_r in H. exact H.
Qed.

Lemma strategy_records_single : forall mth p n,
  strategy_records U mth [p] n = records U mth n p.
Proof.
  intros. cbn [strategy_records]. apply app_nil_r.
Qed.

Lemma commit_per_document_single : forall methods p,
  commit_per_document U methods [p] = first_productive U methods 1 p.
Proof.
  induction methods as [|mth rest IH]; intros p;
    cbn [commit_per_document first_productive].
  - reflexivity.
  - rewrite strategy_records_single. rewrite IH. reflexivity.
Qed.

End PolicyCases.

(** X3: the result is empty exactly when no strategy yields a row on any
    page. *)
Theorem extraction_empty_iff : forall U doc,
  extract_dimensions_from_pdf U doc = Ok [] <->
  (forall k p mth, nth_error doc k = Some p -> records U mth (S k) p = []).
Proof.
  intros U doc. rewrite extract_is_commit_per_page. split.
  - intros H. assert (H0 : commit_per_page U doc 1 false = []) by congruence.
    exact (proj1 (commit_per_page_nil U doc 1) H0).
  - intros H. f_equal. exact (proj2 (commit_per_page_nil U doc 1) H).
Qed.

(** X4: when the plain text of the first page yields a row, every row of
    the result is a plain-text row: the result is what the plain-text
    strategy gives over all pages. *)
Theorem plain_text_first_page : forall U p rest,
  records U text 1 p <> [] ->
  extract_dimensions_from_pdf U (p :: rest) =
  Ok (strategy_records U text (p :: rest) 1).
Proof.
  intros U p rest H. rewrite extract_is_commit_per_page.
  cbn [commit_per_page strategy_records first_productive text_methods].
  cbv zeta. destruct (records U text 1 p) as [|x l] eqn:E; [congruence|].
  cbn [orb]. rewrite commit_per_page_found. reflexivity.
Qed.

Lemma plain_text_first_page_witness :
  extract_dimensions_from_pdf latin1_only [text_page "7 ab"; span_page "1 ab"] =
  Ok (strategy_records latin1_only text [text_page "7 ab"; span_page "1 ab"] 1).
Proof.
  apply (plain_text_first_page latin1_only (text_page "7 ab") [span_page "1 ab"]).
  vm_compute. discriminate.
Defined.

(** X5: on a document of one page the result is what committing to one
    strategy for the whole document gives. *)
Theorem single_page_commits_per_document : forall U p,
  extract_dimensions_from_pdf U [p] = Ok (commit_per_document U text_methods [p]).
Proof.
  intros U p. rewrite extract_is_commit_per_page, commit_per_document_single.
  cbn [commit_per_page]. cbv zeta. rewrite app_nil_r. reflexivity.
Qed.

(** ** The fields of a result *)

Ltac pick_member := repeat (first [left; reflexivity | right]).

Ltac no_group :=
  let H := fresh in
  intros [H|H]; simpl in H;
  repeat (destruct H as [H|H]; [discriminate|]); exact H.

Section Fields.

Variable U : unicode_tables.

Lemma classify_in_table : forall line line_upper,
  In (classify U line line_upper) type_table.
Proof.
  intros line line_upper. unfold classify.
  repeat match goal with |- context [if ?b then _ else _] => destruct b end;
    unfold type_table; cbn [In]; pick_member.
Qed.

Lemma inspection_type_in_values : forall line_upper,
  In (inspection_type U line_upper) flag_values.
Proof.
  intros line_upper. unfold inspection_type.
  repeat match goal with |- context [if ?b then _ else _] => destruct b end;
    unfold flag_values; cbn [In]; pick_member.
Qed.

(** The end of a group that closes at the end of the pattern. *)
Lemma m_group_end : forall body n prev pos s c e c' st x0,
  ~ touches n body -> lookup n c = Some (st, x0) ->
  m U (body ++ [Close n]) prev pos s c = Some (e, c') ->
  lookup n c' = Some (st, e) /\ (pos <= e)%nat.
Proof.
  induction body as [|i body IH]; intros n prev pos s c e c' st x0 Hn Hl H.
  - cbn [app m] in H. inversion H; subst. split; [|lia].
    unfold set_end. rewrite Hl. cbn [lookup]. rewrite Nat.eqb_refl. reflexivity.
  - assert (Hr : ~ touches n body).
    { intros [Ht|Ht]; apply Hn; [left | right]; right; exact Ht. }
    change ((i :: body) ++ [Close n]) with (i :: (body ++ [Close n])) in H.
    destruct i as [cls|cls min| | |k|k]; cbn [m] in H.
    + destruct s as [|x s]; [discriminate|]. destruct (cls x); [|discriminate].
      destruct (IH _ _ _ _ _ _ _ _ _ Hr Hl H) as [H1 H2]. split; [exact H1 | lia].
    + apply rep_inv in H. destruct H as (a & b & _ & _ & _ & H).
      destruct (IH _ _ _ _ _ _ _ _ _ Hr Hl H) as [H1 H2]. split; [exact H1 | lia].
    + destruct pos; [|discriminate]. eapply IH; eauto.
    + destruct (xorb _ _); [|discriminate]. eapply IH; eauto.
    + assert (Hk : k <> n) by (intros ->; apply Hn; left; left; reflexivity).
      eapply IH; [exact Hr | | exact H].
      rewrite lookup_set_start_other by exact Hk. exact Hl.
    + assert (Hk : k <> n) by (intros ->; apply Hn; right; left; reflexivity).
      eapply IH; [exact Hr | | exact H].
      rewrite lookup_set_end_other by exact Hk. exact Hl.
Qed.

(** A capture that opens with a single character of a class starts with
    that character. *)
Lemma chr_led_capture : forall f body line mo,
  ~ touches 1 body ->
  re_search U (Open 1 :: Chr f :: body ++ [Close 1]) line = Some mo ->
  exists x g, group mo 1 = Ok (x :: g) /\ f x = true.
Proof.
  intros f body line mo Hb H. unfold re_search in H.
  destruct (search_from_inv U _ _ _ _ _ _ H) as (pre & s' & prev' & Hl & Hw & Hs & Hm).
  cbn [m] in Hm. destruct s' as [|x s'']; [discriminate|].
  destruct (f x) eqn:Hx; [|discriminate].
  destruct (m_group_end body 1 (Some x) _ s''
              (set_start 1 (0 + List.length pre) []) _ _
              (0 + List.length pre)%nat (0 + List.length pre)%nat Hb eq_refl Hm)
    as [Hg He].
  exists x, (firstn (mo_end mo - S (List.length pre)) s''). split; [|exact Hx].
  unfold group. rewrite Hg, Hw, Hl. unfold substring.
  rewrite skipn_app, skipn_all2 by (simpl; lia).
  replace (0 + List.length pre - List.length pre)%nat with 0%nat by lia.
  cbn [skipn app].
  replace (mo_end mo - (0 + List.length pre))%nat
    with (S (mo_end mo - S (List.length pre))) by lia.
  reflexivity.
Qed.

Lemma has_char_remove : forall c s, has_char c (remove_char c s) = false.
Proof.
  intros c s. unfold has_char, remove_char. induction s as [|x s IH]; cbn [filter existsb].
  - reflexivity.
  - destruct (x =? c) eqn:E; cbn [negb existsb].
    + exact IH.
    + rewrite IH, N.eqb_sym, E. reflexivity.
Qed.

Lemma tol_loop_value : forall patterns line tol0 t,
  Forall sign_led patterns ->
  tol_loop U patterns line tol0 = Ok t ->
  t = tol0 \/ (t <> [] /\ has_char 32 t = false).
Proof.
  induction patterns as [|p rest IH]; intros line tol0 t Hp H; cbn [tol_loop] in H.
  - left. congruence.
  - inversion Hp as [|? ? H1 Hrest]; subst.
    destruct (re_search U p line) as [mo|] eqn:Es; [|eapply IH; eauto].
    destruct H1 as (f & body & -> & Hb & Hf).
    destruct (chr_led_capture f body line mo Hb Es) as (x & g & Hg & Hx).
    rewrite Hg in H. cbn [bind] in H.
    assert (Ht : t = remove_char 32 (x :: g)) by congruence.
    clear H. subst t. right.
    assert (Hne : (x =? 32) = false).
    { destruct (x =? 32) eqn:E; [|reflexivity].
      apply N.eqb_eq in E. subst x. congruence. }
    split; [|apply has_char_remove].
    unfold remove_char. cbn [filter]. rewrite Hne. discriminate.
Qed.

Lemma tol_patterns_sign_led : Forall sign_led (tol_patterns U).
Proof.
  rewrite tol_patterns_eq.
  repeat (apply Forall_cons;
    [ eexists; eexists; split;
      [ match goal with
        | |- Open 1 :: Chr ?f :: ?l = _ =>
          instantiate (1 := removelast l); instantiate (1 := f); reflexivity
        end
      | split; [no_group | reflexivity] ]
    | ]).
  apply Forall_nil.
Qed.

Lemma Qred_nonneg : forall z p, (0 <= z)%Z -> (0 <= Qred (z # p))%Q.
Proof.
  intros z p H. rewrite Qred_correct. unfold Qle. simpl. lia.
Qed.

Lemma decimal_fraction_digits : forall i f,
  i <> [] -> forallb (is_digit U) (i ++ f) = true ->
  exists q, decimal_fraction U i f = Ok q /\ (0 <= q)%Q.
Proof.
  intros i f Hi H. unfold decimal_fraction.
  destruct (digits_value_digits U (i ++ f) 0 H) as [n ->].
  destruct i as [|c i]; [congruence|].
  eexists. split; [reflexivity|]. apply Qred_nonneg. lia.
Qed.

Lemma rstrip_num_app_fixed : forall a b,
  rstrip_num b = b -> b <> [] -> rstrip_num (a ++ b) = a ++ b.
Proof.
  induction a as [|x a IH]; intros b Hb H0; cbn [app].
  - exact Hb.
  - cbn [rstrip_num]. rewrite (IH b Hb H0).
    destruct (a ++ b) eqn:E; [|reflexivity].
    apply app_eq_nil in E. destruct E. congruence.
Qed.

Lemma split_all_at : forall sep a b,
  has_char sep a = false -> split_all sep (a ++ sep :: b) = a :: split_all sep b.
Proof.
  intros sep a b. unfold has_char.
  induction a as [|x a IH]; cbn [existsb app split_all]; intros H.
  - rewrite N.eqb_refl. reflexivity.
  - apply orb_false_iff in H. destruct H as [Hx H].
    rewrite N.eqb_sym, Hx. rewrite IH by exact H. reflexivity.
Qed.

Lemma has_char_app : forall c a b, has_char c (a ++ b) = has_char c a || has_char c b.
Proof.
  intros c a b. unfold has_char. apply existsb_app.
Qed.

(** [float] of digits, a point and digits. *)
Lemma decimal_converts : forall D1 D2,
  D1 <> [] -> D2 <> [] ->
  forallb (is_digit U) D1 = true -> forallb (is_digit U) D2 = true ->
  exists q, nominal_of_capture U (D1 ++ 46 :: D2) = Ok q /\ (0 <= q)%Q.
Proof.
  intros D1 D2 H1 H2 HD1 HD2. unfold nominal_of_capture.
  assert (H47 : has_char 47 (D1 ++ 46 :: D2) = false).
  { rewrite has_char_app. rewrite (digits_no_char U 47 D1) by (lia || exact HD1).
    unfold has_char. cbn [existsb orb].
    change (47 =? 46) with false. cbn [orb].
    apply (digits_no_char U 47 D2); [lia | exact HD2]. }
  rewrite H47. unfold py_float.
  destruct D1 as [|c D1]; [congruence|].
  assert (Hc : is_digit U c = true).
  { simpl in HD1. apply andb_true_iff in HD1. tauto. }
  pose proof (digit_ge_48 U c Hc) as Hge.
  assert (Hs : strip_num ((c :: D1) ++ 46 :: D2) = (c :: D1) ++ 46 :: D2).
  { unfold strip_num. cbn [app lstrip_num]. rewrite (digit_not_num_space U c Hc).
    replace (c :: D1 ++ 46 :: D2) with ((c :: D1 ++ [46]) ++ D2)
      by (cbn [app]; rewrite <- app_assoc; reflexivity).
    apply rstrip_num_app_fixed; [apply (rstrip_num_digits U); exact HD2 | exact H2]. }
  rewrite Hs. unfold split_sign. cbn [app].
  replace (c =? 43) with false by (symmetry; apply N.eqb_neq; lia).
  replace (c =? 45) with false by (symmetry; apply N.eqb_neq; lia).
  change (c :: D1 ++ 46 :: D2) with ((c :: D1) ++ 46 :: D2).
  rewrite split_all_at by (apply (digits_no_char U); [lia | exact HD1]).
  rewrite split_all_absent by (apply (digits_no_char U); [lia | exact HD2]).
  destruct (decimal_fraction_digits (c :: D1) D2) as (q & Hq & Hq0);
    [discriminate | rewrite forallb_app, HD1, HD2; reflexivity |].
  rewrite Hq. cbn [bind]. exists q. auto.
Qed.

Lemma integer_converts : forall D,
  D <> [] -> forallb (is_digit U) D = true ->
  exists q, nominal_of_capture U D = Ok q /\ (0 <= q)%Q.
Proof.
  intros D H0 HD. unfold nominal_of_capture.
  rewrite (digits_no_char U) by (lia || exact HD).
  destruct D as [|c D]; [congruence|].
  assert (Hc : is_digit U c = true).
  { simpl in HD. apply andb_true_iff in HD. tauto. }
  pose proof (digit_ge_48 U c Hc) as Hge.
  unfold py_float.
  assert (Hs : strip_num (c :: D) = c :: D).
  { unfold strip_num. cbn [lstrip_num]. rewrite (digit_not_num_space U c Hc).
    apply (rstrip_num_digits U). exact HD. }
  rewrite Hs. unfold split_sign.
  replace (c =? 43) with false by (symmetry; apply N.eqb_neq; lia).
  replace (c =? 45) with false by (symmetry; apply N.eqb_neq; lia).
  rewrite split_all_absent by (apply (digits_no_char U); [lia | exact HD]).
  destruct (decimal_fraction_digits (c :: D) []) as (q & Hq & Hq0);
    [discriminate | rewrite app_nil_r; exact HD |].
  rewrite Hq. cbn [bind]. exists q. auto.
Qed.

(** The capture of [(\d+\.\d+)]. *)
Lemma decimal_capture : forall line mo,
  re_search U [Open 1; Rep (is_digit U) 1; Chr (N.eqb 46); Rep (is_digit U) 1; Close 1]
            line = Some mo ->
  exists D1 D2, D1 <> [] /\ D2 <> [] /\
                forallb (is_digit U) D1 = true /\ forallb (is_digit U) D2 = true /\
                group mo 1 = Ok (D1 ++ 46 :: D2).
Proof.
  intros line mo H. unfold re_search in H.
  destruct (search_from_inv U _ _ _ _ _ _ H) as (pre & s' & prev' & Hl & Hw & Hs & Hm).
  cbn [m] in Hm. apply rep_inv in Hm.
  destruct Hm as (a & b & -> & Ha & Hmin & Hk). cbn [m] in Hk.
  destruct b as [|x b]; [discriminate|].
  destruct (46 =? x) eqn:Ex; [|discriminate]. apply N.eqb_eq in Ex. subst x.
  apply rep_inv in Hk. destruct Hk as (a2 & b2 & -> & Ha2 & Hmin2 & Hk). cbn [m] in Hk.
  exists a, a2.
  split; [destruct a; [simpl in Hmin; lia | discriminate]|].
  split; [destruct a2; [simpl in Hmin2; lia | discriminate]|].
  split; [exact Ha|]. split; [exact Ha2|].
  unfold group. inversion Hk as [[He Hc]].
  cbn [lookup set_end set_start Nat.eqb]. rewrite Hw, Hl. f_equal.
  change (a ++ 46 :: a2 ++ b2) with (a ++ (46 :: a2) ++ b2).
  rewrite (app_assoc a).
  apply (substring_at pre (a ++ 46 :: a2) b2); rewrite ?length_app; simpl; lia.
Qed.

(** The value of the nominal loop. *)
Lemma nominal_loop_value : forall line v,
  nominal_loop U (nominal_patterns U) line = Ok v ->
  (v = None <-> forallb (fun c => negb (is_digit U c)) line = true) /\
  (forall q, v = Some q -> (0 <= q)%Q).
Proof.
  intros line v H. rewrite fraction_patterns_unreachable in H.
  rewrite nominal_patterns_eq in H. cbn [firstn nominal_loop] in H.
  assert (Hfound : forall (r : regex) mo q,
            re_search U (Open 1 :: Rep (is_digit U) 1 :: r) line = Some mo ->
            (0 <= q)%Q -> v = Some q ->
            (v = None <-> forallb (fun c => negb (is_digit U c)) line = true) /\
            (forall q', v = Some q' -> (0 <= q')%Q)).
  { intros r mo q Hs Hq ->. split.
    - split; [discriminate|]. intros Hno. unfold re_search in Hs.
      rewrite digit_led_search_none in Hs by exact Hno. discriminate.
    - intros q' Hq'. inversion Hq'; subst. exact Hq. }
  destruct (re_search U [Open 1; Rep (is_digit U) 1; Chr (N.eqb 46);
                         Rep (is_digit U) 1; Close 1] line) as [mo|] eqn:E1.
  - destruct (decimal_capture _ _ E1) as (D1 & D2 & H1 & H2 & HD1 & HD2 & Hg).
    rewrite Hg in H. cbn [bind] in H.
    destruct (decimal_converts D1 D2 H1 H2 HD1 HD2) as (q & Hq & Hq0).
    rewrite Hq in H. eapply Hfound; [exact E1 | exact Hq0 | congruence].
  - destruct (re_search U [Open 1; Rep (is_digit U) 1; Close 1] line) as [mo|] eqn:E2.
    + destruct (integer_capture U _ _ E2) as (D & H0 & HD & Hg).
      rewrite Hg in H. cbn [bind] in H.
      destruct (integer_converts D H0 HD) as (q & Hq & Hq0).
      rewrite Hq in H. eapply Hfound; [exact E2 | exact Hq0 | congruence].
    + assert (Hv : v = None) by congruence. subst v. split.
      * split; [|reflexivity]. intros _. unfold re_search in E2.
        eapply integer_search_none; eauto.
      * discriminate.
Qed.

Lemma lstrip_spaces_app : forall a s,
  forallb is_space a = true -> lstrip (a ++ s) = lstrip s.
Proof.
  induction a as [|x a IH]; intros s H; cbn [app lstrip].
  - reflexivity.
  - simpl in H. apply andb_true_iff in H. destruct H as [Hx H].
    rewrite Hx. apply IH. exact H.
Qed.

Lemma lstrip_app_spaces : forall t b,
  forallb is_space b = true -> rstrip (lstrip (t ++ b)) = rstrip (lstrip t).
Proof.
  induction t as [|c t IH]; intros b Hb; cbn [app lstrip].
  - rewrite <- (app_nil_r b), lstrip_spaces_app by exact Hb. reflexivity.
  - destruct (is_space c); [apply IH; exact Hb|].
    change (c :: t ++ b) with ((c :: t) ++ b).
    rewrite rstrip_app, rstrip_spaces by exact Hb. reflexivity.
Qed.

Lemma strip_padding : forall a t b,
  forallb is_space a = true -> forallb is_space b = true ->
  strip (a ++ t ++ b) = strip t.
Proof.
  intros a t b Ha Hb. unfold strip.
  rewrite lstrip_spaces_app by exact Ha. apply lstrip_app_spaces. exact Hb.
Qed.

End Fields.

(** X6: the parameter name and the instrument of every result are one of
    the eight pairs of the type chain, so the instrument is fixed by the
    parameter name, and the flag is "C", "S", "K" or empty. *)
Theorem result_in_closed_sets : forall U line d v t ty i,
  parse_dimension U line = Ok (d, v, t, ty, i) ->
  In (d, i) type_table /\ In ty flag_values.
Proof.
  intros U line d v t ty i H.
  destruct (parse_dimension_shape U line) as (v' & t' & _ & _ & Hp).
  rewrite Hp in H.
  pose proof (classify_in_table U (strip line) (upper U (strip line))) as Hc.
  pose proof (inspection_type_in_values U (upper U (strip line))) as Hf.
  destruct (classify U (strip line) (upper U (strip line))) as [a b].
  cbn [fst snd] in H. inversion H; subst. split; assumption.
Qed.

Lemma result_in_closed_sets_witness :
  In (u "Chamfer", u "VMS/IMM") type_table /\ In (u "") flag_values.
Proof.
  apply (result_in_closed_sets latin1_only (u "2 x 45°") _ (Some (2 # 1)) (u "±0.10")).
  vm_compute. reflexivity.
Defined.

(** X7: the tolerance of every result is not empty and holds no space:
    it is the default or a capture that starts with a sign, with its
    spaces removed. *)
Theorem tolerance_never_empty : forall U line d v t ty i,
  parse_dimension U line = Ok (d, v, t, ty, i) ->
  t <> [] /\ has_char 32 t = false.
Proof.
  intros U line d v t ty i H.
  destruct (parse_dimension_shape U line) as (v' & t' & _ & Ht & Hp).
  rewrite Hp in H. inversion H; subst.
  destruct (tol_loop_value U _ _ _ _ (tol_patterns_sign_led U) Ht) as [-> | Hok].
  - split; [discriminate | reflexivity].
  - exact Hok.
Qed.

Lemma tolerance_never_empty_witness :
  u "±0.5" <> [] /\ has_char 32 (u "±0.5") = false.
Proof.
  apply (tolerance_never_empty latin1_only (u "12 ±  0.5") (u "Length")
           (Some (1 # 2)) (u "±0.5") (u "") (u "DVC")).
  vm_compute. reflexivity.
Defined.

(** X8: the nominal value is absent exactly when the trimmed text holds no
    decimal digit, and a nominal value is never negative: a sign before the
    number is not part of what is read. *)
Theorem nominal_present_iff_digit : forall U line d v t ty i,
  parse_dimension U line = Ok (d, v, t, ty, i) ->
  (v = None <-> forallb (fun c => negb (is_digit U c)) (strip line) = true) /\
  (forall q, v = Some q -> (0 <= q)%Q).
Proof.
  intros U line d v t ty i H.
  destruct (parse_dimension_shape U line) as (v' & t' & Hv & _ & Hp).
  rewrite Hp in H. inversion H; subst.
  apply nominal_loop_value. exact Hv.
Qed.

Lemma nominal_present_iff_digit_witness :
  (Some (5 # 1) = None <->
   forallb (fun c => negb (is_digit latin1_only c)) (strip (u "-5")) = true) /\
  (forall q, Some (5 # 1) = Some q -> (0 <= q)%Q).
Proof.
  apply (nominal_present_iff_digit latin1_only (u "-5") (u "Length")
           (Some (5 # 1)) (u "-5") (u "") (u "DVC")).
  vm_compute. reflexivity.
Defined.

(** X9: blanks around the text do not change the result. *)
Theorem parse_dimension_padding : forall U a t b,
  forallb is_space a = true -> forallb is_space b = true ->
  parse_dimension U (a ++ t ++ b) = parse_dimension U t.
Proof.
  intros U a t b Ha Hb. unfold parse_dimension.
  rewrite (strip_padding a t b Ha Hb). reflexivity.
Qed.

Lemma parse_dimension_padding_witness :
  parse_dimension latin1_only (u "  " ++ u "Ø12.0 ±0.05 S" ++ [9; 10]) =
  parse_dimension latin1_only (u "Ø12.0 ±0.05 S").
Proof.
  apply (parse_dimension_padding latin1_only (u "  ") (u "Ø12.0 ±0.05 S") [9; 10]);
    reflexivity.
Defined.

(** X10: a text that, once trimmed, starts with "R" is classified as
    Diameter or as Radius and nothing else; a roughness callout that starts
    with "Ra", "Rz" or "Rt", or a text that starts with "RUNOUT", is not
    recognised as such. *)
Theorem leading_R_is_radius : forall U line d v t ty i,
  parse_dimension U line = Ok (d, v, t, ty, i) ->
  startswith (strip line) (u "R") = true ->
  (d = u "Diameter" /\ i = u "DVC") \/ (d = u "Radius" /\ i = u "VMS/IMM").
Proof.
  intros U line d v t ty i H HR.
  destruct (parse_dimension_shape U line) as (v' & t' & _ & _ & Hp).
  rewrite Hp in H. unfold classify in H.
  destruct (diameter_rule (strip line) (upper U (strip line))).
  - cbn [fst snd] in H. inversion H; subst. left. split; reflexivity.
  - unfold radius_rule in H. rewrite HR in H. cbn [orb fst snd] in H.
    inversion H; subst. right. split; reflexivity.
Qed.

Lemma leading_R_is_radius_witness :
  (u "Radius" = u "Diameter" /\ u "VMS/IMM" = u "DVC") \/
  (u "Radius" = u "Radius" /\ u "VMS/IMM" = u "VMS/IMM").
Proof.
  apply (leading_R_is_radius latin1_only (u "Ra 3.2") (u "Radius")
           (Some (16 # 5)) (u "±0.10") (u "") (u "VMS/IMM")).
  - vm_compute. reflexivity.
  - reflexivity.
Defined.

(** ** Lines that give a row, lines that give none *)

Section Lines.

Variable U : unicode_tables.

Lemma paren_pattern_no_paren : forall L,
  head_outside (is_digit U) L ->
  (forall rest, L = 40 :: rest -> head_outside (is_digit U) rest) ->
  re_match U (paren_pattern U) L = None.
Proof.
  intros L _ H. unfold re_match, paren_pattern. cbn [m].
  destruct L as [|c L]; [reflexivity|].
  destruct (40 =? c) eqn:E; [|reflexivity].
  apply N.eqb_eq in E. subst c.
  rewrite rep_head_fail; [reflexivity | lia | apply H; reflexivity].
Qed.

Lemma py_int_digits : forall D,
  D <> [] -> forallb (is_digit U) D = true ->
  (List.length D <= int_max_str_digits)%nat ->
  exists num, digits_value U 0 D = Some num /\ py_int U D = Ok (Z.of_N num).
Proof.
  intros D H0 HD Hmax. destruct D as [|c D]; [congruence|].
  assert (Hc : is_digit U c = true).
  { simpl in HD. apply andb_true_iff in HD. tauto. }
  pose proof (digit_ge_48 U c Hc) as Hge.
  destruct (digits_value_digits U (c :: D) 0 HD) as [num Hnum].
  exists num. split; [exact Hnum|]. unfold py_int.
  assert (Hs : strip_num (c :: D) = c :: D).
  { unfold strip_num. cbn [lstrip_num]. rewrite (digit_not_num_space U c Hc).
    apply (rstrip_num_digits U). exact HD. }
  rewrite Hs. unfold split_sign.
  replace (c =? 43) with false by (symmetry; apply N.eqb_neq; lia).
  replace (c =? 45) with false by (symmetry; apply N.eqb_neq; lia).
  rewrite Hnum. apply Nat.leb_le in Hmax. rewrite Hmax. reflexivity.
Qed.

Lemma lstrip_fixed_head : forall s, lstrip s = s -> head_outside is_space s.
Proof.
  intros s H. destruct s as [|c s]; [exact I|]. simpl.
  destruct (is_space c) eqn:E; [|reflexivity]. exfalso.
  simpl in H. rewrite E in H. pose proof (lstrip_length s) as Hl.
  rewrite H in Hl. simpl in Hl. lia.
Qed.

Lemma strip_fixed_facts : forall R,
  strip R = R -> head_outside is_space R /\ rstrip R = R.
Proof.
  intros R H. split.
  - apply lstrip_fixed_head. rewrite <- H. apply lstrip_strip.
  - rewrite <- H. apply rstrip_strip.
Qed.

(** A line whose first character is not blank and whose end is a
    right-trimmed text is its own [strip]. *)
Lemma strip_line_fixed : forall c a R,
  is_space c = false -> rstrip R = R -> R <> [] ->
  strip (c :: a ++ R) = c :: a ++ R.
Proof.
  intros c a R Hc HR H0. unfold strip. cbn [lstrip]. rewrite Hc.
  change (c :: a ++ R) with ((c :: a) ++ R). rewrite rstrip_app, HR.
  destruct R; [congruence | reflexivity].
Qed.

(** The row made from a match whose first group is a run of digits and
    whose second group is a trimmed text of two characters or more. *)
Lemma balloon_try_row_made : forall mt n D R,
  group mt 1 = Ok D -> D <> [] -> forallb (is_digit U) D = true ->
  (List.length D <= int_max_str_digits)%nat ->
  group mt 2 = Ok R -> strip R = R -> (2 <= List.length R)%nat ->
  exists num res5,
    digits_value U 0 D = Some num /\ parse_dimension U R = Ok res5 /\
    balloon_try U mt n = Ok (Some (row_of (Z.of_N num) res5 n)).
Proof.
  intros mt n D R Hg1 H0 HD Hmax Hg2 HR Hlen.
  destruct (py_int_digits D H0 HD Hmax) as (num & Hnum & Hint).
  destruct (parse_dimension_shape U R) as (v & t & _ & _ & Hp).
  rewrite HR in Hp.
  exists num. eexists. split; [exact Hnum|]. split; [exact Hp|].
  unfold balloon_try. rewrite Hg1. cbn [bind]. rewrite Hint. cbn [bind].
  rewrite Hg2. cbn [bind]. rewrite HR.
  replace (1 <? List.length R)%nat with true by (symmetry; apply Nat.ltb_lt; lia).
  destruct R as [|c R']; [simpl in Hlen; lia|]. cbn [str_eqb negb andb].
  rewrite Hp. reflexivity.
Qed.

Lemma process_line_row : forall data n line L r,
  strip line = L -> L <> [] ->
  balloon_loop U (balloon_patterns U) L n = Ok (Some r) ->
  process_line U data n line = Ok (data ++ [r]).
Proof.
  intros data n line L r HL H0 H. unfold process_line. rewrite HL.
  destruct L as [|c L]; [congruence|]. rewrite H. reflexivity.
Qed.

Lemma ws_pattern_groups : forall D W R,
  D <> [] -> forallb (is_digit U) D = true ->
  W <> [] -> forallb is_space W = true ->
  head_outside is_space R -> R <> [] -> forallb any_char R = true ->
  exists mt, re_match U (ws_pattern U) (D ++ W ++ R) = Some mt /\
             group mt 1 = Ok D /\ group mt 2 = Ok R.
Proof.
  intros D W R HD0 HD HW0 HW HhR HR0 HR.
  assert (HhW : head_outside (is_digit U) (W ++ R)).
  { destruct W as [|w W]; [congruence|]. simpl in HW |- *.
    apply andb_true_iff in HW. apply space_not_digit. tauto. }
  assert (Hm : exists e c,
             m U (ws_pattern U) None 0 (D ++ W ++ R) [] = Some (e, c) /\
             lookup 1 c = Some (0%nat, (0 + List.length D)%nat) /\
             lookup 2 c = Some ((0 + List.length D + List.length W)%nat,
                                (0 + List.length D + List.length W + List.length R)%nat)).
  { unfold ws_pattern. cbn [m]. do 2 eexists. split.
    - apply rep_greedy; [exact HD | exact HhW | destruct D; [congruence | simpl; lia] |].
      cbn [m]. apply rep_greedy;
        [exact HW | exact HhR | destruct W; [congruence | simpl; lia] |].
      cbn [m]. apply rep_greedy_all;
        [exact HR | destruct R; [congruence | simpl; lia] |].
      cbn [m]. reflexivity.
    - split; reflexivity. }
  destruct Hm as (e & c & Hm & Hl1 & Hl2).
  unfold re_match. rewrite Hm. eexists. split; [reflexivity|].
  unfold group. cbn [mo_caps mo_string]. rewrite Hl1, Hl2. split; f_equal.
  - apply (substring_at [] D (W ++ R)); simpl; lia.
  - rewrite app_assoc. rewrite <- (app_nil_r R) at 1.
    apply substring_at; rewrite ?length_app; lia.
Qed.

Lemma sep_pattern_groups : forall D x W R,
  D <> [] -> forallb (is_digit U) D = true ->
  one_of [46; 45; 58] x = true ->
  forallb is_space W = true -> head_outside is_space R ->
  R <> [] -> forallb any_char R = true ->
  exists mt, re_match U (sep_pattern U) (D ++ x :: W ++ R) = Some mt /\
             group mt 1 = Ok D /\ group mt 2 = Ok R.
Proof.
  intros D x W R HD0 HD Hx HW HhR HR0 HR.
  destruct (sep_facts U x Hx) as (Hxd & _ & _).
  assert (Hm : exists e c,
             m U (sep_pattern U) None 0 (D ++ x :: W ++ R) [] = Some (e, c) /\
             lookup 1 c = Some (0%nat, (0 + List.length D)%nat) /\
             lookup 2 c = Some ((S (0 + List.length D) + List.length W)%nat,
                                (S (0 + List.length D) + List.length W + List.length R)%nat)).
  { unfold sep_pattern. cbn [m]. do 2 eexists. split.
    - apply rep_greedy; [exact HD | exact Hxd | destruct D; [congruence | simpl; lia] |].
      cbn [m]. rewrite Hx. apply rep_greedy; [exact HW | exact HhR | lia |].
      cbn [m]. apply rep_greedy_all;
        [exact HR | destruct R; [congruence | simpl; lia] |].
      cbn [m]. reflexivity.
    - split; reflexivity. }
  destruct Hm as (e & c & Hm & Hl1 & Hl2).
  unfold re_match. rewrite Hm. eexists. split; [reflexivity|].
  unfold group. cbn [mo_caps mo_string]. rewrite Hl1, Hl2. split; f_equal.
  - apply (substring_at [] D (x :: W ++ R)); simpl; lia.
  - replace (D ++ x :: W ++ R) with ((D ++ x :: W) ++ R ++ [])
      by (rewrite app_nil_r, <- app_assoc; reflexivity).
    apply substring_at; rewrite ?length_app; simpl; lia.
Qed.

Lemma paren_pattern_groups : forall D W R,
  D <> [] -> forallb (is_digit U) D = true ->
  forallb is_space W = true -> head_outside is_space R ->
  R <> [] -> forallb any_char R = true ->
  exists mt, re_match U (paren_pattern U) (40 :: D ++ 41 :: W ++ R) = Some mt /\
             group mt 1 = Ok D /\ group mt 2 = Ok R.
Proof.
  intros D W R HD0 HD HW HhR HR0 HR.
  assert (Hm : exists e c,
             m U (paren_pattern U) None 0 (40 :: D ++ 41 :: W ++ R) [] = Some (e, c) /\
             lookup 1 c = Some (1%nat, (1 + List.length D)%nat) /\
             lookup 2 c = Some ((S (1 + List.length D) + List.length W)%nat,
                                (S (1 + List.length D) + List.length W + List.length R)%nat)).
  { unfold paren_pattern. cbn [m]. change (40 =? 40) with true. cbv iota.
    do 2 eexists. split.
    - apply rep_greedy; [exact HD | reflexivity | destruct D; [congruence | simpl; lia] |].
      cbn [m]. change (41 =? 41) with true. cbv iota.
      apply rep_greedy; [exact HW | exact HhR | lia |].
      cbn [m]. apply rep_greedy_all;
        [exact HR | destruct R; [congruence | simpl; lia] |].
      cbn [m]. reflexivity.
    - split; reflexivity. }
  destruct Hm as (e & c & Hm & Hl1 & Hl2).
  unfold re_match. rewrite Hm. eexists. split; [reflexivity|].
  unfold group. cbn [mo_caps mo_string]. rewrite Hl1, Hl2. split; f_equal.
  - apply (substring_at [40] D (41 :: W ++ R)); simpl; lia.
  - replace (40 :: D ++ 41 :: W ++ R) with ((40 :: D ++ 41 :: W) ++ R ++ [])
      by (rewrite app_nil_r; cbn [app]; rewrite <- app_assoc; reflexivity).
    apply substring_at; simpl; rewrite ?length_app; simpl; lia.
Qed.

Lemma text_facts : forall R,
  strip R = R -> has_char 10 R = false -> (2 <= List.length R)%nat ->
  head_outside is_space R /\ rstrip R = R /\ R <> [] /\ forallb any_char R = true.
Proof.
  intros R HR Hn Hlen. destruct (strip_fixed_facts R HR) as [Hh Hr].
  repeat split; auto.
  - intros ->. simpl in Hlen. lia.
  - apply no_newline_any. exact Hn.
Qed.

End Lines.

(** X11: a line that, once trimmed, starts neither with a digit nor with
    "(" and a digit adds no row. *)
Theorem no_leading_number : forall U data n line,
  head_outside (is_digit U) (strip line) ->
  (forall rest, strip line = 40 :: rest -> head_outside (is_digit U) rest) ->
  process_line U data n line = Ok data.
Proof.
  intros U data n line Hd Hp. unfold process_line.
  destruct (strip line) as [|c l] eqn:EL; [reflexivity|].
  rewrite balloon_loop_skip; [reflexivity|].
  rewrite balloon_patterns_named. apply Forall_four; left.
  - apply ws_pattern_no_digit. exact Hd.
  - apply paren_pattern_no_paren; assumption.
  - apply sep_pattern_no_digit. exact Hd.
  - apply loose_pattern_no_digit. exact Hd.
Qed.

Lemma no_leading_number_witness :
  process_line latin1_only [] 1 (u " Overall length") = Ok [] /\
  process_line latin1_only [] 1 (u "(a) 12.5") = Ok [].
Proof.
  split.
  - apply (no_leading_number latin1_only [] 1 (u " Overall length")).
    + reflexivity.
    + intros rest H. vm_compute in H. discriminate.
  - apply (no_leading_number latin1_only [] 1 (u "(a) 12.5")).
    + reflexivity.
    + intros rest H. vm_compute in H. inversion H. reflexivity.
Defined.

(** X12: a line made of an integer of at most [int_max_str_digits]
    digits, blanks and a trimmed text of two characters or more without a
    newline adds exactly one row; its item number is the integer and its
    other fields are what [parse_dimension] gives on the text. *)
Theorem leading_integer_line : forall U data n D W R,
  D <> [] -> forallb (is_digit U) D = true ->
  (List.length D <= int_max_str_digits)%nat ->
  W <> [] -> forallb is_space W = true ->
  strip R = R -> has_char 10 R = false -> (2 <= List.length R)%nat ->
  exists num res5,
    digits_value U 0 D = Some num /\ parse_dimension U R = Ok res5 /\
    process_line U data n (D ++ W ++ R) = Ok (data ++ [row_of (Z.of_N num) res5 n]).
Proof.
  intros U data n D W R HD0 HD Hmax HW0 HW HR Hn Hlen.
  destruct (text_facts R HR Hn Hlen) as (HhR & HRr & HR0 & HRany).
  destruct (ws_pattern_groups U D W R) as (mt & Hm & Hg1 & Hg2); try assumption.
  destruct (balloon_try_row_made U mt n D R) as (num & res5 & Hnum & Hp & Ht);
    try assumption.
  exists num, res5. split; [exact Hnum|]. split; [exact Hp|].
  destruct D as [|c D']; [congruence|].
  assert (Hc : is_digit U c = true).
  { simpl in HD. apply andb_true_iff in HD. tauto. }
  apply (process_line_row U data n _ ((c :: D') ++ W ++ R)).
  - replace ((c :: D') ++ W ++ R) with (c :: (D' ++ W) ++ R)
      by (cbn [app]; rewrite <- app_assoc; reflexivity).
    apply strip_line_fixed; [apply (digit_not_space U); exact Hc | exact HRr | exact HR0].
  - discriminate.
  - rewrite balloon_patterns_named. cbn [balloon_loop]. rewrite Hm, Ht. reflexivity.
Qed.

Lemma leading_integer_line_witness :
  exists num res5,
    digits_value latin1_only 0 (u "12") = Some num /\
    parse_dimension latin1_only (u "Overall length") = Ok res5 /\
    process_line latin1_only [] 3 (u "12" ++ u "  " ++ u "Overall length") =
      Ok ([] ++ [row_of (Z.of_N num) res5 3]).
Proof.
  apply (leading_integer_line latin1_only [] 3 (u "12") (u "  ") (u "Overall length"));
    try reflexivity; try discriminate.
  all: vm_compute; lia.
Defined.

(** X13: a line made of an integer of at most [int_max_str_digits]
    digits, one of ".", "-", ":", optional blanks and such a text adds
    exactly one row with that item number. *)
Theorem separator_line : forall U data n D x W R,
  D <> [] -> forallb (is_digit U) D = true ->
  (List.length D <= int_max_str_digits)%nat ->
  one_of [46; 45; 58] x = true -> forallb is_space W = true ->
  strip R = R -> has_char 10 R = false -> (2 <= List.length R)%nat ->
  exists num res5,
    digits_value U 0 D = Some num /\ parse_dimension U R = Ok res5 /\
    process_line U data n (D ++ x :: W ++ R) = Ok (data ++ [row_of (Z.of_N num) res5 n]).
Proof.
  intros U data n D x W R HD0 HD Hmax Hx HW HR Hn Hlen.
  destruct (text_facts R HR Hn Hlen) as (HhR & HRr & HR0 & HRany).
  destruct (sep_facts U x Hx) as (Hxd & Hxs & _).
  destruct (sep_pattern_groups U D x W R) as (mt & Hm & Hg1 & Hg2); try assumption.
  destruct (balloon_try_row_made U mt n D R) as (num & res5 & Hnum & Hp & Ht);
    try assumption.
  exists num, res5. split; [exact Hnum|]. split; [exact Hp|].
  destruct D as [|c D']; [congruence|].
  assert (Hc : is_digit U c = true).
  { simpl in HD. apply andb_true_iff in HD. tauto. }
  apply (process_line_row U data n _ ((c :: D') ++ x :: W ++ R)).
  - replace ((c :: D') ++ x :: W ++ R) with (c :: (D' ++ x :: W) ++ R)
      by (cbn [app]; rewrite <- app_assoc; reflexivity).
    apply strip_line_fixed; [apply (digit_not_space U); exact Hc | exact HRr | exact HR0].
  - discriminate.
  - rewrite balloon_patterns_named. cbn [balloon_loop].
    rewrite (ws_pattern_no_space U (c :: D') (x :: W ++ R)) by assumption.
    change ((c :: D') ++ x :: W ++ R) with (c :: (D' ++ x :: W ++ R)) at 1.
    rewrite (paren_pattern_digit U c _ Hc).
    rewrite Hm, Ht. reflexivity.
Qed.

Lemma separator_line_witness :
  exists num res5,
    digits_value latin1_only 0 (u "12") = Some num /\
    parse_dimension latin1_only (u "Ø8 H7") = Ok res5 /\
    process_line latin1_only [] 3 (u "12" ++ 46 :: u " " ++ u "Ø8 H7") =
      Ok ([] ++ [row_of (Z.of_N num) res5 3]).
Proof.
  apply (separator_line latin1_only [] 3 (u "12") 46 (u " ") (u "Ø8 H7"));
    try reflexivity; try discriminate.
  all: vm_compute; lia.
Defined.

(** X14: a line made of an integer of at most [int_max_str_digits]
    digits in parentheses, optional blanks and such a text adds exactly one
    row with that item number. *)
Theorem parenthesised_line : forall U data n D W R,
  D <> [] -> forallb (is_digit U) D = true ->
  (List.length D <= int_max_str_digits)%nat ->
  forallb is_space W = true ->
  strip R = R -> has_char 10 R = false -> (2 <= List.length R)%nat ->
  exists num res5,
    digits_value U 0 D = Some num /\ parse_dimension U R = Ok res5 /\
    process_line U data n (40 :: D ++ 41 :: W ++ R) =
      Ok (data ++ [row_of (Z.of_N num) res5 n]).
Proof.
  intros U data n D W R HD0 HD Hmax HW HR Hn Hlen.
  destruct (text_facts R HR Hn Hlen) as (HhR & HRr & HR0 & HRany).
  destruct (paren_pattern_groups U D W R) as (mt & Hm & Hg1 & Hg2); try assumption.
  destruct (balloon_try_row_made U mt n D R) as (num & res5 & Hnum & Hp & Ht);
    try assumption.
  exists num, res5. split; [exact Hnum|]. split; [exact Hp|].
  apply (process_line_row U data n _ (40 :: D ++ 41 :: W ++ R)).
  - replace (40 :: D ++ 41 :: W ++ R) with (40 :: (D ++ 41 :: W) ++ R)
      by (rewrite <- app_assoc; reflexivity).
    apply strip_line_fixed; [reflexivity | exact HRr | exact HR0].
  - discriminate.
  - rewrite balloon_patterns_named. cbn [balloon_loop].
    rewrite (ws_pattern_no_digit U (40 :: D ++ 41 :: W ++ R)) by reflexivity.
    rewrite Hm, Ht. reflexivity.
Qed.

Lemma parenthesised_line_witness :
  exists num res5,
    digits_value latin1_only 0 (u "12") = Some num /\
    parse_dimension latin1_only (u "R5.0") = Ok res5 /\
    process_line latin1_only [] 3 (40 :: u "12" ++ 41 :: [] ++ u "R5.0") =
      Ok ([] ++ [row_of (Z.of_N num) res5 3]).
Proof.
  apply (parenthesised_line latin1_only [] 3 (u "12") [] (u "R5.0"));
    try reflexivity; try discriminate.
  all: vm_compute; lia.
Defined.

(** ** The name of the export *)

Lemma split_all_head : forall sep s,
  exists stem rest,
    hd [] (split_all sep s) = stem /\ has_char sep stem = false /\
    (s = stem \/ s = stem ++ sep :: rest).
Proof.
  intros sep s. unfold has_char. induction s as [|c s IH]; cbn [split_all].
  - exists [], []. auto.
  - destruct (c =? sep) eqn:E.
    + apply N.eqb_eq in E. subst c. exists [], s. cbn [hd existsb app]. auto.
    + destruct IH as (stem & rest & Hh & Hs & Hor).
      exists (c :: stem), rest.
      destruct (split_all sep s) as [|w ws] eqn:Es.
      * cbn [hd] in Hh |- *. subst stem. cbn [existsb].
        rewrite N.eqb_sym, E. split; [reflexivity|]. split; [reflexivity|].
        destruct Hor as [-> | ->]; [left | right]; reflexivity.
      * cbn [hd] in Hh |- *. subst stem. cbn [existsb].
        rewrite N.eqb_sym, E, Hs. split; [reflexivity|]. split; [reflexivity|].
        destruct Hor as [-> | ->]; [left | right]; reflexivity.
Qed.

(** X15: the name of the export is "extracted_dimensions_", the part of
    the uploaded file's name before its first dot, and ".xlsx"; that part
    holds no dot, and what follows the first dot of the name is dropped. *)
Theorem download_file_name_stem : forall name,
  exists stem rest,
    download_file_name name = u "extracted_dimensions_" ++ stem ++ u ".xlsx" /\
    has_char 46 stem = false /\
    (name = stem \/ name = stem ++ 46 :: rest).
Proof.
  intros name. destruct (split_all_head 46 name) as (stem & rest & Hh & Hs & Hor).
  exists stem, rest. unfold download_file_name. rewrite Hh. auto.
Qed.

(** ** The leftmost decimal number *)

Section DecimalFirst.

Variable U : unicode_tables.

Lemma decimal_search_skip : forall pre whole rest prev pos,
  has_char 46 pre = false ->
  (forall a c, pre = a ++ [c] -> is_digit U c = false) ->
  exists prev',
    search_from U [Open 1; Rep (is_digit U) 1; Chr (N.eqb 46); Rep (is_digit U) 1; Close 1]
      whole prev pos (pre ++ rest) =
    search_from U [Open 1; Rep (is_digit U) 1; Chr (N.eqb 46); Rep (is_digit U) 1; Close 1]
      whole prev' (pos + List.length pre)%nat rest.
Proof.
  induction pre as [|c pre IH]; intros whole rest prev pos Hdot Hend.
  - exists prev. simpl. rewrite Nat.add_0_r. reflexivity.
  - assert (Hdot' : (46 =? c) = false /\ has_char 46 pre = false).
    { unfold has_char in Hdot. cbn [existsb] in Hdot.
      apply orb_false_iff in Hdot. exact Hdot. }
    destruct Hdot' as [Hc Hdot'].
    assert (Hend' : forall a x, pre = a ++ [x] -> is_digit U x = false).
    { intros a x ->. apply (Hend (c :: a) x). reflexivity. }
    destruct (IH whole rest (Some c) (S pos) Hdot' Hend') as [prev' Hrec].
    exists prev'. change ((c :: pre) ++ rest) with (c :: (pre ++ rest)).
    cbn [search_from].
    assert (Hfail : m U [Open 1; Rep (is_digit U) 1; Chr (N.eqb 46);
                         Rep (is_digit U) 1; Close 1] prev pos (c :: pre ++ rest) [] = None).
    { cbn [m].
      destruct (span (is_digit U) (c :: pre)) as [a b] eqn:Es.
      destruct (span_spec _ _ _ _ Es) as (Hab & Ha & Hb).
      destruct b as [|y b].
      - exfalso. rewrite app_nil_r in Hab. subst a.
        destruct (exists_last (l := c :: pre)) as (a' & x & Hx); [discriminate|].
        rewrite Hx in Ha. rewrite forallb_app in Ha. apply andb_true_iff in Ha.
        destruct Ha as [_ Ha]. simpl in Ha. rewrite (Hend a' x Hx) in Ha. discriminate.
      - change (c :: pre ++ rest) with ((c :: pre) ++ rest).
        rewrite Hab, <- app_assoc. apply rep_run_fail; [exact Ha | exact Hb |].
        intros D2 prev1 pos1 HD2. cbn [m].
        assert (Hy : (46 =? y) = false).
        { assert (Hin : has_char 46 (c :: pre) = false).
          { unfold has_char. cbn [existsb]. rewrite Hc. exact Hdot'. }
          rewrite Hab, has_char_app in Hin. apply orb_false_iff in Hin.
          destruct Hin as [_ Hin]. unfold has_char in Hin. cbn [existsb] in Hin.
          apply orb_false_iff in Hin. tauto. }
        destruct D2 as [|z D2]; cbn [app].
        + rewrite Hy. reflexivity.
        + simpl in HD2. apply andb_true_iff in HD2. destruct HD2 as [Hz _].
          pose proof (digit_ge_48 U z Hz).
          replace (46 =? z) with false by (symmetry; apply N.eqb_neq; lia).
          reflexivity. }
    rewrite Hfail. rewrite Hrec. simpl List.length. rewrite Nat.add_succ_r. reflexivity.
Qed.

Lemma decimal_search_found : forall pre D1 D2 post,
  has_char 46 pre = false ->
  (forall a c, pre = a ++ [c] -> is_digit U c = false) ->
  D1 <> [] -> D2 <> [] ->
  forallb (is_digit U) D1 = true -> forallb (is_digit U) D2 = true ->
  head_outside (is_digit U) post ->
  exists mo,
    re_search U [Open 1; Rep (is_digit U) 1; Chr (N.eqb 46); Rep (is_digit U) 1; Close 1]
              (pre ++ D1 ++ 46 :: D2 ++ post) = Some mo /\
    group mo 1 = Ok (D1 ++ 46 :: D2).
Proof.
  intros pre D1 D2 post Hdot Hend H1 H2 HD1 HD2 Hpost. unfold re_search.
  destruct (decimal_search_skip pre (pre ++ D1 ++ 46 :: D2 ++ post)
              (D1 ++ 46 :: D2 ++ post) None 0%nat Hdot Hend) as [prev' ->].
  assert (Hm : exists e c,
             m U [Open 1; Rep (is_digit U) 1; Chr (N.eqb 46); Rep (is_digit U) 1; Close 1]
               prev' (0 + List.length pre)%nat (D1 ++ 46 :: D2 ++ post) [] = Some (e, c) /\
             lookup 1 c = Some ((0 + List.length pre)%nat,
                                (S (0 + List.length pre + List.length D1)
                                 + List.length D2)%nat)).
  { cbn [m]. do 2 eexists. split.
    - apply rep_greedy; [exact HD1 | reflexivity | destruct D1; [congruence | simpl; lia] |].
      cbn [m]. change (46 =? 46) with true. cbv iota.
      apply rep_greedy; [exact HD2 | exact Hpost | destruct D2; [congruence | simpl; lia] |].
      cbn [m]. reflexivity.
    - reflexivity. }
  destruct Hm as (e & c & Hm & Hl).
  destruct D1 as [|d1 D1']; [congruence|]. cbn [app] in Hm |- *. cbn [search_from].
  rewrite Hm. eexists. split; [reflexivity|].
  unfold group. cbn [mo_caps mo_string]. rewrite Hl. f_equal.
  change (d1 :: D1' ++ 46 :: D2 ++ post) with ((d1 :: D1') ++ (46 :: D2) ++ post).
  rewrite (app_assoc (d1 :: D1')).
  apply (substring_at pre ((d1 :: D1') ++ 46 :: D2) post);
    rewrite ?length_app; simpl; lia.
Qed.

End DecimalFirst.

(** X16: in a trimmed text, a decimal number that has no point before it
    and stands after a character that is not a digit gives the nominal
    value, also when integers stand before it: "25 ±0.1" has the nominal
    value 0.1. *)
Theorem nominal_prefers_decimal : forall U pre D1 D2 post,
  strip (pre ++ D1 ++ 46 :: D2 ++ post) = pre ++ D1 ++ 46 :: D2 ++ post ->
  has_char 46 pre = false ->
  (forall a c, pre = a ++ [c] -> is_digit U c = false) ->
  D1 <> [] -> D2 <> [] ->
  forallb (is_digit U) D1 = true -> forallb (is_digit U) D2 = true ->
  head_outside (is_digit U) post ->
  exists q d t ty i,
    nominal_of_capture U (D1 ++ 46 :: D2) = Ok q /\
    parse_dimension U (pre ++ D1 ++ 46 :: D2 ++ post) = Ok (d, Some q, t, ty, i).
Proof.
  intros U pre D1 D2 post Hs Hdot Hend H1 H2 HD1 HD2 Hpost.
  destruct (parse_dimension_shape U (pre ++ D1 ++ 46 :: D2 ++ post))
    as (v & t & Hv & _ & Hp).
  rewrite Hs in Hv.
  destruct (decimal_search_found U pre D1 D2 post) as (mo & Hmo & Hg); try assumption.
  destruct (decimal_converts U D1 D2 H1 H2 HD1 HD2) as (q & Hq & _).
  rewrite nominal_patterns_eq in Hv. cbn [nominal_loop] in Hv.
  unfold str, char in *.
  rewrite Hmo, Hg in Hv. cbn [bind] in Hv. rewrite Hq in Hv.
  assert (Hvq : v = Some q) by congruence. subst v.
  exists q. do 4 eexists. split; [exact Hq | exact Hp].
Qed.

Lemma nominal_prefers_decimal_witness :
  exists q d t ty i,
    nominal_of_capture latin1_only (u "0" ++ 46 :: u "1") = Ok q /\
    parse_dimension latin1_only (u "25 ±" ++ u "0" ++ 46 :: u "1" ++ u " C") =
      Ok (d, Some q, t, ty, i).
Proof.
  apply (nominal_prefers_decimal latin1_only (u "25 ±") (u "0") (u "1") (u " C"));
    try reflexivity; try discriminate.
  intros a c H.
  destruct a as [|a0 [|a1 [|a2 [|a3 [|a4 a]]]]]; simpl in H; inversion H; subst;
    try reflexivity; destruct a; discriminate.
Defined.

(** ** Rows in page order *)

Section PageOrder.

Variable U : unicode_tables.

Lemma commit_per_page_parts : forall doc n found,
  exists parts,
    List.length parts = List.length doc /\
    commit_per_page U doc n found = List.concat parts /\
    (forall k part r, nth_error parts k = Some part -> In r part ->
       page_ref r = u "Page " ++ str_of_nat (n + k)).
Proof.
  induction doc as [|p rest IH]; intros n found; cbn [commit_per_page].
  - exists []. repeat split; auto. intros k part r H. destruct k; discriminate.
  - cbv zeta.
    set (data := if found then records U text n p
                 else first_productive U text_methods n p).
    destruct (IH (S n) (found || match data with [] => false | _ => true end))
      as (parts & Hlen & Hc & Hrows).
    exists (data :: parts). split; [simpl; lia|]. split.
    + cbn [List.concat]. rewrite Hc. reflexivity.
    + intros k part r Hk Hr. destruct k as [|k].
      * simpl in Hk. inversion Hk; subst part. rewrite Nat.add_0_r.
        assert (Hs : exists mt, balloon_try U mt n = Ok (Some r)).
        { unfold data in Hr.
          destruct found; [eapply records_source | eapply first_productive_source]; eauto. }
        destruct Hs as [mt Hs].
        destruct (balloon_try_fields U _ _ _ Hs) as (g & z & tx & _ & _ & _ & _ & _ & Hrow).
        rewrite Hrow. reflexivity.
      * simpl in Hk. rewrite Nat.add_succ_r. apply (Hrows k part r Hk Hr).
Qed.

End PageOrder.

(** X17: the result lists the rows page after page: it is the
    concatenation of one list of rows per page, in the order of the pages,
    and the rows of the k-th list carry the reference "Page k". *)
Theorem rows_in_page_order : forall U doc,
  exists parts,
    List.length parts = List.length doc /\
    extract_dimensions_from_pdf U doc = Ok (List.concat parts) /\
    (forall k part r, nth_error parts k = Some part -> In r part ->
       page_ref r = u "Page " ++ str_of_nat (S k)).
Proof.
  intros U doc. destruct (commit_per_page_parts U doc 1 false) as (parts & Hl & Hc & Hr).
  exists parts. split; [exact Hl|]. split.
  - rewrite extract_is_commit_per_page, Hc. reflexivity.
  - exact Hr.
Qed.

(** ** The lines of the span strategy *)

Lemma span_lines_trimmed : forall sp l,
  In l (span_lines sp) -> l <> [] /\ strip l = l.
Proof.
  intros sp l H. unfold span_lines in H. destruct sp as [t|]; [|destruct H].
  destruct (strip t) as [|c r] eqn:E; [destruct H|].
  destruct H as [<-|[]]. split; [discriminate|].
  rewrite <- E. unfold strip at 1. rewrite lstrip_strip. apply rstrip_strip.
Qed.

(** X18: every line the span strategy delivers is a trimmed, non-empty
    text; blocks without lines, lines without spans and spans without text
    or with blank text deliver nothing. *)
Theorem dict_lines_trimmed : forall p l,
  In l (lines_of dict p) -> l <> [] /\ strip l = l.
Proof.
  intros p l H. cbn [lines_of] in H.
  apply in_flat_map in H. destruct H as (block & _ & H).
  destruct (lines block) as [ls|]; [|destruct H].
  apply in_flat_map in H. destruct H as (line & _ & H).
  apply in_flat_map in H. destruct H as (sp & _ & H).
  eapply span_lines_trimmed; eauto.
Qed.

Lemma dict_lines_trimmed_witness :
  u "1 ab" <> [] /\ strip (u "1 ab") = u "1 ab".
Proof.
  apply (dict_lines_trimmed (span_page "  1 ab ") (u "1 ab")).
  left. reflexivity.
Defined.

Section DigitsOnly.

Variable U : unicode_tables.

Lemma digit_any_char : forall x, is_digit U x = true -> any_char x = true.
Proof.
  intros x H. pose proof (digit_ge_48 U x H). unfold any_char.
  replace (x =? 10) with false by (symmetry; apply N.eqb_neq; lia). reflexivity.
Qed.

Lemma digit_not_outside : forall x, is_digit U x = true -> outside U x = false.
Proof. intros x H. unfold outside. rewrite H. reflexivity. Qed.

Lemma loose_pattern_one_digit : forall x,
  is_digit U x = true -> re_match U (loose_pattern U) [x] = None.
Proof.
  intros x Hx. unfold re_match, loose_pattern. cbn [m].
  rewrite rep_none; [reflexivity|].
  intros a b Hs Ha Hl. destruct a as [|y a]; [simpl in Hl; lia|].
  destruct a; [|destruct a; discriminate].
  cbn [app] in Hs. inversion Hs; subst. reflexivity.
Qed.

Lemma loose_pattern_digits : forall D x,
  D <> [] -> forallb (is_digit U) D = true -> is_digit U x = true ->
  exists mt, re_match U (loose_pattern U) (D ++ [x]) = Some mt /\
             group mt 2 = Ok [x].
Proof.
  intros D x HD0 HD Hx.
  pose proof (digit_not_space U x Hx) as Hs.
  pose proof (digit_not_outside x Hx) as Ho.
  pose proof (digit_any_char x Hx) as Hy.
  assert (Hm : exists e c,
             m U (loose_pattern U) None 0 (D ++ [x]) [] = Some (e, c) /\
             lookup 2 c = Some ((0 + List.length D + 0 + 0)%nat,
                                S (0 + List.length D + 0 + 0)%nat)).
  { unfold loose_pattern. cbn [m]. do 2 eexists. split.
    - apply rep_backoff; [exact HD | exact Hx | destruct D; [congruence | simpl; lia] | reflexivity |].
      cbn [m].
      apply (rep_greedy is_space _ [] [x]); [reflexivity | exact Hs | lia |].
      apply (rep_greedy (outside U) _ [] [x]); [reflexivity | exact Ho | lia |].
      cbn [m rep app List.length]. rewrite Hy. cbn [pred]. reflexivity.
    - reflexivity. }
  destruct Hm as (e & c & Hm & Hl).
  unfold re_match. rewrite Hm. eexists. split; [reflexivity|].
  unfold group. cbn [mo_caps mo_string]. rewrite Hl. f_equal.
  replace (D ++ [x]) with (D ++ [x] ++ []) by reflexivity.
  apply substring_at; simpl; lia.
Qed.

Lemma loose_pattern_all_digits : forall L,
  L <> [] -> forallb (is_digit U) L = true -> short_or_fail U (loose_pattern U) L.
Proof.
  intros L H0 HL. destruct (exists_last H0) as (D & x & ->).
  rewrite forallb_app in HL. apply andb_true_iff in HL. destruct HL as [HD Hx].
  cbn [forallb] in Hx. rewrite andb_true_r in Hx.
  destruct D as [|c D].
  - left. apply loose_pattern_one_digit. exact Hx.
  - right. destruct (loose_pattern_digits (c :: D) x) as (mt & Hm & Hg);
      [discriminate | exact HD | exact Hx |].
    exists mt, [x]. repeat split; [exact Hm | exact Hg |].
    pose proof (strip_length [x]). simpl in *. lia.
Qed.

End DigitsOnly.

(** X19: a line that holds nothing but decimal digits adds no row: the
    first three patterns need a blank, a parenthesis or a separator after
    the number, and the fourth can only give up the last digit, a text of
    one character. *)
Theorem digits_only_line : forall U data n line,
  forallb (is_digit U) (strip line) = true ->
  process_line U data n line = Ok data.
Proof.
  intros U data n line H. unfold process_line.
  destruct (strip line) as [|c0 l0] eqn:EL; [reflexivity|].
  remember (c0 :: l0) as L eqn:HL.
  assert (H0 : L <> []) by (subst L; discriminate).
  assert (Hall : Forall (fun q => short_or_fail U q L) (balloon_patterns U)).
  { rewrite balloon_patterns_named. apply Forall_four.
    - left. rewrite <- (app_nil_r L). apply ws_pattern_no_space; [exact H | exact I | exact I].
    - left. subst L. apply paren_pattern_digit.
      cbn [forallb] in H. apply andb_true_iff in H. tauto.
    - left. rewrite <- (app_nil_r L). apply sep_pattern_no_sep; [exact H | exact I | exact I].
    - apply loose_pattern_all_digits; assumption. }
  rewrite (balloon_loop_skip U _ _ n Hall). subst L. reflexivity.
Qed.

Lemma digits_only_line_witness :
  process_line latin1_only [] 1 (u " 125 ") = Ok [].
Proof.
  apply (digits_only_line latin1_only [] 1 (u " 125 ")). reflexivity.
Defined.

(** ** Integers too long for [int] *)

Section LongIntegers.

Variable U : unicode_tables.

Lemma py_int_too_long : forall D,
  forallb (is_digit U) D = true -> (int_max_str_digits < List.length D)%nat ->
  py_int U D = Raise ValueError.
Proof.
  intros D HD Hlen. destruct D as [|c D]; [reflexivity|].
  assert (Hc : is_digit U c = true).
  { simpl in HD. apply andb_true_iff in HD. tauto. }
  pose proof (digit_ge_48 U c Hc) as Hge.
  destruct (digits_value_digits U (c :: D) 0 HD) as [num Hnum].
  unfold py_int.
  assert (Hs : strip_num (c :: D) = c :: D).
  { unfold strip_num. cbn [lstrip_num]. rewrite (digit_not_num_space U c Hc).
    apply (rstrip_num_digits U). exact HD. }
  rewrite Hs. unfold split_sign.
  replace (c =? 43) with false by (symmetry; apply N.eqb_neq; lia).
  replace (c =? 45) with false by (symmetry; apply N.eqb_neq; lia).
  rewrite Hnum. apply Nat.leb_gt in Hlen. rewrite Hlen. reflexivity.
Qed.

Lemma balloon_try_too_long : forall mt n D,
  group mt 1 = Ok D -> forallb (is_digit U) D = true ->
  (int_max_str_digits < List.length D)%nat ->
  balloon_try U mt n = Raise ValueError.
Proof.
  intros mt n D Hg HD Hlen. unfold balloon_try. rewrite Hg. cbn [bind].
  rewrite (py_int_too_long D HD Hlen). reflexivity.
Qed.

Lemma loose_pattern_first_group : forall D W R,
  D <> [] -> forallb (is_digit U) D = true ->
  W <> [] -> forallb is_space W = true ->
  head_outside is_space R -> R <> [] -> forallb any_char R = true ->
  exists mt, re_match U (loose_pattern U) (D ++ W ++ R) = Some mt /\
             group mt 1 = Ok D.
Proof.
  intros D W R HD0 HD HW0 HW HhR HR0 HR.
  assert (HhW : head_outside (is_digit U) (W ++ R)).
  { destruct W as [|w W]; [congruence|]. simpl in HW |- *.
    apply andb_true_iff in HW. apply space_not_digit. tauto. }
  assert (HlD : (1 <= List.length D)%nat) by (destruct D; [congruence | simpl; lia]).
  destruct (span (outside U) R) as [F R'] eqn:Es.
  destruct (span_spec _ _ _ _ Es) as (HRs & HF & HhF).
  assert (Hm : exists e c,
             m U (loose_pattern U) None 0 (D ++ W ++ R) [] = Some (e, c) /\
             lookup 1 c = Some (0%nat, (0 + List.length D)%nat)).
  { destruct R' as [|y R''].
    - rewrite app_nil_r in HRs. subst F.
      destruct (exists_last HR0) as (F' & y & HF'). subst R.
      rewrite forallb_app in HR, HF.
      apply andb_true_iff in HR. destruct HR as [_ Hy].
      apply andb_true_iff in HF. destruct HF as [HF Ho].
      cbn [forallb] in Hy, Ho. rewrite andb_true_r in Hy, Ho.
      unfold loose_pattern. cbn [m]. do 2 eexists. split.
      + apply rep_greedy; [exact HD | exact HhW | exact HlD |].
        cbn [m]. apply rep_greedy; [exact HW | exact HhR | lia |].
        apply rep_backoff; [exact HF | exact Ho | lia | reflexivity |].
        cbn [m rep]. rewrite Hy. cbn [pred]. reflexivity.
      + reflexivity.
    - assert (Hany : forallb any_char (y :: R'') = true).
      { rewrite HRs, forallb_app in HR. apply andb_true_iff in HR. tauto. }
      subst R.
      unfold loose_pattern. cbn [m]. do 2 eexists. split.
      + apply rep_greedy; [exact HD | exact HhW | exact HlD |].
        cbn [m]. apply rep_greedy; [exact HW | exact HhR | lia |].
        apply rep_greedy; [exact HF | exact HhF | lia |].
        cbn [m]. apply rep_greedy_all; [exact Hany | simpl; lia |].
        cbn [m]. reflexivity.
      + reflexivity. }
  destruct Hm as (e & c & Hm & Hl1).
  unfold re_match. rewrite Hm. eexists. split; [reflexivity|].
  unfold group. cbn [mo_caps mo_string]. rewrite Hl1. f_equal.
  apply (substring_at [] D (W ++ R)); simpl; lia.
Qed.

Lemma process_line_none : forall data n line L,
  strip line = L -> balloon_loop U (balloon_patterns U) L n = Ok None ->
  process_line U data n line = Ok data.
Proof.
  intros data n line L HL H. unfold process_line. rewrite HL.
  destruct L as [|c L]; [reflexivity|]. rewrite H. reflexivity.
Qed.

End LongIntegers.

(** X20: a line made of an integer of more than [int_max_str_digits]
    digits, blanks and a trimmed text without a newline adds no row: the
    first and the fourth pattern match with the whole integer as item
    number, [int] refuses it with [ValueError], and the program goes on to
    the next pattern. *)
Theorem long_integer_line : forall U data n D W R,
  forallb (is_digit U) D = true -> (int_max_str_digits < List.length D)%nat ->
  W <> [] -> forallb is_space W = true ->
  strip R = R -> has_char 10 R = false -> R <> [] ->
  process_line U data n (D ++ W ++ R) = Ok data.
Proof.
  intros U data n D W R HD Hlen HW0 HW HR Hn HR0.
  destruct (strip_fixed_facts R HR) as [HhR HRr].
  pose proof (no_newline_any R Hn) as HRany.
  destruct D as [|c D']; [simpl in Hlen; lia|].
  assert (HD0 : c :: D' <> []) by discriminate.
  assert (Hc : is_digit U c = true).
  { simpl in HD. apply andb_true_iff in HD. tauto. }
  assert (HhW : head_outside (is_digit U) (W ++ R)).
  { destruct W as [|w W]; [congruence|]. simpl in HW |- *.
    apply andb_true_iff in HW. apply space_not_digit. tauto. }
  assert (HhS : head_outside (one_of [46; 45; 58]) (W ++ R)).
  { destruct W as [|w W]; [congruence|]. simpl in HW |- *.
    apply andb_true_iff in HW. apply (space_not_sep U). tauto. }
  destruct (ws_pattern_groups U (c :: D') W R) as (mt1 & Hm1 & Hg1 & _); try assumption.
  destruct (loose_pattern_first_group U (c :: D') W R) as (mt4 & Hm4 & Hg4);
    try assumption.
  apply (process_line_none U data n _ ((c :: D') ++ W ++ R)).
  - replace ((c :: D') ++ W ++ R) with (c :: (D' ++ W) ++ R)
      by (cbn [app]; rewrite <- app_assoc; reflexivity).
    apply strip_line_fixed; [apply (digit_not_space U); exact Hc | exact HRr | exact HR0].
  - rewrite balloon_patterns_named. cbn [balloon_loop].
    rewrite Hm1, (balloon_try_too_long U mt1 n _ Hg1 HD Hlen).
    change ((c :: D') ++ W ++ R) with (c :: (D' ++ W ++ R)) at 1.
    rewrite (paren_pattern_digit U c _ Hc).
    rewrite (sep_pattern_no_sep U (c :: D') (W ++ R)) by assumption.
    rewrite Hm4, (balloon_try_too_long U mt4 n _ Hg4 HD Hlen). reflexivity.
Qed.

Lemma long_integer_line_witness :
  process_line latin1_only [] 1 (repeat 49 4301 ++ u " " ++ u "ab") = Ok [].
Proof.
  apply (long_integer_line latin1_only [] 1 (repeat 49 4301) (u " ") (u "ab"));
    try (vm_compute; reflexivity); try discriminate.
Defined.
